(** * Quantium_GDD: the turn engine of [script.js]

    A shallow embedding of the simulation core of [src/script.js] (the
    Translator, answer resolution, Inquisitor, Producer, Marketing, the
    turn engine [advanceWeek] and [releaseGame]) and the properties of the
    specification that concern it.

    Modelling conventions.

    - JavaScript numbers.  Counters ([currentWeek], [bugs], [budget],
      [weeklySpend]) are integers and are kept in [Z]; the percentages
      ([buildProgress], [marketHype], [designCompleteness], [finalScore])
      are kept in [Q], with the arithmetic of the source written out.
      [buildProgress] and [marketHype] only ever hold multiples of one half,
      on which double arithmetic is exact; [designCompleteness] and
      [finalScore] are given by the exact value of the source expression.
      The two products on which the Producer branches, [n * 0.15] in the
      bug draw and [Math.random() * n] in the choice of the question to
      blame, are products of doubles: the exact product rounded to the
      nearest double, a tie to the even one ([Double.mul]).
    - Strings are sequences of 8-bit code units ([string]); [toLowerCase],
      [trim] and the class [\s] are those of JavaScript on the code units
      below 256.
    - [Math.random] is a tape [random : nat -> Q] read at the position
      [randomCalls] kept beside the simulation state.
    - An [async] function is a function that runs its synchronous prefix
      and returns a [task]: either settled, or suspended at an [await
      queryAgent(...)] with the rest of its body as a continuation.  The
      order in which the pending requests of one turn are answered, and the
      answers, are given by a schedule; a schedule that leaves a request
      unanswered leaves the turn unfinished.
    - Status texts built from template literals are kept as the template
      and its arguments ([Activity]).  Canvas drawing and DOM wiring are not
      modelled. *)

From Stdlib Require Import ZArith QArith Qminmax Qround List String Ascii Bool Lia.
From Stdlib Require Import Sorted Lqa Relations Qpower.
From Stdlib Require Floats.SpecFloat.
From Stdlib Require Import DecimalString.
From Stdlib Require DecimalZ DecimalFacts.
Import ListNotations.

Open Scope string_scope.
Open Scope Z_scope.

(** ** Strings *)

Module JsString.

Definition code (c : ascii) : N := N_of_ascii c.

(** [\s] of a regular expression and the white space removed by [trim],
    on code units below 256. *)
Definition isSpace (c : ascii) : bool :=
  let n := code c in
  ((9 <=? n) && (n <=? 13) || (n =? 32) || (n =? 160))%N.

(** The character class [[a-z0-9]]. *)
Definition isLowerAlnum (c : ascii) : bool :=
  let n := code c in
  ((97 <=? n) && (n <=? 122) || (48 <=? n) && (n <=? 57))%N.

Definition lowerChar (c : ascii) : ascii :=
  let n := code c in
  if ((65 <=? n) && (n <=? 90)
      || (192 <=? n) && (n <=? 222) && negb (n =? 215))%N
  then ascii_of_N (n + 32) else c.

Fixpoint toLowerCase (s : string) : string :=
  match s with
  | EmptyString => EmptyString
  | String c t => String (lowerChar c) (toLowerCase t)
  end.

Definition startsWith (s p : string) : bool := String.prefix p s.

Fixpoint includes (s p : string) : bool :=
  String.prefix p s ||
  match s with
  | EmptyString => false
  | String _ t => includes t p
  end.

Fixpoint dropWhile (f : ascii -> bool) (s : string) : string :=
  match s with
  | EmptyString => EmptyString
  | String c t => if f c then dropWhile f t else s
  end.

Fixpoint takeWhile (f : ascii -> bool) (s : string) : string :=
  match s with
  | EmptyString => EmptyString
  | String c t => if f c then String c (takeWhile f t) else EmptyString
  end.

Fixpoint drop (n : nat) (s : string) : string :=
  match n, s with
  | O, _ => s
  | S _, EmptyString => EmptyString
  | S m, String _ t => drop m t
  end.

Fixpoint allSpace (s : string) : bool :=
  match s with
  | EmptyString => true
  | String c t => isSpace c && allSpace t
  end.

(** [s.trim() !== ''] *)
Definition trimNonEmpty (s : string) : bool := negb (allSpace s).

Definition isEmpty (s : string) : bool :=
  match s with EmptyString => true | _ => false end.

Definition ofZ (n : Z) : string := NilZero.string_of_int (Z.to_int n).

End JsString.
Import JsString.

(** ** Data model *)

Inductive QuantumType :=
| Genre | MechanicPillar | Setting | Character | Ability | ArtStyle | GameplayLoop.

Definition typeName (t : QuantumType) : string :=
  match t with
  | Genre => "Genre"
  | MechanicPillar => "MechanicPillar"
  | Setting => "Setting"
  | Character => "Character"
  | Ability => "Ability"
  | ArtStyle => "ArtStyle"
  | GameplayLoop => "GameplayLoop"
  end.

Record QuantumData := mkData {
  name : option string;
  description : option string
}.

Record Quantum := mkQuantum {
  quantumType : QuantumType;
  data : QuantumData;
  quantumId : string;
  version : Z;
  status : string;
  createdAt : string;
  declarationSource : string
}.

Inductive QuestionStatus := Open | Answered.

Record Question := mkQuestion {
  id : string;
  text : string;
  qstatus : QuestionStatus;
  sourceQuantumId : string
}.

Record BugReport := mkBug {
  bugId : string;
  bugText : string;
  week : Z;
  sourceQuestionId : string
}.

(** Status texts: the template literal of the source and its arguments. *)
Inductive Activity :=
| Text (s : string)
| Parsing (s : string)              (* Parsing: "<first 30 characters>..." *)
| CreatedQuanta (n : nat)           (* Created <n> new quanta. *)
| AnsweredQuestion (qid : string)   (* Answered question <id>. *)
| Analyzing (n : nat)               (* Analyzing <n> new fact(s)... *)
| GeneratedQuestions (n : nat)      (* Generated <n> new question(s). *)
| ProgressGain (p : Q)              (* +<p>% progress. *)
| Released (score : Q).             (* GAME RELEASED! Final Score: <score> *)

Record AgentActivity := mkActivity {
  translator : Activity;
  inquisitor : Activity;
  producer : Activity;
  marketing : Activity
}.

Record GameState := mkGame {
  currentWeek : Z;
  projectName : string;
  budget : Z;
  designCompleteness : Q;
  buildProgress : Q;
  bugs : Z;
  marketHype : Q;
  weeklySpend : Z;
  marketingActive : bool;
  gameReleased : bool;
  finalScore : Q;
  commandQueue : list string;
  lastAgentActivity : AgentActivity
}.

Record SimulationState := mkSim {
  isWaitingForAgents : bool;
  agentStatusText : string;
  gameState : GameState;
  quantumCore : list Quantum;
  unansweredQuestions : list Question;
  bugReports : list BugReport;
  randomCalls : nat        (* how many times Math.random() was called *)
}.

Definition initialState : SimulationState :=
  {| isWaitingForAgents := false;
     agentStatusText := "Idle";
     gameState :=
       {| currentWeek := 1;
          projectName := "Project Chimera";
          budget := 1000000;
          designCompleteness := 0;
          buildProgress := 0;
          bugs := 0;
          marketHype := 0;
          weeklySpend := 5000;
          marketingActive := false;
          gameReleased := false;
          finalScore := 0;
          commandQueue :=
            ["/declare 'Project Chimera' is a third-person action RPG with stealth elements, set in a cyberpunk fantasy world."];
          lastAgentActivity :=
            {| translator := Text "Awaiting input.";
               inquisitor := Text "Idle.";
               producer := Text "Awaiting project start.";
               marketing := Text "Planning phase." |} |};
     quantumCore := [];
     unansweredQuestions := [];
     bugReports := [];
     randomCalls := 0 |}.

(** The outside world: the results of [Math.random()] in call order, and
    [Number.prototype.toString(36)] on them. *)
Record World := mkWorld {
  random : nat -> Q;
  base36 : Q -> string
}.

(** An [async] function after its synchronous prefix. *)
#[local] Unset Elimination Schemes.
Inductive task :=
| Resolved
| Rejected
| Await (systemPrompt userPrompt : string)
        (k : string -> SimulationState -> SimulationState * task).
#[local] Set Elimination Schemes.

Definition Async : Type := SimulationState * task.

(** ** Assignments to the shared state *)

Definition updGame (f : GameState -> GameState) (st : SimulationState)
  : SimulationState :=
  {| isWaitingForAgents := isWaitingForAgents st;
     agentStatusText := agentStatusText st;
     gameState := f (gameState st);
     quantumCore := quantumCore st;
     unansweredQuestions := unansweredQuestions st;
     bugReports := bugReports st;
     randomCalls := randomCalls st |}.

Definition updActivity (f : AgentActivity -> AgentActivity) (g : GameState)
  : GameState :=
  mkGame (currentWeek g) (projectName g) (budget g) (designCompleteness g)
    (buildProgress g) (bugs g) (marketHype g) (weeklySpend g)
    (marketingActive g) (gameReleased g) (finalScore g) (commandQueue g)
    (f (lastAgentActivity g)).

Definition setTranslator (a : Activity) : SimulationState -> SimulationState :=
  updGame (updActivity (fun l =>
    mkActivity a (inquisitor l) (producer l) (marketing l))).
Definition setInquisitor (a : Activity) : SimulationState -> SimulationState :=
  updGame (updActivity (fun l =>
    mkActivity (translator l) a (producer l) (marketing l))).
Definition setProducer (a : Activity) : SimulationState -> SimulationState :=
  updGame (updActivity (fun l =>
    mkActivity (translator l) (inquisitor l) a (marketing l))).
Definition setMarketing (a : Activity) : SimulationState -> SimulationState :=
  updGame (updActivity (fun l =>
    mkActivity (translator l) (inquisitor l) (producer l) a)).

Definition setCurrentWeek (v : Z) : SimulationState -> SimulationState :=
  updGame (fun g =>
    mkGame v (projectName g) (budget g) (designCompleteness g)
      (buildProgress g) (bugs g) (marketHype g) (weeklySpend g)
      (marketingActive g) (gameReleased g) (finalScore g) (commandQueue g)
      (lastAgentActivity g)).
Definition setBudget (v : Z) : SimulationState -> SimulationState :=
  updGame (fun g =>
    mkGame (currentWeek g) (projectName g) v (designCompleteness g)
      (buildProgress g) (bugs g) (marketHype g) (weeklySpend g)
      (marketingActive g) (gameReleased g) (finalScore g) (commandQueue g)
      (lastAgentActivity g)).
Definition setDesignCompleteness (v : Q) : SimulationState -> SimulationState :=
  updGame (fun g =>
    mkGame (currentWeek g) (projectName g) (budget g) v
      (buildProgress g) (bugs g) (marketHype g) (weeklySpend g)
      (marketingActive g) (gameReleased g) (finalScore g) (commandQueue g)
      (lastAgentActivity g)).
Definition setBuildProgress (v : Q) : SimulationState -> SimulationState :=
  updGame (fun g =>
    mkGame (currentWeek g) (projectName g) (budget g) (designCompleteness g)
      v (bugs g) (marketHype g) (weeklySpend g)
      (marketingActive g) (gameReleased g) (finalScore g) (commandQueue g)
      (lastAgentActivity g)).
Definition setBugs (v : Z) : SimulationState -> SimulationState :=
  updGame (fun g =>
    mkGame (currentWeek g) (projectName g) (budget g) (designCompleteness g)
      (buildProgress g) v (marketHype g) (weeklySpend g)
      (marketingActive g) (gameReleased g) (finalScore g) (commandQueue g)
      (lastAgentActivity g)).
Definition setMarketHype (v : Q) : SimulationState -> SimulationState :=
  updGame (fun g =>
    mkGame (currentWeek g) (projectName g) (budget g) (designCompleteness g)
      (buildProgress g) (bugs g) v (weeklySpend g)
      (marketingActive g) (gameReleased g) (finalScore g) (commandQueue g)
      (lastAgentActivity g)).
Definition setWeeklySpend (v : Z) : SimulationState -> SimulationState :=
  updGame (fun g =>
    mkGame (currentWeek g) (projectName g) (budget g) (designCompleteness g)
      (buildProgress g) (bugs g) (marketHype g) v
      (marketingActive g) (gameReleased g) (finalScore g) (commandQueue g)
      (lastAgentActivity g)).
Definition setMarketingActive (v : bool) : SimulationState -> SimulationState :=
  updGame (fun g =>
    mkGame (currentWeek g) (projectName g) (budget g) (designCompleteness g)
      (buildProgress g) (bugs g) (marketHype g) (weeklySpend g)
      v (gameReleased g) (finalScore g) (commandQueue g)
      (lastAgentActivity g)).
Definition setGameReleased (v : bool) : SimulationState -> SimulationState :=
  updGame (fun g =>
    mkGame (currentWeek g) (projectName g) (budget g) (designCompleteness g)
      (buildProgress g) (bugs g) (marketHype g) (weeklySpend g)
      (marketingActive g) v (finalScore g) (commandQueue g)
      (lastAgentActivity g)).
Definition setFinalScore (v : Q) : SimulationState -> SimulationState :=
  updGame (fun g =>
    mkGame (currentWeek g) (projectName g) (budget g) (designCompleteness g)
      (buildProgress g) (bugs g) (marketHype g) (weeklySpend g)
      (marketingActive g) (gameReleased g) v (commandQueue g)
      (lastAgentActivity g)).
Definition setCommandQueue (v : list string)
  : SimulationState -> SimulationState :=
  updGame (fun g =>
    mkGame (currentWeek g) (projectName g) (budget g) (designCompleteness g)
      (buildProgress g) (bugs g) (marketHype g) (weeklySpend g)
      (marketingActive g) (gameReleased g) (finalScore g) v
      (lastAgentActivity g)).

Definition setQuantumCore (v : list Quantum) (st : SimulationState)
  : SimulationState :=
  mkSim (isWaitingForAgents st) (agentStatusText st) (gameState st)
    v (unansweredQuestions st) (bugReports st) (randomCalls st).
Definition setUnansweredQuestions (v : list Question) (st : SimulationState)
  : SimulationState :=
  mkSim (isWaitingForAgents st) (agentStatusText st) (gameState st)
    (quantumCore st) v (bugReports st) (randomCalls st).
Definition setBugReports (v : list BugReport) (st : SimulationState)
  : SimulationState :=
  mkSim (isWaitingForAgents st) (agentStatusText st) (gameState st)
    (quantumCore st) (unansweredQuestions st) v (randomCalls st).
Definition setRandomCalls (v : nat) (st : SimulationState)
  : SimulationState :=
  mkSim (isWaitingForAgents st) (agentStatusText st) (gameState st)
    (quantumCore st) (unansweredQuestions st) (bugReports st) v.

(** [setWaitingState(isWaiting, statusText)], without its DOM part. *)
Definition setWaitingState (isWaiting : bool) (statusText : string)
  (st : SimulationState) : SimulationState :=
  mkSim isWaiting statusText (gameState st)
    (quantumCore st) (unansweredQuestions st) (bugReports st) (randomCalls st).

(** ** Small helpers of the source *)

Definition weekString (st : SimulationState) : string :=
  "Week " ++ ofZ (currentWeek (gameState st)).

Definition fallbackMarker : string := "Fallback:".

Definition isFallback (s : string) : bool := startsWith s fallbackMarker.

Definition isOpen (q : Question) : bool :=
  match qstatus q with Open => true | Answered => false end.

Definition openQuestionsOf (st : SimulationState) : list Question :=
  filter isOpen (unansweredQuestions st).

Definition lengthZ {A} (l : list A) : Z := Z.of_nat (List.length l).

Definition quote : string := String (ascii_of_nat 34) EmptyString.

(** [Math.random()] *)
Definition mathRandom (W : World) (st : SimulationState)
  : Q * SimulationState :=
  (random W (randomCalls st), setRandomCalls (S (randomCalls st)) st).

(** [generateId(prefix)] *)
Definition generateId (W : World) (prefix : string) (st : SimulationState)
  : string * SimulationState :=
  let (r, st') := mathRandom W st in
  (prefix ++ "-" ++ substring 2 9 (base36 W r), st').

Module AGENT_PROMPTS.
Definition inquisitor : string :=
  "You are a critical game designer. Your job is to analyze a new design fact and generate one probing question to expose missing details. Your question must be a single line, and less than 10 words.".
Definition marketing : string :=
  "You are a hype-focused marketing agent. Write a short, exciting social media post (140 characters max) about the latest game feature. Include a relevant hashtag like #ProjectChimera.".
Definition producer : string :=
  "You are a pragmatic producer. An unresolved design question has caused a bug. Describe the bug in a short, technical-sounding but slightly humorous bug report. Start with 'Bug #[ID]: ' but replace [ID] with a random 3-digit number.".
End AGENT_PROMPTS.

(** ** Translator *)

Definition named (s : string) : QuantumData := mkData (Some s) None.
Definition described (s : string) : QuantumData := mkData None (Some s).

(** The keyword tests of [translatorTurn], in the order of the source. *)
Definition keywords : list (string * (QuantumType * QuantumData)) :=
  [ ("rpg", (Genre, named "Action RPG"));
    ("stealth", (MechanicPillar, named "Stealth"));
    ("cyberpunk", (Setting, named "Cyberpunk Fantasy"));
    ("protagonist", (Character, named "Unit 734"));
    ("ghostwire", (Ability, named "Ghostwire"));
    ("art style", (ArtStyle, named "Dystopian Baroque"));
    ("gameplay loop",
      (GameplayLoop, described "Explore, Contract, Takedown, Upgrade")) ].

Definition newQuantaOf (input : string) : list (QuantumType * QuantumData) :=
  let lowerInput := toLowerCase input in
  map snd (filter (fun kw => includes lowerInput (fst kw)) keywords).

(** The body of [newQuanta.forEach]. *)
Fixpoint pushQuanta (W : World) (input : string)
  (newQuanta : list (QuantumType * QuantumData)) (st : SimulationState)
  : SimulationState :=
  match newQuanta with
  | [] => st
  | (ty, d) :: rest =>
      let (qid, st1) := generateId W "q" st in
      let q := {| quantumType := ty; data := d; quantumId := qid;
                  version := 1; status := "Active";
                  createdAt := weekString st1;
                  declarationSource := input |} in
      pushQuanta W input rest (setQuantumCore (quantumCore st1 ++ [q]) st1)
  end.

Definition translatorTurn (W : World) (input : string) (st : SimulationState)
  : bool * SimulationState :=
  let st0 := setTranslator (Parsing (substring 0 30 input)) st in
  let newQuanta := newQuantaOf input in
  if (0 <? List.length newQuanta)%nat then
    let st1 := pushQuanta W input newQuanta st0 in
    (true, setTranslator (CreatedQuanta (List.length newQuanta)) st1)
  else
    (false, setTranslator (Text "No new quanta defined from input.") st0).

(** ** Answer resolution *)

(** The regular expression [/(\/answer\s+)(uq-[a-z0-9]+)/] tried at the
    start of [s]; the result is its second group.  [\s+] and [[a-z0-9]+]
    are greedy, and giving characters back never helps: after fewer white
    space characters comes a white space character, not [u]. *)
Definition matchAnswerAt (s : string) : option string :=
  if String.prefix "/answer" s then
    let r := drop 7 s in
    let r' := dropWhile isSpace r in
    if (String.length r' <? String.length r)%nat && String.prefix "uq-" r'
    then
      let body := takeWhile isLowerAlnum (drop 3 r') in
      if isEmpty body then None else Some ("uq-" ++ body)
    else None
  else None.

(** [input.match(...)]: the leftmost position at which the expression
    matches. *)
Fixpoint matchAnswer (s : string) : option string :=
  match matchAnswerAt s with
  | Some qid => Some qid
  | None =>
      match s with
      | EmptyString => None
      | String _ t => matchAnswer t
      end
  end.

Definition hasId (questionId : string) (q : Question) : bool :=
  String.eqb (id q) questionId.

(** [question.status = "Answered"] on the object found by
    [unansweredQuestions.find(q => q.id === questionId)]: the first question
    of the ledger with that id. *)
Fixpoint answerFirst (questionId : string) (l : list Question)
  : list Question :=
  match l with
  | [] => []
  | q :: rest =>
      if hasId questionId q
      then mkQuestion (id q) (text q) Answered (sourceQuantumId q) :: rest
      else q :: answerFirst questionId rest
  end.

Definition resolveAnswer (W : World) (input : string) (st : SimulationState)
  : bool * SimulationState :=
  let plain := (false, snd (translatorTurn W input st)) in
  match matchAnswer input with
  | Some questionId =>
      match find (hasId questionId) (unansweredQuestions st) with
      | Some _ =>
          let st1 :=
            setUnansweredQuestions
              (answerFirst questionId (unansweredQuestions st)) st in
          let st2 := snd (translatorTurn W input st1) in
          (true, setTranslator (AnsweredQuestion questionId) st2)
      | None => plain
      end
  | None => plain
  end.

(** ** Inquisitor *)

Definition recentQuantaOf (st : SimulationState) : list Quantum :=
  filter (fun q => String.eqb (createdAt q) (weekString st)) (quantumCore st).

(** [q.data.name || q.data.description] inside a template literal. *)
Definition orUndefined (o : option string) : string :=
  match o with Some s => s | None => "undefined" end.

Definition nameOrDescription (d : QuantumData) : string :=
  match name d with
  | Some s => if isEmpty s then orUndefined (description d) else s
  | None => orUndefined (description d)
  end.

Definition designFact (q : Quantum) : string :=
  "[" ++ typeName (quantumType q) ++ "] " ++ nameOrDescription (data q).

Definition fromAnswer (q : Quantum) : bool :=
  startsWith (toLowerCase (declarationSource q)) "/answer".

Definition acceptQuestion (questionText : string) : bool :=
  negb (isFallback questionText) && (10 <? String.length questionText)%nat.

(** What follows the [for] loop of [inquisitorTurn]. *)
Definition inquisitorEnd (newQuestions : list Question) (st : SimulationState)
  : SimulationState :=
  if (0 <? List.length newQuestions)%nat then
    setInquisitor (GeneratedQuestions (List.length newQuestions))
      (setUnansweredQuestions (unansweredQuestions st ++ newQuestions) st)
  else
    setInquisitor (Text "Analysis complete. No new questions.") st.

(** The [for (const q of recentQuanta)] loop, from the quanta still to
    visit and the questions collected so far. *)
Fixpoint inquisitorLoop (W : World) (todo : list Quantum)
  (newQuestions : list Question) (st : SimulationState) {struct todo}
  : Async :=
  match todo with
  | [] => (inquisitorEnd newQuestions st, Resolved)
  | q :: rest =>
      if fromAnswer q then inquisitorLoop W rest newQuestions st
      else
        (st, Await AGENT_PROMPTS.inquisitor (designFact q)
               (fun questionText st' =>
                  if acceptQuestion questionText then
                    let (qid, st'') := generateId W "uq" st' in
                    inquisitorLoop W rest
                      (newQuestions ++
                         [mkQuestion qid questionText Open (quantumId q)])
                      st''
                  else inquisitorLoop W rest newQuestions st'))
  end.

Definition inquisitorTurn (W : World) (st : SimulationState) : Async :=
  let recentQuanta := recentQuantaOf st in
  if (List.length recentQuanta =? 0)%nat then
    (setInquisitor (Text "No new facts to analyze.") st, Resolved)
  else
    inquisitorLoop W recentQuanta []
      (setInquisitor (Analyzing (List.length recentQuanta)) st).

(** ** Producer and release *)

Definition scoreOf (designScore hypeScore : Q) (bugCount : Z) : Q :=
  let qualityScore := Qmax 0 (100 - inject_Z bugCount * 2) in
  (designScore * 0.4 + hypeScore * 0.3 + qualityScore * 0.3)%Q.

Definition releaseGame (st : SimulationState) : SimulationState :=
  let st1 := setGameReleased true st in
  let designScore := designCompleteness (gameState st1) in
  let hypeScore := marketHype (gameState st1) in
  let st2 :=
    setFinalScore (scoreOf designScore hypeScore (bugs (gameState st1))) st1 in
  setProducer (Released (finalScore (gameState st2))) st2.

(** The end of [producerTurn]: the activity log and the release test. *)
Definition producerEnd (activityLog : Activity) (st : SimulationState)
  : SimulationState :=
  let st1 := setProducer activityLog st in
  if Qle_bool 100 (buildProgress (gameState st1)) then releaseGame st1
  else st1.

(** *** Products of doubles

    A double is kept as the rational number it denotes.  The product of two
    doubles is the exact product rounded to the nearest double, a tie going
    to the one with the even significand (IEEE 754, binary64: 53 bits of
    significand, least exponent -1074).  Overflow is left out: the products
    formed by the source have a factor that is the length of an array, below
    [2^32], and another that is at most 1. *)

Module Double.

(** The binade of a positive number: the [k] with [2^k <= x < 2^(k+1)]. *)
Definition ilog2 (x : Q) : Z :=
  let e := Z.log2 (Qnum x) - Z.log2 (Zpos (Qden x)) in
  if Qle_bool (2 ^ e) x then e else e - 1.

(** The nearest integer, a tie going to the even one. *)
Definition nearestEven (x : Q) : Z :=
  let f := Qfloor x in
  match (x - inject_Z f ?= 1 # 2)%Q with
  | Lt => f
  | Gt => f + 1
  | Eq => if Z.even f then f else f + 1
  end.

(** The double nearest to a positive number: the nearest multiple of
    [2^e], where [e] is the exponent of the doubles of its binade. *)
Definition nearest (x : Q) : Q :=
  let e := Z.max (ilog2 x - 52) (-1074) in
  (inject_Z (nearestEven (x / 2 ^ e)) * 2 ^ e)%Q.

(** The double nearest to a number. *)
Definition round (x : Q) : Q :=
  match (x ?= 0)%Q with
  | Eq => 0%Q
  | Gt => nearest x
  | Lt => (- nearest (- x))%Q
  end.

(** [a * b] on doubles. *)
Definition mul (a b : Q) : Q := round (a * b).

(** The double that the literal [0.15] denotes. *)
Definition lit015 : Q := 5404319552844595 # 36028797018963968.

(** The last double below 1, [1 - 2^-53]. *)
Definition lastBelowOne : Q := 9007199254740991 # 9007199254740992.

(** Half the distance between 1 and the next double, and half the least
    positive double: the relative and the absolute error of [round]. *)
Definition eps : Q := 1 # 9007199254740992.
Definition tiny : Q := (2 ^ (-1075))%Q.

(** The number a finite binary64 value of the Standard Library denotes. *)
Definition ofSpecFloat (f : SpecFloat.spec_float) : Q :=
  match f with
  | SpecFloat.S754_finite s m e =>
      ((if s then -1 else 1) * inject_Z (Zpos m) * 2 ^ e)%Q
  | _ => 0%Q
  end.

(** An integer as a binary64 value, and the product of the Standard
    Library's specification of binary64. *)
Definition ofInteger (n : Z) : SpecFloat.spec_float :=
  SpecFloat.binary_normalize 53 1024 n 0 false.

Definition mulSpec (a b : SpecFloat.spec_float) : SpecFloat.spec_float :=
  SpecFloat.SFmul 53 1024 a b.

End Double.

(** [openQuestions[i]] for a number [i]. *)
Definition atIndex {A} (l : list A) (i : Z) : option A :=
  if i <? 0 then None else nth_error l (Z.to_nat i).

Definition progressFor (openCount : Z) : Q :=
  Qmax 0.5 (5 - inject_Z openCount * 0.5).

(** [a < b] on numbers. *)
Definition Qlt_bool (a b : Q) : bool := negb (Qle_bool b a).

(** The continuation of [producerTurn] after [await queryAgent(...)]. *)
Definition producerResume (W : World) (questionToBlame : Question)
  (activityLog : Activity) (bugText : string) (st : SimulationState)
  : Async :=
  if negb (isFallback bugText) then
    let st1 := setBugs (bugs (gameState st) + 1) st in
    let (bid, st2) := generateId W "bug" st1 in
    let report :=
      {| bugId := bid; bugText := bugText;
         week := currentWeek (gameState st2);
         sourceQuestionId := id questionToBlame |} in
    let st3 := setBugReports (bugReports st2 ++ [report]) st2 in
    (producerEnd (Text "A new bug was reported!") st3, Resolved)
  else
    (producerEnd activityLog st, Resolved).

Definition producerTurn (W : World) (st : SimulationState) : Async :=
  if (List.length (quantumCore st) =? 0)%nat || gameReleased (gameState st)
  then (setProducer (Text "Idle.") st, Resolved)
  else
    let st1 :=
      setBudget (budget (gameState st) - weeklySpend (gameState st)) st in
    let openQuestions := openQuestionsOf st1 in
    let progressThisWeek := progressFor (lengthZ openQuestions) in
    let st2 :=
      setBuildProgress
        (Qmin 100 (buildProgress (gameState st1) + progressThisWeek)) st1 in
    let activityLog := ProgressGain progressThisWeek in
    if (0 <? List.length openQuestions)%nat then
      let (draw, st3) := mathRandom W st2 in
      if Qlt_bool draw
           (Double.mul (inject_Z (lengthZ openQuestions)) Double.lit015) then
        let (pick, st4) := mathRandom W st3 in
        match atIndex openQuestions
                (Qfloor (Double.mul pick
                           (inject_Z (lengthZ openQuestions)))) with
        | Some questionToBlame =>
            (st4,
             Await AGENT_PROMPTS.producer
               ("The unresolved question is: " ++ quote
                  ++ text questionToBlame ++ quote)
               (producerResume W questionToBlame activityLog))
        | None => (st4, Rejected)    (* reading [.text] of [undefined] *)
        end
      else (producerEnd activityLog st3, Resolved)
    else (producerEnd activityLog st2, Resolved).

(** ** Marketing *)

Definition hypeable (q : Quantum) : bool :=
  match quantumType q with
  | Ability | Character | MechanicPillar | Setting => true
  | _ => false
  end.

(** The unconditional end of an active [marketingTurn]. *)
Definition marketingEnd (st : SimulationState) : SimulationState :=
  let hypeThisWeek := (inject_Z (lengthZ (quantumCore st)) / 2)%Q in
  let st1 :=
    setMarketHype (Qmin 100 (marketHype (gameState st) + hypeThisWeek)) st in
  setWeeklySpend (weeklySpend (gameState st1) + 2000) st1.

Definition marketingResume (hypeText : string) (st : SimulationState)
  : Async :=
  (marketingEnd
     (setMarketing
        (if isFallback hypeText
         then Text "Creative block! We'll post something next week."
         else Text hypeText) st),
   Resolved).

Definition marketingTurn (st : SimulationState) : Async :=
  if negb (marketingActive (gameState st)) || gameReleased (gameState st)
  then (setMarketing (Text "Planning...") st, Resolved)
  else
    match find hypeable (recentQuantaOf st) with
    | Some featureToHype =>
        (st,
         Await AGENT_PROMPTS.marketing
           ("The new game feature is a " ++ typeName (quantumType featureToHype)
              ++ " called '" ++ orUndefined (name (data featureToHype)) ++ "'.")
           marketingResume)
    | None => (marketingEnd st, Resolved)
    end.

(** ** The turn engine *)

Inductive Agent := Inquisitor | Producer | Marketing.

(** The three promises of one turn; the Inquisitor's is absent when it was
    not launched. *)
Record Turn := mkTurn {
  sim : SimulationState;
  inquisitorTask : option task;
  producerTask : task;
  marketingTask : task
}.

(** The command step of [advanceWeek]: [commandQueue.shift()] and the
    dispatch on the prefix; the result is [processed]. *)
Definition commandStep (W : World) (st : SimulationState)
  : bool * SimulationState :=
  match commandQueue (gameState st) with
  | [] => (false, st)
  | input :: rest =>
      let st1 := setCommandQueue rest st in
      if negb (isEmpty input) && trimNonEmpty input then
        if startsWith input "/declare" then translatorTurn W input st1
        else if startsWith input "/answer" then resolveAnswer W input st1
        else (false, st1)
      else (false, st1)
  end.

(** The launch of the agents, in the order of the source, each run up to its
    first [await]. *)
Definition launchInquisitor (W : World) (processed : bool)
  (st : SimulationState) : SimulationState * option task :=
  if processed then
    let (st', t) := inquisitorTurn W st in (st', Some t)
  else (st, None).

Definition activateMarketing (st : SimulationState) : SimulationState :=
  if 5 <? currentWeek (gameState st) then setMarketingActive true st else st.

Definition launch (W : World) (st : SimulationState) : Turn :=
  let (processed, st1) := commandStep W st in
  let st2 := setWaitingState true "Agents are thinking..." st1 in
  let (st3, ti) := launchInquisitor W processed st2 in
  let (st4, tp) := producerTurn W st3 in
  let st5 := activateMarketing st4 in
  let (st6, tm) := marketingTurn st5 in
  mkTurn st6 ti tp tm.

(** One answer of the text generation service reaches the agent that waits
    for it, and that agent runs up to its next [await]. *)
Definition deliver (t : Turn) (ev : Agent * string) : Turn :=
  let (agent, reply) := ev in
  match agent with
  | Inquisitor =>
      match inquisitorTask t with
      | Some (Await _ _ k) =>
          let (st', t') := k reply (sim t) in
          mkTurn st' (Some t') (producerTask t) (marketingTask t)
      | _ => t
      end
  | Producer =>
      match producerTask t with
      | Await _ _ k =>
          let (st', t') := k reply (sim t) in
          mkTurn st' (inquisitorTask t) t' (marketingTask t)
      | _ => t
      end
  | Marketing =>
      match marketingTask t with
      | Await _ _ k =>
          let (st', t') := k reply (sim t) in
          mkTurn st' (inquisitorTask t) (producerTask t) t'
      | _ => t
      end
  end.

Definition isResolved (t : task) : bool :=
  match t with Resolved => true | _ => false end.

(** [Promise.all(agentPromises)] is fulfilled. *)
Definition allResolved (t : Turn) : bool :=
  match inquisitorTask t with Some ti => isResolved ti | None => true end
  && isResolved (producerTask t) && isResolved (marketingTask t).

Definition designCompletenessOf (quanta openQuestions : Z) : Q :=
  let totalItems := quanta + openQuestions in
  if 0 <? totalItems then (inject_Z quanta / inject_Z totalItems * 100)%Q
  else if 0 <? quanta then 100%Q else 0%Q.

(** What [advanceWeek] does after [await Promise.all(...)]. *)
Definition finishTurn (st : SimulationState) : SimulationState :=
  let st1 :=
    setWaitingState false "Thinking complete. Proceeding to next week." st in
  let st2 := setCurrentWeek (currentWeek (gameState st1) + 1) st1 in
  let openQuestions := lengthZ (openQuestionsOf st2) in
  setDesignCompleteness
    (designCompletenessOf (lengthZ (quantumCore st2)) openQuestions) st2.

Inductive TurnResult :=
| Refused                             (* the guard returned at once *)
| Completed (st : SimulationState)    (* the turn ran to its end *)
| Stalled (t : Turn).                 (* some promise never settled well *)

Definition runTurn (W : World) (schedule : list (Agent * string))
  (st : SimulationState) : Turn :=
  fold_left deliver schedule (launch W st).

Definition advanceWeek (W : World) (schedule : list (Agent * string))
  (st : SimulationState) : TurnResult :=
  if gameReleased (gameState st) || isWaitingForAgents st then Refused
  else
    let t := runTurn W schedule st in
    if allResolved t then Completed (finishTurn (sim t)) else Stalled t.

(** The state after a call of [advanceWeek]. *)
Definition stateAfter (st : SimulationState) (r : TurnResult)
  : SimulationState :=
  match r with
  | Refused => st
  | Completed st' => st'
  | Stalled t => sim t
  end.

(** [submitCommand()], from the value of the input field. *)
Definition submitCommand (isSimRunning : bool) (command : string)
  (st : SimulationState) : SimulationState :=
  match commandQueue (gameState st) with
  | _ :: rest =>
      if negb isSimRunning then setCommandQueue (command :: rest) st
      else if trimNonEmpty command
           then setCommandQueue (commandQueue (gameState st) ++ [command]) st
           else st
  | [] =>
      if trimNonEmpty command then setCommandQueue [command] st else st
  end.

(** ** Vocabulary of the properties *)

Open Scope list_scope.

(** The engine called [inquisitorTurn] in the turn started from [st]. *)
Definition inquisitorLaunched (W : World) (st : SimulationState) : bool :=
  match inquisitorTask (launch W st) with Some _ => true | None => false end.

(** The command step of the turn started from [st] appended at least one
    quantum to the quantum core. *)
Definition quantaCreated (W : World) (st : SimulationState) : bool :=
  (List.length (quantumCore st)
   <? List.length (quantumCore (snd (commandStep W st))))%nat.

(** A result of [Math.random()]: a double of the interval [0, 1), hence
    at most the last double below 1. *)
Definition unitInterval (x : Q) : Prop :=
  (0 <= x /\ x <= Double.lastBelowOne)%Q.

(** One agent followed through its requests.  Each request is answered
    by a text; before the agent resumes, the other agents and the engine
    may have changed the shared state: [meanwhile] is that change.  The
    second component logs the requests made (instruction and context). *)
Record Answer := mkAnswer {
  reply : string;
  meanwhile : SimulationState -> SimulationState
}.

Fixpoint settle (answers : list Answer) (a : Async) {struct answers}
  : Async * list (string * string) :=
  match snd a with
  | Await p u k =>
      match answers with
      | r :: rest =>
          let (a', log) := settle rest (k (reply r) (meanwhile r (fst a))) in
          (a', (p, u) :: log)
      | [] => (a, [(p, u)])
      end
  | _ => (a, [])
  end.

(** The other agents of a turn do not write the question ledger. *)
Definition keepsLedger (f : SimulationState -> SimulationState) : Prop :=
  forall s, unansweredQuestions (f s) = unansweredQuestions s.

(** The quanta about which the Inquisitor asks. *)
Definition askedAbout (st : SimulationState) : list Quantum :=
  filter (fun q => negb (fromAnswer q)) (recentQuantaOf st).

(** What the properties say of a question: text, status, back-reference. *)
Definition questionView (q : Question) : string * QuestionStatus * string :=
  (text q, qstatus q, sourceQuantumId q).

(** A quantum and the answer to the request made for it: the answer is
    accepted as a question. *)
Definition accepted (qr : Quantum * string) : bool :=
  negb (String.prefix "Fallback:" (snd qr))
  && (10 <? String.length (snd qr))%nat.

Definition expectedView (qr : Quantum * string)
  : string * QuestionStatus * string :=
  (snd qr, Open, quantumId (fst qr)).

(** *** The agents between two requests *)

(** One more call of [Math.random()], or none. *)
Definition tick (b : bool) (s : SimulationState) : SimulationState :=
  if b then setRandomCalls (S (randomCalls s)) s else s.

(** The recording of a bug by the Producer. *)
Definition withBug (r : BugReport) (s : SimulationState) : SimulationState :=
  setBugReports (bugReports s ++ [r])
    (setRandomCalls (S (randomCalls s))
       (setBugs (bugs (gameState s) + 1) s)).

Definition inquisitorRunning (W : World) (t : task) : Prop :=
  exists todo acc s, t = snd (inquisitorLoop W todo acc s).

Definition producerPending (W : World) (t : task) : Prop :=
  exists p u q log, t = Await p u (producerResume W q log).

Definition marketingPending (t : task) : Prop :=
  exists p u, t = Await p u marketingResume.

(** The promises of a turn are those of the three agents, and the Producer
    is not suspended in a released game. *)
Definition agentsOK (W : World) (t : Turn) : Prop :=
  match inquisitorTask t with
  | Some ti => inquisitorRunning W ti
  | None => True
  end
  /\ (producerTask t = Resolved \/ producerTask t = Rejected
      \/ (producerPending W (producerTask t)
          /\ gameReleased (gameState (sim t)) = false))
  /\ (marketingTask t = Resolved \/ marketingPending (marketingTask t)).

(** The effect of one delivered answer on a turn. *)
Inductive delivered (W : World) (t : Turn) : Turn -> Prop :=
| d_none : delivered W t t
| d_inquisitor b ti' s1 :
    inquisitorRunning W ti' ->
    s1 = tick b (sim t) \/ (exists acc, s1 = inquisitorEnd acc (tick b (sim t))) ->
    delivered W t (mkTurn s1 (Some ti') (producerTask t) (marketingTask t))
| d_producer log s1 :
    gameReleased (gameState (sim t)) = false ->
    s1 = sim t \/ (exists r, s1 = withBug r (sim t)) ->
    delivered W t
      (mkTurn (producerEnd log s1) (inquisitorTask t) Resolved
         (marketingTask t))
| d_marketing a :
    marketingTask t <> Resolved ->
    delivered W t
      (mkTurn (marketingEnd (setMarketing a (sim t))) (inquisitorTask t)
         (producerTask t) Resolved).

(** [buildProgress] and [marketHype] are percentages. *)
Definition bounded (s : SimulationState) : Prop :=
  (buildProgress (gameState s) <= 100)%Q /\ (marketHype (gameState s) <= 100)%Q.

(** What holds between a state of the agent phase and a later one. *)
Definition advances (s s' : SimulationState) : Prop :=
  currentWeek (gameState s') = currentWeek (gameState s)
  /\ designCompleteness (gameState s') = designCompleteness (gameState s)
  /\ buildProgress (gameState s') = buildProgress (gameState s)
  /\ quantumCore s' = quantumCore s
  /\ commandQueue (gameState s') = commandQueue (gameState s)
  /\ isWaitingForAgents s' = isWaitingForAgents s
  /\ agentStatusText s' = agentStatusText s
  /\ bugs (gameState s) <= bugs (gameState s')
  /\ ((marketHype (gameState s) <= 100)%Q ->
      (marketHype (gameState s) <= marketHype (gameState s'))%Q
      /\ (marketHype (gameState s') <= 100)%Q)
  /\ (exists more, unansweredQuestions s' = unansweredQuestions s ++ more)
  /\ (gameReleased (gameState s) = true ->
      gameReleased (gameState s') = true
      /\ finalScore (gameState s') = finalScore (gameState s)
      /\ bugs (gameState s') = bugs (gameState s)
      /\ bugReports s' = bugReports s).

(** The score of a released game was computed from the
    [designCompleteness] of [st0], the bug count, and the [marketHype]
    either of [st0] or final. *)
Definition scoredFrom (st0 : SimulationState) (t : Turn) : Prop :=
  designCompleteness (gameState (sim t)) = designCompleteness (gameState st0)
  /\ (marketingTask t <> Resolved ->
      marketHype (gameState (sim t)) = marketHype (gameState st0))
  /\ (gameReleased (gameState (sim t)) = true ->
      exists hype,
        (hype = marketHype (gameState st0)
         \/ (hype = marketHype (gameState (sim t))
             /\ marketingTask t = Resolved))
        /\ finalScore (gameState (sim t))
           = scoreOf (designCompleteness (gameState st0)) hype
               (bugs (gameState (sim t)))).

(** A Producer that has finished has released a game whose build is
    complete. *)
Definition releasedWhenDue (t : Turn) : Prop :=
  producerTask t = Resolved ->
  (100 <= buildProgress (gameState (sim t)))%Q ->
  gameReleased (gameState (sim t)) = true.

(** The numeric and boolean fields of the game state. *)
Definition metrics (s : SimulationState)
  : Z * Z * Q * Q * Z * Q * Z * bool * bool * Q :=
  let g := gameState s in
  (currentWeek g, budget g, designCompleteness g, buildProgress g, bugs g,
   marketHype g, weeklySpend g, marketingActive g, gameReleased g,
   finalScore g).

(** What the presentation layer asks of the core. *)
Inductive request :=
| Advance (schedule : list (Agent * string))      (* advanceWeek() *)
| Submit (isSimRunning : bool) (command : string). (* submitCommand() *)

Definition serve (W : World) (st : SimulationState) (r : request)
  : SimulationState :=
  match r with
  | Advance schedule => stateAfter st (advanceWeek W schedule st)
  | Submit isSimRunning command => submitCommand isSimRunning command st
  end.

(** The states of a run. *)
Inductive reachable (W : World) : SimulationState -> Prop :=
| reach_init : reachable W initialState
| reach_serve st r : reachable W st -> reachable W (serve W st r).

(** ** Vocabulary of the further properties *)

(** Every character of [s] is in the class [f]. *)
Fixpoint allChars (f : ascii -> bool) (s : string) : bool :=
  match s with
  | EmptyString => true
  | String c t => f c && allChars f t
  end.

(** [s] starts with a character of the class [f]. *)
Definition headIn (f : ascii -> bool) (s : string) : bool :=
  match s with
  | EmptyString => false
  | String c _ => f c
  end.

(** The place of a quantum type in the sequence of keyword tests of
    [translatorTurn]. *)
Definition typeRank (t : QuantumType) : nat :=
  match t with
  | Genre => 0
  | MechanicPillar => 1
  | Setting => 2
  | Character => 3
  | Ability => 4
  | ArtStyle => 5
  | GameplayLoop => 6
  end.

(** A command of the form [/answer], white space, [uq-] and an id body of
    characters [[a-z0-9]], followed by something that does not continue the
    id. *)
Definition answerCommand (ws body post : string) : string :=
  ("/answer" ++ ws ++ "uq-" ++ body ++ post)%string.

(** *** The assignments of the source, one at a time *)

(** Every assignment to the shared state that the simulation core makes,
    with the value it assigns.  [steps] is a sequence of them. *)
Inductive prim : SimulationState -> SimulationState -> Prop :=
| p_activity s f : prim s (updGame (updActivity f) s)
| p_queue s q : prim s (setCommandQueue q s)
| p_waiting s b t : prim s (setWaitingState b t s)
| p_random s : prim s (setRandomCalls (S (randomCalls s)) s)
| p_quantum s q : prim s (setQuantumCore (quantumCore s ++ [q]) s)
| p_answer s qid :
    prim s
      (setUnansweredQuestions (answerFirst qid (unansweredQuestions s)) s)
| p_ask s more :
    prim s (setUnansweredQuestions (unansweredQuestions s ++ more) s)
| p_budget s :
    prim s
      (setBudget (budget (gameState s) - weeklySpend (gameState s)) s)
| p_progress s n :
    prim s
      (setBuildProgress
         (Qmin 100 (buildProgress (gameState s) + progressFor n)) s)
| p_bug s r :
    prim s
      (setBugReports (bugReports s ++ [r])
         (setBugs (bugs (gameState s) + 1) s))
| p_release s :
    gameReleased (gameState s) = false ->
    prim s
      (setFinalScore
         (scoreOf (designCompleteness (gameState s))
            (marketHype (gameState s)) (bugs (gameState s)))
         (setGameReleased true s))
| p_activate s : prim s (setMarketingActive true s)
| p_hype s :
    prim s
      (setWeeklySpend (weeklySpend (gameState s) + 2000)
         (setMarketHype
            (Qmin 100
               (marketHype (gameState s)
                + inject_Z (lengthZ (quantumCore s)) / 2)) s))
| p_week s : prim s (setCurrentWeek (currentWeek (gameState s) + 1) s)
| p_design s :
    prim s
      (setDesignCompleteness
         (designCompletenessOf (lengthZ (quantumCore s))
            (lengthZ (openQuestionsOf s))) s).

Definition steps : SimulationState -> SimulationState -> Prop :=
  clos_refl_trans SimulationState prim.

(** A question later in the run: the same question, and once Answered
    always Answered. *)
Definition aged (q q' : Question) : Prop :=
  id q' = id q /\ text q' = text q
  /\ sourceQuantumId q' = sourceQuantumId q
  /\ (qstatus q = Answered -> qstatus q' = Answered).

(** What holds between a state and any later state of the run. *)
Definition grows (s s' : SimulationState) : Prop :=
  (exists added, quantumCore s' = quantumCore s ++ added)
  /\ (exists more, bugReports s' = bugReports s ++ more)
  /\ (exists old more,
        unansweredQuestions s' = old ++ more
        /\ Forall2 aged (unansweredQuestions s) old)
  /\ (marketingActive (gameState s) = true ->
      marketingActive (gameState s') = true)
  /\ (gameReleased (gameState s) = true ->
      gameReleased (gameState s') = true
      /\ finalScore (gameState s') = finalScore (gameState s))
  /\ weeklySpend (gameState s) <= weeklySpend (gameState s')
  /\ currentWeek (gameState s) <= currentWeek (gameState s').

(** The ranges and the bookkeeping that every state of a run respects. *)
Definition sane (s : SimulationState) : Prop :=
  (0 <= buildProgress (gameState s) <= 100)%Q
  /\ (0 <= marketHype (gameState s) <= 100)%Q
  /\ (0 <= designCompleteness (gameState s) <= 100)%Q
  /\ (0 <= finalScore (gameState s) <= 100)%Q
  /\ bugs (gameState s) = lengthZ (bugReports s)
  /\ 5000 <= weeklySpend (gameState s)
  /\ 1 <= currentWeek (gameState s).

(** *** The exact effect of a turn *)

(** The command step left no quantum in the core: the Producer stays
    idle. *)
Definition coreEmpty (s : SimulationState) : bool :=
  (List.length (quantumCore s) =? 0)%nat.

(** Marketing's update of a turn started in [st0], seen from the turn
    [t]: applied once Marketing has finished, not applied before. *)
Definition hyped (st0 : SimulationState) (t : Turn) : Prop :=
  (marketingTask t = Resolved
   /\ marketHype (gameState (sim t))
      = Qmin 100
          (marketHype (gameState st0)
           + inject_Z (lengthZ (quantumCore (sim t))) / 2)
   /\ weeklySpend (gameState (sim t)) = weeklySpend (gameState st0) + 2000)
  \/ (marketingTask t <> Resolved
      /\ marketHype (gameState (sim t)) = marketHype (gameState st0)
      /\ weeklySpend (gameState (sim t)) = weeklySpend (gameState st0)).

(** Marketing stayed passive in the turn started in [st0]. *)
Definition passive (st0 : SimulationState) (t : Turn) : Prop :=
  marketingTask t = Resolved
  /\ marketHype (gameState (sim t)) = marketHype (gameState st0)
  /\ weeklySpend (gameState (sim t)) = weeklySpend (gameState st0).

Definition marketed (ran : bool) (st0 : SimulationState) (t : Turn) : Prop :=
  if ran then hyped st0 t else passive st0 t.

(** What the answers delivered in the agent phase leave alone. *)
Definition steady (s s' : SimulationState) : Prop :=
  budget (gameState s') = budget (gameState s)
  /\ marketingActive (gameState s') = marketingActive (gameState s).

(** The handler of the submit button and of the Enter key, installed by
    [initialize]: [submitCommand(); if (!isSimRunning) advanceWeek();]. *)
Definition onSubmit (W : World) (isSimRunning : bool) (command : string)
  (schedule : list (Agent * string)) (st : SimulationState)
  : SimulationState :=
  let st1 := submitCommand isSimRunning command st in
  if negb isSimRunning then stateAfter st1 (advanceWeek W schedule st1)
  else st1.

(** Every quantum of the core is dated with a week before the current
    one. *)
Definition dated (s : SimulationState) : Prop :=
  Forall (fun q => exists k,
            createdAt q = ("Week " ++ ofZ k)%string
            /\ k < currentWeek (gameState s))
    (quantumCore s).

(** The Inquisitor of a turn has nothing more to ask. *)
Definition inquisitorDone (t : Turn) : Prop :=
  inquisitorTask t = None \/ inquisitorTask t = Some Resolved.

(** ** Concrete worlds and states used by the examples *)

Module Examples.

(** A random tape and a base-36 rendering to run the model with. *)
Definition W0 : World :=
  mkWorld (fun k => (1 # Pos.of_nat (k + 2))%Q)
          (fun q => ("0." ++ ofZ (Zpos (Qden q)) ++ "k3x9a0b1c2d")%string).

Definition withQueue (cmds : list string) : SimulationState :=
  setCommandQueue cmds initialState.

Definition aQuestion (qid : string) (s : QuestionStatus) : Question :=
  mkQuestion qid "Which stealth mechanics are planned?" s "q-2k3x9a0b1".

(** An answer command that names no known question but mentions a
    keyword. *)
Definition strayAnswer : SimulationState :=
  withQueue ["/answer uq-abc the hero relies on stealth"].

(** An answer command for a known question that mentions no keyword. *)
Definition plainAnswer : SimulationState :=
  setUnansweredQuestions [aQuestion "uq-abc" Open]
    (withQueue ["/answer uq-abc yes"]).

(** The same command when the question was answered before. *)
Definition repeatedAnswer : SimulationState :=
  setUnansweredQuestions [aQuestion "uq-abc" Answered]
    (withQueue ["/answer uq-abc yes"]).

Definition aQuantum (src : string) (ty : QuantumType) (nm : string)
  : Quantum :=
  mkQuantum ty (named nm) "q-7k3x9a0b1" 1 "Active" "Week 1" src.

(** A studio with one design fact and no question. *)
Definition studio : SimulationState :=
  setQuantumCore [aQuantum "/declare stealth" MechanicPillar "Stealth"]
    (withQueue []).

(** The same studio with seven open questions. *)
Definition crowded : SimulationState :=
  setUnansweredQuestions
    (map (fun i => aQuestion i Open)
       ["uq-a1"; "uq-a2"; "uq-a3"; "uq-a4"; "uq-a5"; "uq-a6"; "uq-a7"])
    studio.

(** Week 1 with two fresh facts, one declared and one that came with an
    answer. *)
(** The answer to the Inquisitor arrives after Marketing has spoken. *)
Definition stealthReply : list Answer :=
  [mkAnswer "What tools does stealth use?"
     (setMarketing (Text "Planning..."))].

Definition twoFacts : SimulationState :=
  setQuantumCore
    [aQuantum "/declare stealth" MechanicPillar "Stealth";
     aQuantum "/answer uq-abc cyberpunk" Setting "Cyberpunk Fantasy"]
    (withQueue []).

(** The first week with the text generation service off line. *)
Definition offline : list (Agent * string) :=
  [(Inquisitor, "Fallback: The agent is offline.");
   (Inquisitor, "Fallback: The agent is offline.");
   (Inquisitor, "Fallback: The agent is offline.")].

Definition firstTurn : SimulationState :=
  serve W0 initialState (Advance offline).

Fixpoint idleTurns (n : nat) (st : SimulationState) : SimulationState :=
  match n with
  | O => st
  | S m => idleTurns m (serve W0 st (Advance []))
  end.

(** Week 20: the build stands at 95 and a declaration is queued. *)
Definition week20 : SimulationState :=
  serve W0 (idleTurns 18 firstTurn)
    (Submit false "/declare the ghostwire ability").

(** The service is back: the Inquisitor's request is answered. *)
Definition lateQuestion : list (Agent * string) :=
  [(Inquisitor, "What powers the ghostwire ability?")].

(** After the first week an answer that mentions a keyword is typed into
    the stopped simulation. *)
Definition answering : SimulationState :=
  serve W0 firstTurn (Submit false "/answer uq-abc the hero relies on stealth").

(** The state the release of week 20 leaves. *)
Definition released : SimulationState :=
  serve W0 week20 (Advance lateQuestion).


(** The studio with three open questions, and a tape whose draws are
    0.44999999999999996, the double [3 * 0.15]. *)
Definition threeOpen : SimulationState :=
  setUnansweredQuestions
    (map (fun i => aQuestion i Open) ["uq-a1"; "uq-a2"; "uq-a3"])
    studio.

Definition atThreshold : World :=
  mkWorld (fun _ => (2026619832316723 # 4503599627370496)%Q) (base36 W0).

(** A tape with the draw 0 followed by 0.5714285714285714. *)
Definition fourSevenths : World :=
  mkWorld (fun k => match k with
                    | O => 0%Q
                    | _ => (2573485501354569 # 4503599627370496)%Q
                    end)
          (base36 W0).


End Examples.

(** * Properties *)

(** ** Translator and command step *)

Section CommandStep.

Variable W : World.

Lemma pushQuanta_core input l : forall st,
  exists added,
    quantumCore (pushQuanta W input l st) = quantumCore st ++ added
    /\ List.length added = List.length l
    /\ Forall (fun q => declarationSource q = input
                        /\ createdAt q = weekString st) added.
Proof.
  induction l as [|[ty d] l IH]; intros st; cbn [pushQuanta].
  - exists []. rewrite app_nil_r. auto.
  - cbn [generateId mathRandom].
    match goal with |- context [pushQuanta W input l ?s] =>
      destruct (IH s) as (added & Hc & Hl & Hf) end.
    eexists (_ :: added). rewrite Hc. cbn [quantumCore setQuantumCore setRandomCalls].
    rewrite <- app_assoc. cbn [app]. split; [reflexivity|].
    split; [cbn; congruence|].
    constructor; [cbn; auto|exact Hf].
Qed.

Lemma pushQuanta_frame input l : forall st,
  gameState (pushQuanta W input l st) = gameState st
  /\ unansweredQuestions (pushQuanta W input l st) = unansweredQuestions st
  /\ bugReports (pushQuanta W input l st) = bugReports st
  /\ isWaitingForAgents (pushQuanta W input l st) = isWaitingForAgents st
  /\ agentStatusText (pushQuanta W input l st) = agentStatusText st.
Proof.
  induction l as [|[ty d] l IH]; intros st; cbn [pushQuanta]; auto.
  cbn [generateId mathRandom].
  match goal with |- context [pushQuanta W input l ?s] =>
    destruct (IH s) as (H1 & H2 & H3 & H4 & H5) end.
  rewrite H1, H2, H3, H4, H5. cbn. auto.
Qed.

(** The Translator reports creation exactly when the quantum core grew. *)
Lemma translatorTurn_created input st :
  fst (translatorTurn W input st) = true <->
  (List.length (quantumCore st)
   < List.length (quantumCore (snd (translatorTurn W input st))))%nat.
Proof.
  unfold translatorTurn.
  destruct (0 <? List.length (newQuantaOf input))%nat eqn:E; cbn [fst snd].
  - apply Nat.ltb_lt in E.
    destruct (pushQuanta_core input (newQuantaOf input)
                (setTranslator (Parsing (substring 0 30 input)) st))
      as (added & Hc & Hl & _).
    cbn [quantumCore setTranslator updGame] in *. rewrite Hc, length_app.
    split; [intros _; lia|reflexivity].
  - cbn. split; [discriminate|lia].
Qed.

Lemma translatorTurn_grows input st :
  exists added,
    quantumCore (snd (translatorTurn W input st)) = quantumCore st ++ added
    /\ List.length added = List.length (newQuantaOf input)
    /\ Forall (fun q => declarationSource q = input
                        /\ createdAt q = weekString st) added.
Proof.
  unfold translatorTurn.
  destruct (0 <? List.length (newQuantaOf input))%nat eqn:E; cbn [fst snd].
  - destruct (pushQuanta_core input (newQuantaOf input)
                (setTranslator (Parsing (substring 0 30 input)) st))
      as (added & Hc & Hl & Hf).
    exists added. cbn [quantumCore setTranslator updGame] in *. auto.
  - apply Nat.ltb_ge in E. exists []. rewrite app_nil_r.
    split; [reflexivity|]. split; [|constructor].
    change (List.length (@nil Quantum)) with 0%nat. lia.
Qed.

(** The Translator does not read or write the question ledger. *)
Lemma pushQuanta_ledger input l : forall qs st,
  pushQuanta W input l (setUnansweredQuestions qs st)
  = setUnansweredQuestions qs (pushQuanta W input l st).
Proof.
  induction l as [|[ty d] l IH]; intros qs st; cbn [pushQuanta]; auto.
  cbn [generateId mathRandom]. rewrite <- IH. reflexivity.
Qed.

Lemma translatorTurn_ledger input qs st :
  snd (translatorTurn W input (setUnansweredQuestions qs st))
  = setUnansweredQuestions qs (snd (translatorTurn W input st)).
Proof.
  unfold translatorTurn.
  destruct (0 <? List.length (newQuantaOf input))%nat; cbn [fst snd].
  - change (setTranslator (Parsing (substring 0 30 input))
              (setUnansweredQuestions qs st))
      with (setUnansweredQuestions qs
              (setTranslator (Parsing (substring 0 30 input)) st)).
    rewrite pushQuanta_ledger. reflexivity.
  - reflexivity.
Qed.

Lemma translatorTurn_questions input st :
  unansweredQuestions (snd (translatorTurn W input st))
  = unansweredQuestions st.
Proof.
  unfold translatorTurn.
  destruct (0 <? List.length (newQuantaOf input))%nat; cbn [fst snd]; auto.
  cbn [setTranslator updGame unansweredQuestions].
  exact (proj1 (proj2 (pushQuanta_frame input (newQuantaOf input)
                         (setTranslator (Parsing (substring 0 30 input)) st)))).
Qed.

End CommandStep.

(** ** Answer resolution *)

Section AnswerResolution.

Variable W : World.

Lemma find_hasId_split qid l q :
  find (hasId qid) l = Some q ->
  exists l1 l2,
    l = l1 ++ q :: l2 /\ id q = qid
    /\ (forall q', In q' l1 -> id q' <> qid)
    /\ answerFirst qid l
       = l1 ++ mkQuestion (id q) (text q) Answered (sourceQuantumId q) :: l2.
Proof.
  induction l as [|x l IH]; cbn [find answerFirst]; [discriminate|].
  destruct (hasId qid x) eqn:E.
  - intros [= ->]. exists [], l. cbn [app].
    apply String.eqb_eq in E. repeat split; auto; intros q' [].
  - intros H. destruct (IH H) as (l1 & l2 & -> & Hid & Hn & Ha).
    exists (x :: l1), l2. cbn [app]. rewrite Ha. repeat split; auto.
    intros q' [<-|Hin]; [|auto].
    apply String.eqb_neq in E. exact E.
Qed.

Lemma find_hasId_first qid l1 q l2 :
  id q = qid -> (forall q', In q' l1 -> id q' <> qid) ->
  find (hasId qid) (l1 ++ q :: l2) = Some q.
Proof.
  intros Hq. induction l1 as [|x l1 IH]; intros Hn; cbn [app find].
  - unfold hasId. rewrite Hq, String.eqb_refl. reflexivity.
  - assert (E : hasId qid x = false).
    { apply String.eqb_neq. apply Hn. left. reflexivity. }
    rewrite E. apply IH. intros q' Hin. apply Hn. right. exact Hin.
Qed.

Lemma find_hasId_absent qid l :
  (forall q, In q l -> id q <> qid) -> find (hasId qid) l = None.
Proof.
  induction l as [|x l IH]; intros Hn; cbn [find]; [reflexivity|].
  assert (E : hasId qid x = false).
  { apply String.eqb_neq. apply Hn. left. reflexivity. }
  rewrite E. apply IH. intros q Hin. apply Hn. right. exact Hin.
Qed.

Lemma answered_again (q : Question) :
  qstatus q = Answered ->
  mkQuestion (id q) (text q) Answered (sourceQuantumId q) = q.
Proof. destruct q; cbn; intros ->; reflexivity. Qed.

(** Success is reported exactly when an id is extracted and the ledger
    holds a question with that id. *)
Lemma resolveAnswer_reports input st :
  fst (resolveAnswer W input st) = true <->
  exists qid q,
    matchAnswer input = Some qid
    /\ In q (unansweredQuestions st) /\ id q = qid.
Proof.
  unfold resolveAnswer.
  destruct (matchAnswer input) as [qid|] eqn:M.
  - destruct (find (hasId qid) (unansweredQuestions st)) as [q|] eqn:F;
      cbn [fst].
    + split; [intros _|reflexivity].
      exists qid, q. apply find_some in F. destruct F as [Hin E].
      apply String.eqb_eq in E. auto.
    + split; [discriminate|].
      intros (qid' & q & [= <-] & Hin & Hid).
      apply (find_none _ _ F) in Hin. unfold hasId in Hin.
      rewrite Hid, String.eqb_refl in Hin. discriminate.
  - cbn [fst]. split; [discriminate|].
    intros (qid' & q & H & _). discriminate.
Qed.

(** Resubmission: a second answer for the same id leaves the ledger as
    the first one left it. *)
Lemma answerFirst_idempotent qid l :
  answerFirst qid (answerFirst qid l) = answerFirst qid l.
Proof.
  induction l as [|x l IH]; cbn [answerFirst]; [reflexivity|].
  destruct (hasId qid x) eqn:E; cbn [answerFirst].
  - unfold hasId in *. cbn [id]. rewrite E. reflexivity.
  - rewrite E, IH. reflexivity.
Qed.

Lemma resolveAnswer_ledger input st :
  unansweredQuestions (snd (resolveAnswer W input st))
  = match matchAnswer input with
    | Some qid => answerFirst qid (unansweredQuestions st)
    | None => unansweredQuestions st
    end.
Proof.
  unfold resolveAnswer.
  destruct (matchAnswer input) as [qid|] eqn:M.
  - destruct (find (hasId qid) (unansweredQuestions st)) as [q|] eqn:F;
      cbn [fst snd].
    + cbn [setTranslator updGame unansweredQuestions].
      rewrite translatorTurn_questions. reflexivity.
    + rewrite translatorTurn_questions.
      clear M. induction (unansweredQuestions st) as [|x l IH];
        cbn [answerFirst find] in *; [reflexivity|].
      destruct (hasId qid x); [discriminate|]. rewrite <- IH; auto.
  - cbn [snd]. apply translatorTurn_questions.
Qed.

Lemma resolveAnswer_twice input1 input2 qid st :
  matchAnswer input1 = Some qid -> matchAnswer input2 = Some qid ->
  let st1 := snd (resolveAnswer W input1 st) in
  unansweredQuestions (snd (resolveAnswer W input2 st1))
  = unansweredQuestions st1.
Proof.
  intros M1 M2 st1. subst st1.
  rewrite !resolveAnswer_ledger, M1, M2. apply answerFirst_idempotent.
Qed.

(** C5, as amended.  Answer resolution looks the extracted id up without
    regard to the status: when the ledger holds a question with that id
    (Open or already Answered) the first such question has status Answered
    afterwards, the Translator is run on the whole command, and success is
    reported; when no id is extracted or no question has that id, the
    command is treated by the Translator alone and non-resolution is
    reported. *)
Theorem C5_answer_resolution input st :
  (forall qid l1 q l2,
      matchAnswer input = Some qid ->
      unansweredQuestions st = l1 ++ q :: l2 ->
      id q = qid ->
      (forall q', In q' l1 -> id q' <> qid) ->
      let flipped :=
        l1 ++ mkQuestion (id q) (text q) Answered (sourceQuantumId q) :: l2 in
      resolveAnswer W input st
      = (true,
         setTranslator (AnsweredQuestion qid)
           (setUnansweredQuestions flipped
              (snd (translatorTurn W input st)))))
  /\ (matchAnswer input = None
      \/ (exists qid, matchAnswer input = Some qid
            /\ forall q, In q (unansweredQuestions st) -> id q <> qid) ->
      resolveAnswer W input st = (false, snd (translatorTurn W input st))).
Proof.
  split.
  - intros qid l1 q l2 M L Hq Hn flipped. unfold resolveAnswer.
    rewrite M, L, (find_hasId_first qid l1 q l2 Hq Hn).
    destruct (find_hasId_split qid (l1 ++ q :: l2) q
                (find_hasId_first qid l1 q l2 Hq Hn))
      as (l1' & l2' & _ & _ & _ & Ha).
    rewrite translatorTurn_ledger.
    assert (Hf : answerFirst qid (l1 ++ q :: l2) = flipped).
    { clear -Hq Hn. subst flipped.
      induction l1 as [|x l1 IH]; cbn [app answerFirst].
      - unfold hasId. rewrite Hq, String.eqb_refl. reflexivity.
      - assert (E : hasId qid x = false).
        { apply String.eqb_neq. apply Hn. left. reflexivity. }
        rewrite E, IH; auto. intros q' Hin. apply Hn. right. exact Hin. }
    rewrite Hf.
    replace (setUnansweredQuestions (l1 ++ q :: l2) st) with st; [reflexivity|].
    rewrite <- L. destruct st; reflexivity.
  - intros [M|(qid & M & Hn)]; unfold resolveAnswer; rewrite M;
      [reflexivity|].
    rewrite (find_hasId_absent qid _ Hn). reflexivity.
Qed.

(** C6.  When the (first) question carrying the extracted id is already
    Answered, answer resolution leaves the question ledger as it was, so
    the question stays Answered and no other question is touched, while
    the quantum core and the random tape move exactly as the Translator
    moves them on the new command. *)
Theorem C6_reanswer_keeps_status input qid q st :
  matchAnswer input = Some qid ->
  find (hasId qid) (unansweredQuestions st) = Some q ->
  qstatus q = Answered ->
  let st' := snd (resolveAnswer W input st) in
  unansweredQuestions st' = unansweredQuestions st
  /\ openQuestionsOf st' = openQuestionsOf st
  /\ quantumCore st' = quantumCore (snd (translatorTurn W input st))
  /\ randomCalls st' = randomCalls (snd (translatorTurn W input st)).
Proof.
  intros M F A st'.
  assert (L : unansweredQuestions st' = unansweredQuestions st).
  { subst st'. rewrite resolveAnswer_ledger, M.
    destruct (find_hasId_split qid _ q F) as (l1 & l2 & L & _ & _ & Ha).
    rewrite Ha, L, (answered_again q A). reflexivity. }
  split; [exact L|]. split; [unfold openQuestionsOf; rewrite L; reflexivity|].
  subst st'. unfold resolveAnswer. rewrite M, F. cbn [snd].
  rewrite translatorTurn_ledger. split; reflexivity.
Qed.

End AnswerResolution.

(** ** The command step and the launch of the Inquisitor *)

Section Launch.

Variable W : World.

Lemma slash_command_not_blank (input p : string) :
  startsWith input (String "/" p) = true ->
  negb (isEmpty input) && trimNonEmpty input = true.
Proof.
  unfold startsWith. destruct input as [|c t]; cbn [String.prefix];
    [discriminate|].
  destruct (ascii_dec "/" c) as [<-|]; [|discriminate].
  intros _. reflexivity.
Qed.

Lemma launch_inquisitorTask st :
  inquisitorTask (launch W st)
  = snd (launchInquisitor W (fst (commandStep W st))
           (setWaitingState true "Agents are thinking..."
              (snd (commandStep W st)))).
Proof.
  unfold launch. destruct (commandStep W st) as [processed st1].
  cbn [fst snd]. destruct (launchInquisitor W processed _) as [st3 ti].
  destruct (producerTurn W st3) as [st4 tp].
  destruct (marketingTurn (activateMarketing st4)) as [st6 tm].
  reflexivity.
Qed.

Lemma inquisitorLaunched_processed st :
  inquisitorLaunched W st = fst (commandStep W st).
Proof.
  unfold inquisitorLaunched. rewrite launch_inquisitorTask.
  unfold launchInquisitor. destruct (fst (commandStep W st)).
  - destruct (inquisitorTurn W _). reflexivity.
  - reflexivity.
Qed.

(** C1, as amended.  The Inquisitor is launched exactly when the command
    step returns true, and the command step returns true exactly when the
    shifted command is a declaration from which the Translator created at
    least one quantum, or an answer command whose extracted question id is
    carried by a question of the ledger (whether or not that command
    created quanta). *)
Theorem C1_inquisitor_launch st :
  inquisitorLaunched W st = fst (commandStep W st)
  /\ (fst (commandStep W st) = true <->
      exists input rest,
        commandQueue (gameState st) = input :: rest
        /\ ((startsWith input "/declare" = true
             /\ quantaCreated W st = true)
            \/ (startsWith input "/declare" = false
                /\ startsWith input "/answer" = true
                /\ exists qid q,
                     matchAnswer input = Some qid
                     /\ In q (unansweredQuestions st) /\ id q = qid))).
Proof.
  split; [apply inquisitorLaunched_processed|].
  unfold quantaCreated, commandStep.
  destruct (commandQueue (gameState st)) as [|input rest] eqn:Q.
  - cbn [fst]. split; [discriminate|]. intros (i & r & H & _). discriminate.
  - destruct (startsWith input "/declare") eqn:D.
    + rewrite (slash_command_not_blank input _ D).
      rewrite translatorTurn_created, <- Nat.ltb_lt.
      split.
      * intros H. exists input, rest. split; [reflexivity|]. left.
        split; [exact D|exact H].
      * intros (i & r & [= <- <-] & [[_ H]|[H _]]); [exact H|congruence].
    + destruct (startsWith input "/answer") eqn:A.
      * rewrite (slash_command_not_blank input _ A).
        rewrite resolveAnswer_reports.
        cbn [unansweredQuestions setCommandQueue updGame].
        split.
        -- intros H. exists input, rest. split; [reflexivity|]. right. auto.
        -- intros (i & r & [= <- <-] & [[H _]|(_ & _ & H)]);
             [congruence|exact H].
      * assert (F : fst (if negb (isEmpty input) && trimNonEmpty input
                         then (false, setCommandQueue rest st)
                         else (false, setCommandQueue rest st)) = false)
          by (destruct (negb (isEmpty input) && trimNonEmpty input);
              reflexivity).
        rewrite F. split; [discriminate|].
        intros (i & r & [= <- <-] & [[H _]|(_ & H & _)]); congruence.
Qed.

End Launch.

(** C1 as stated fails in both directions.  An answer command that names
    no known question but contains a keyword creates a quantum, yet the
    command step returns false and the Inquisitor is not launched. *)
Lemma C1_counterexample :
  commandQueue (gameState Examples.strayAnswer)
  = ["/answer uq-abc the hero relies on stealth"]
  /\ quantaCreated Examples.W0 Examples.strayAnswer = true
  /\ fst (commandStep Examples.W0 Examples.strayAnswer) = false
  /\ inquisitorLaunched Examples.W0 Examples.strayAnswer = false.
Proof. vm_compute. auto. Qed.

(** Conversely an answer command for a known question that contains no
    keyword creates nothing, yet the Inquisitor is launched. *)
Lemma answer_without_quanta_launches :
  quantaCreated Examples.W0 Examples.plainAnswer = false
  /\ fst (commandStep Examples.W0 Examples.plainAnswer) = true
  /\ inquisitorLaunched Examples.W0 Examples.plainAnswer = true.
Proof. vm_compute. auto. Qed.

Lemma C5_answer_resolution_witness :
  resolveAnswer Examples.W0 "/answer uq-abc yes" Examples.plainAnswer
  = (true,
     setTranslator (AnsweredQuestion "uq-abc")
       (setUnansweredQuestions [Examples.aQuestion "uq-abc" Answered]
          (snd (translatorTurn Examples.W0 "/answer uq-abc yes"
                  Examples.plainAnswer))))
  /\ resolveAnswer Examples.W0 "/answer uq-zzz yes" Examples.plainAnswer
     = (false,
        snd (translatorTurn Examples.W0 "/answer uq-zzz yes"
               Examples.plainAnswer)).
Proof.
  split.
  - apply (proj1 (C5_answer_resolution Examples.W0 "/answer uq-abc yes"
                    Examples.plainAnswer)
             "uq-abc" [] (Examples.aQuestion "uq-abc" Open) []);
      try reflexivity.
    intros q' [].
  - apply (proj2 (C5_answer_resolution Examples.W0 "/answer uq-zzz yes"
                    Examples.plainAnswer)).
    right. exists "uq-zzz". split; [reflexivity|].
    intros q [<-|[]]. cbn. discriminate.
Defined.

(** C5 as stated fails for a question that is already Answered: the
    command does not degrade to the plain Translator, success is reported
    again. *)
Lemma C5_counterexample :
  matchAnswer "/answer uq-abc yes" = Some "uq-abc"
  /\ unansweredQuestions Examples.repeatedAnswer
     = [Examples.aQuestion "uq-abc" Answered]
  /\ fst (resolveAnswer Examples.W0 "/answer uq-abc yes"
            Examples.repeatedAnswer) = true
  /\ translator (lastAgentActivity (gameState
        (snd (resolveAnswer Examples.W0 "/answer uq-abc yes"
                Examples.repeatedAnswer))))
     = AnsweredQuestion "uq-abc".
Proof. vm_compute. auto. Qed.

Lemma C6_reanswer_keeps_status_witness :
  let st' := snd (resolveAnswer Examples.W0 "/answer uq-abc more stealth"
                    Examples.repeatedAnswer) in
  unansweredQuestions st' = unansweredQuestions Examples.repeatedAnswer
  /\ openQuestionsOf st' = openQuestionsOf Examples.repeatedAnswer
  /\ quantumCore st'
     = quantumCore (snd (translatorTurn Examples.W0
                           "/answer uq-abc more stealth"
                           Examples.repeatedAnswer))
  /\ randomCalls st'
     = randomCalls (snd (translatorTurn Examples.W0
                           "/answer uq-abc more stealth"
                           Examples.repeatedAnswer)).
Proof.
  apply (C6_reanswer_keeps_status Examples.W0 "/answer uq-abc more stealth"
           "uq-abc" (Examples.aQuestion "uq-abc" Answered)
           Examples.repeatedAnswer); reflexivity.
Defined.

(** ** Products of doubles *)

Section Doubles.

Import Double.

Lemma ilog2_le x : (0 < x)%Q -> (2 ^ ilog2 x <= x)%Q.
Proof.
  intros Hx. unfold ilog2.
  set (a := Qnum x). set (b := Zpos (Qden x)).
  destruct (Qle_bool (2 ^ (Z.log2 a - Z.log2 b)) x) eqn:E.
  - apply Qle_bool_iff. exact E.
  - assert (Ha : 0 < a).
    { unfold Qlt in Hx. cbn in Hx. subst a. lia. }
    assert (Hb : 0 < b) by (subst b; lia).
    destruct (Z.log2_spec a Ha) as [La _].
    destruct (Z.log2_spec b Hb) as [_ Lb].
    pose proof (Z.log2_nonneg a) as Na. pose proof (Z.log2_nonneg b) as Nb.
    replace (Z.log2 a - Z.log2 b - 1)
      with (Z.log2 a - Z.succ (Z.log2 b)) by lia.
    rewrite Qpower_minus by discriminate.
    rewrite <- (Zpower_Qpower 2 (Z.log2 a)) by lia.
    rewrite <- (Zpower_Qpower 2 (Z.succ (Z.log2 b))) by lia.
    set (A := 2 ^ Z.log2 a) in *. set (B := 2 ^ Z.succ (Z.log2 b)) in *.
    assert (HB : (0 < inject_Z B)%Q).
    { change 0%Q with (inject_Z 0). rewrite <- Zlt_Qlt. lia. }
    apply Qle_shift_div_r; [exact HB|].
    assert (Ex : (x * inject_Z b == inject_Z a)%Q).
    { subst a b. unfold Qeq, Qmult, inject_Z. cbn. lia. }
    apply Qle_trans with (inject_Z a); [rewrite <- Zle_Qle; lia|].
    rewrite <- Ex. apply Qmult_le_l; [exact Hx|]. rewrite <- Zle_Qle. lia.
Qed.

Lemma ilog2_lt x : (0 < x)%Q -> (x < 2 ^ (ilog2 x + 1))%Q.
Proof.
  intros Hx. unfold ilog2.
  set (a := Qnum x). set (b := Zpos (Qden x)).
  destruct (Qle_bool (2 ^ (Z.log2 a - Z.log2 b)) x) eqn:E.
  - assert (Ha : 0 < a).
    { unfold Qlt in Hx. cbn in Hx. subst a. lia. }
    assert (Hb : 0 < b) by (subst b; lia).
    destruct (Z.log2_spec a Ha) as [_ La].
    destruct (Z.log2_spec b Hb) as [Lb _].
    pose proof (Z.log2_nonneg a) as Na. pose proof (Z.log2_nonneg b) as Nb.
    replace (Z.log2 a - Z.log2 b + 1)
      with (Z.succ (Z.log2 a) - Z.log2 b) by lia.
    rewrite Qpower_minus by discriminate.
    rewrite <- (Zpower_Qpower 2 (Z.succ (Z.log2 a))) by lia.
    rewrite <- (Zpower_Qpower 2 (Z.log2 b)) by lia.
    set (A := 2 ^ Z.succ (Z.log2 a)) in *. set (B := 2 ^ Z.log2 b) in *.
    assert (HB : (0 < inject_Z B)%Q).
    { change 0%Q with (inject_Z 0). rewrite <- Zlt_Qlt. lia. }
    apply Qlt_shift_div_l; [exact HB|].
    assert (Ex : (x * inject_Z b == inject_Z a)%Q).
    { subst a b. unfold Qeq, Qmult, inject_Z. cbn. lia. }
    apply Qle_lt_trans with (inject_Z a); [|rewrite <- Zlt_Qlt; lia].
    rewrite <- Ex. apply Qmult_le_l; [exact Hx|]. rewrite <- Zle_Qle. lia.
  - replace (Z.log2 a - Z.log2 b - 1 + 1) with (Z.log2 a - Z.log2 b) by lia.
    apply Qnot_le_lt. intros H. apply Qle_bool_iff in H. congruence.
Qed.

Lemma nearestEven_near y :
  (y - (1 # 2) <= inject_Z (nearestEven y) <= y + (1 # 2))%Q.
Proof.
  unfold nearestEven.
  pose proof (Qfloor_le y) as L. pose proof (Qlt_floor y) as U.
  rewrite inject_Z_plus in U. change (inject_Z 1) with 1%Q in U.
  destruct (Qcompare_spec (y - inject_Z (Qfloor y)) (1 # 2)) as [E|E|E].
  - destruct (Z.even (Qfloor y));
      [|rewrite inject_Z_plus; change (inject_Z 1) with 1%Q]; lra.
  - lra.
  - rewrite inject_Z_plus. change (inject_Z 1) with 1%Q. lra.
Qed.

(** The error of rounding: at most [2^-53] of the number, or half the
    least positive double. *)
Lemma round_near x :
  (0 <= x)%Q ->
  (x - (x * eps + tiny) <= round x <= x + (x * eps + tiny))%Q.
Proof.
  intros Hx. unfold round.
  assert (T : (0 < tiny)%Q) by reflexivity.
  destruct (Qcompare_spec x 0) as [Z0|Z0|Hp].
  - unfold eps. lra.
  - lra.
  - unfold nearest. set (e := Z.max (ilog2 x - 52) (-1074)).
    assert (P : (0 < 2 ^ e)%Q) by (apply Qpower_0_lt; reflexivity).
    pose proof (nearestEven_near (x / 2 ^ e)) as [N1 N2].
    set (m := inject_Z (nearestEven (x / 2 ^ e))) in *.
    assert (Hh : ((1 # 2) * 2 ^ e <= x * eps + tiny)%Q).
    { destruct (Z.max_spec (ilog2 x - 52) (-1074)) as [[_ Hm]|[_ Hm]];
        fold e in Hm; rewrite Hm.
      - change ((1 # 2) * 2 ^ (-1074))%Q with tiny.
        assert (0 <= x * eps)%Q by (unfold eps; lra). lra.
      - rewrite Qpower_minus by discriminate.
        pose proof (ilog2_le x Hp) as L.
        assert (((1 # 2) * (2 ^ ilog2 x / 2 ^ 52)
                 == 2 ^ ilog2 x * eps)%Q) as ->.
        { unfold eps. field. }
        unfold eps in *. lra. }
    assert (M1 : ((x / 2 ^ e - (1 # 2)) * 2 ^ e <= m * 2 ^ e)%Q)
      by (apply Qmult_le_compat_r; lra).
    assert (M2 : (m * 2 ^ e <= (x / 2 ^ e + (1 # 2)) * 2 ^ e)%Q)
      by (apply Qmult_le_compat_r; lra).
    split.
    + eapply Qle_trans; [|exact M1].
      setoid_replace ((x / 2 ^ e - (1 # 2)) * 2 ^ e)%Q
        with (x - (1 # 2) * 2 ^ e)%Q by (field; lra). lra.
    + eapply Qle_trans; [exact M2|].
      setoid_replace ((x / 2 ^ e + (1 # 2)) * 2 ^ e)%Q
        with (x + (1 # 2) * 2 ^ e)%Q by (field; lra). lra.
Qed.

Lemma round_nonneg x : (0 <= x)%Q -> (0 <= round x)%Q.
Proof.
  intros Hx. unfold round.
  destruct (Qcompare_spec x 0) as [Z0|Z0|Hp]; [discriminate|lra|].
  unfold nearest. set (e := Z.max (ilog2 x - 52) (-1074)).
  assert (P : (0 < 2 ^ e)%Q) by (apply Qpower_0_lt; reflexivity).
  apply Qmult_le_0_compat; [|lra].
  change 0%Q with (inject_Z 0). rewrite <- Zle_Qle.
  assert (D : (0 <= x / 2 ^ e)%Q).
  { apply Qle_shift_div_l; [exact P|]. lra. }
  unfold nearestEven.
  assert (F : 0 <= Qfloor (x / 2 ^ e)).
  { change 0 with (Qfloor 0). apply Qfloor_resp_le. exact D. }
  destruct (_ ?= _)%Q; [destruct (Z.even _)| |]; lia.
Qed.

(** [Math.random() * n] stays below [n], also after rounding. *)
Lemma mul_below pick n :
  (0 <= pick <= lastBelowOne)%Q -> 0 < n ->
  (0 <= mul pick (inject_Z n) < inject_Z n)%Q.
Proof.
  intros [H0 H1] Hn.
  assert (N1 : (1 <= inject_Z n)%Q).
  { change 1%Q with (inject_Z 1). rewrite <- Zle_Qle. lia. }
  assert (X0 : (0 <= pick * inject_Z n)%Q) by (apply Qmult_le_0_compat; lra).
  split; [apply round_nonneg; exact X0|].
  assert (X1 : (pick * inject_Z n <= lastBelowOne * inject_Z n)%Q)
    by (apply Qmult_le_compat_r; lra).
  destruct (round_near _ X0) as [_ U]. unfold mul.
  eapply Qle_lt_trans; [exact U|].
  unfold eps, lastBelowOne in *.
  assert (T : (tiny < 1 # 81129638414606681695789005144064)%Q)
    by reflexivity.
  lra.
Qed.

(** [n * 0.15] is at least 1 from [n = 7] on. *)
Lemma threshold_sure n :
  7 <= n -> (1 <= mul (inject_Z n) lit015)%Q.
Proof.
  intros Hn.
  assert (N7 : (7 <= inject_Z n)%Q).
  { change 7%Q with (inject_Z 7). rewrite <- Zle_Qle. lia. }
  assert (X0 : (0 <= inject_Z n * lit015)%Q)
    by (apply Qmult_le_0_compat; [lra|discriminate]).
  destruct (round_near _ X0) as [L _]. unfold mul.
  eapply Qle_trans; [|exact L].
  assert (T : (tiny < 1 # 1000)%Q) by reflexivity.
  unfold eps, lit015 in *. lra.
Qed.

(** The double [n * 0.15] is within [n * 2^-55] of fifteen hundredths of
    [n]. *)
Lemma threshold_close n :
  0 < n ->
  (inject_Z n * 0.15 - inject_Z n * (1 # 36028797018963968)
   <= mul (inject_Z n) lit015
   <= inject_Z n * 0.15 + inject_Z n * (1 # 36028797018963968))%Q.
Proof.
  intros Hn.
  assert (N1 : (1 <= inject_Z n)%Q).
  { change 1%Q with (inject_Z 1). rewrite <- Zle_Qle. lia. }
  assert (X0 : (0 <= inject_Z n * lit015)%Q)
    by (apply Qmult_le_0_compat; [lra|discriminate]).
  destruct (round_near _ X0) as [L U]. unfold mul.
  assert (T : (tiny < 1 # 1000000000000000000000000000000)%Q)
    by reflexivity.
  unfold eps, lit015 in *. split; lra.
Qed.

(** The thresholds of the bug draw for one to seven open questions:
    0.15, 0.3, 0.44999999999999996, 0.6, 0.75, 0.8999999999999999 and
    1.05. *)
Example bug_thresholds :
  map (fun n => Qred (mul (inject_Z n) lit015)) [1; 2; 3; 4; 5; 6; 7]
  = map Qred
      [5404319552844595 # 36028797018963968;
       5404319552844595 # 18014398509481984;
       2026619832316723 # 4503599627370496;
       5404319552844595 # 9007199254740992;
       3 # 4;
       2026619832316723 # 2251799813685248;
       4728779608739021 # 4503599627370496]%Q.
Proof. vm_compute. reflexivity. Qed.

(** On the thresholds for up to 64 open questions, and on the products
    of some picks (among them the last double below 1, the least multiple
    of [2^-53] and 0.5714285714285714) with up to 16 open questions, [mul]
    is the product of the Standard Library's specification of binary64. *)
Example mul_agrees_with_binary64 :
  forallb
    (fun n =>
       Qeq_bool
         (ofSpecFloat
            (mulSpec (ofInteger n)
               (SpecFloat.S754_finite false 5404319552844595 (-55))))
         (mul (inject_Z n) lit015))
    (map Z.of_nat (seq 1 64))
  = true
  /\ forallb
       (fun m =>
          forallb
            (fun n =>
               Qeq_bool
                 (ofSpecFloat
                    (mulSpec (SpecFloat.S754_finite false m (-53))
                       (ofInteger n)))
                 (mul (Zpos m # 9007199254740992) (inject_Z n)))
            (map Z.of_nat (seq 1 16)))
       [9007199254740991; 5146971002709138; 6004799503160661;
        3002399751580331; 4503599627370497; 1]%positive
     = true.
Proof. vm_compute. split; reflexivity. Qed.

End Doubles.

(** ** Producer *)

Section ProducerTurn.

Variable W : World.

Lemma Qlt_bool_iff a b : Qlt_bool a b = true <-> (a < b)%Q.
Proof.
  unfold Qlt_bool. rewrite negb_true_iff. split.
  - intros H. apply Qnot_le_lt. intros L.
    apply Qle_bool_iff in L. congruence.
  - intros H. destruct (Qle_bool b a) eqn:E; [|reflexivity].
    apply Qle_bool_iff in E. exfalso. exact (Qlt_not_le _ _ H E).
Qed.

Lemma producer_runs st :
  quantumCore st <> [] -> gameReleased (gameState st) = false ->
  (List.length (quantumCore st) =? 0)%nat || gameReleased (gameState st)
  = false.
Proof.
  intros Hq ->. destruct (quantumCore st); [congruence|reflexivity].
Qed.

Lemma lengthZ_zero {A} (l : list A) : lengthZ l = 0 -> l = [].
Proof. destruct l; [reflexivity|]. unfold lengthZ. cbn [List.length]. lia. Qed.

Lemma lengthZ_pos {A} (l : list A) :
  (0 <? List.length l)%nat = true <-> 0 < lengthZ l.
Proof. unfold lengthZ. rewrite Nat.ltb_lt. lia. Qed.

(** What [producerEnd] leaves alone. *)
Lemma producerEnd_frame log s :
  let s' := producerEnd log s in
  buildProgress (gameState s') = buildProgress (gameState s)
  /\ bugs (gameState s') = bugs (gameState s)
  /\ bugReports s' = bugReports s
  /\ randomCalls s' = randomCalls s
  /\ unansweredQuestions s' = unansweredQuestions s
  /\ quantumCore s' = quantumCore s.
Proof.
  unfold producerEnd, releaseGame. cbv zeta.
  destruct (Qle_bool 100 _); repeat split; reflexivity.
Qed.

(** The index [Math.floor(Math.random() * n)] falls inside a list of
    [n] elements. *)
Lemma atIndex_pick {A} (l : list A) (pick : Q) :
  unitInterval pick -> l <> [] ->
  exists x,
    atIndex l (Qfloor (Double.mul pick (inject_Z (lengthZ l)))) = Some x
    /\ In x l.
Proof.
  intros Hp Hl.
  assert (Hn : 0 < lengthZ l).
  { destruct l; [congruence|]. unfold lengthZ. cbn [List.length]. lia. }
  set (n := lengthZ l) in *.
  destruct (mul_below pick n Hp Hn) as [M0 M1].
  set (i := Qfloor (Double.mul pick (inject_Z n))).
  assert (Hlo : 0 <= i).
  { change 0 with (Qfloor 0). apply Qfloor_resp_le. exact M0. }
  assert (Hhi : i < n).
  { rewrite Zlt_Qlt. eapply Qle_lt_trans; [apply Qfloor_le|exact M1]. }
  unfold atIndex. destruct (i <? 0) eqn:E;
    [apply Z.ltb_lt in E; lia|].
  destruct (nth_error l (Z.to_nat i)) as [x|] eqn:N.
  - exists x. split; [reflexivity|]. eapply nth_error_In; eauto.
  - apply nth_error_None in N. subst n. unfold lengthZ in *. lia.
Qed.

Lemma producerResume_fallback q log reply s :
  isFallback reply = true ->
  producerResume W q log reply s = (producerEnd log s, Resolved).
Proof. unfold producerResume. intros ->. reflexivity. Qed.

Lemma producerResume_bug q log reply s :
  isFallback reply = false ->
  producerResume W q log reply s
  = (producerEnd (Text "A new bug was reported!")
       (setBugReports
          (bugReports s
             ++ [mkBug (fst (generateId W "bug" s)) reply
                   (currentWeek (gameState s)) (id q)])
          (setRandomCalls (S (randomCalls s))
             (setBugs (bugs (gameState s) + 1) s))),
     Resolved).
Proof. unfold producerResume. intros ->. reflexivity. Qed.

(** C3.  When the Producer runs, [buildProgress] becomes the minimum of
    100 and its old value plus [max(0.5, 5 - openQuestions * 0.5)], so the
    increment is exactly that amount unless the cap cuts it; what follows
    an [await] leaves [buildProgress] alone; and with no open question the
    increment is 5, no random number is drawn, no text is requested and the
    bug records are untouched. *)
Theorem C3_producer_progress st :
  quantumCore st <> [] -> gameReleased (gameState st) = false ->
  let n := lengthZ (openQuestionsOf st) in
  let increment := Qmax 0.5 (5 - inject_Z n * 0.5) in
  let old := buildProgress (gameState st) in
  let r := producerTurn W st in
  buildProgress (gameState (fst r)) = Qmin 100 (old + increment)
  /\ (buildProgress (gameState (fst r)) <= 100)%Q
  /\ ((old + increment <= 100)%Q ->
      (buildProgress (gameState (fst r)) - old == increment)%Q)
  /\ (forall p u k reply s,
        snd r = Await p u k ->
        buildProgress (gameState (fst (k reply s)))
        = buildProgress (gameState s))
  /\ (n = 0 ->
      (increment == 5)%Q
      /\ (buildProgress (gameState (fst r)) == Qmin 100 (old + 5))%Q
      /\ snd r = Resolved
      /\ randomCalls (fst r) = randomCalls st
      /\ bugs (gameState (fst r)) = bugs (gameState st)
      /\ bugReports (fst r) = bugReports st).
Proof.
  intros Hq Hr n increment old r.
  assert (Hbp : buildProgress (gameState (fst r)) = Qmin 100 (old + increment)
                /\ (forall p u k reply s,
                       snd r = Await p u k ->
                       buildProgress (gameState (fst (k reply s)))
                       = buildProgress (gameState s))).
  { subst r. unfold producerTurn. rewrite (producer_runs st Hq Hr). cbv zeta.
    change (openQuestionsOf (setBudget _ st)) with (openQuestionsOf st).
    destruct (0 <? List.length (openQuestionsOf st))%nat.
    - cbn [mathRandom]. destruct (Qlt_bool _ _).
      + destruct (atIndex _ _) as [q|]; cbn [fst snd].
        * split; [reflexivity|]. intros p u k reply s [= _ _ <-].
          unfold producerResume. destruct (negb (isFallback reply));
            cbn [generateId mathRandom fst];
            rewrite (proj1 (producerEnd_frame _ _)); reflexivity.
        * split; [reflexivity|]. discriminate.
      + cbn [fst snd]. rewrite (proj1 (producerEnd_frame _ _)).
        split; [reflexivity|]. discriminate.
    - cbn [fst snd]. rewrite (proj1 (producerEnd_frame _ _)).
      split; [reflexivity|]. discriminate. }
  destruct Hbp as [Hbp Hk]. rewrite Hbp.
  split; [reflexivity|]. split; [apply Q.le_min_l|].
  split; [intros Hle; rewrite (Q.min_r _ _ Hle); ring|].
  split; [exact Hk|].
  intros Hn.
  assert (Hi : (increment == 5)%Q).
  { subst increment. rewrite Hn. reflexivity. }
  split; [exact Hi|]. split; [rewrite Hi; reflexivity|].
  subst r. unfold producerTurn. rewrite (producer_runs st Hq Hr). cbv zeta.
  change (openQuestionsOf (setBudget _ st)) with (openQuestionsOf st).
  subst n. rewrite (lengthZ_zero _ Hn). cbn [List.length Nat.ltb Nat.leb fst snd].
  destruct (producerEnd_frame
              (ProgressGain (progressFor (lengthZ (@nil Question))))
              (setBuildProgress
                 (Qmin 100 (buildProgress (gameState st)
                            + progressFor (lengthZ (@nil Question))))
                 (setBudget (budget (gameState st)
                             - weeklySpend (gameState st)) st)))
    as (_ & Hb & Hrep & Hrc & _).
  cbv zeta in Hb, Hrep, Hrc. repeat split; assumption.
Qed.

(** C7.  The Producer draws a random number only when some question is
    open.  No bug is recorded before the generated text arrives.  With
    [n > 0] open questions a bug text is requested exactly when the draw is
    below [n * 0.15], which is always so from [n = 7] on; when the text
    arrives, the bug count goes up by one and one report (with the text,
    the current week and the id of the blamed open question) is appended
    exactly when the text does not start with the fallback marker, and
    otherwise neither changes.  The threshold [n * 0.15] is the product of
    doubles that the source computes; it lies within [n * 2^-55] of
    fifteen hundredths of [n]. *)
Theorem C7_bug_draw st :
  quantumCore st <> [] -> gameReleased (gameState st) = false ->
  unitInterval (random W (randomCalls st)) ->
  unitInterval (random W (S (randomCalls st))) ->
  let n := lengthZ (openQuestionsOf st) in
  let draw := random W (randomCalls st) in
  let threshold := Double.mul (inject_Z n) Double.lit015 in
  let r := producerTurn W st in
  (bugs (gameState (fst r)) = bugs (gameState st)
   /\ bugReports (fst r) = bugReports st)
  /\ (n = 0 -> snd r = Resolved /\ randomCalls (fst r) = randomCalls st)
  /\ (0 < n -> ~ (draw < threshold)%Q ->
      snd r = Resolved /\ randomCalls (fst r) = S (randomCalls st))
  /\ (0 < n -> (draw < threshold)%Q ->
      exists blamed k,
        In blamed (openQuestionsOf st)
        /\ snd r = Await AGENT_PROMPTS.producer
                    ("The unresolved question is: " ++ quote
                       ++ text blamed ++ quote)%string k
        /\ forall reply s,
             snd (k reply s) = Resolved
             /\ (String.prefix "Fallback:" reply = true ->
                 bugs (gameState (fst (k reply s))) = bugs (gameState s)
                 /\ bugReports (fst (k reply s)) = bugReports s)
             /\ (String.prefix "Fallback:" reply = false ->
                 bugs (gameState (fst (k reply s))) = bugs (gameState s) + 1
                 /\ exists bid,
                      bugReports (fst (k reply s))
                      = bugReports s
                          ++ [mkBug bid reply (currentWeek (gameState s))
                                (id blamed)]))
  /\ (7 <= n -> (draw < threshold)%Q)
  /\ (0 < n ->
      (inject_Z n * 0.15 - inject_Z n * (1 # 36028797018963968)
       <= threshold
       <= inject_Z n * 0.15 + inject_Z n * (1 # 36028797018963968))%Q).
Proof.
  intros Hq Hr Hd Hp n draw threshold r.
  assert (E : r = producerTurn W st) by reflexivity.
  unfold producerTurn in E. rewrite (producer_runs st Hq Hr) in E.
  cbv zeta in E.
  change (openQuestionsOf (setBudget _ st)) with (openQuestionsOf st) in E.
  cbn [mathRandom setBuildProgress setBudget updGame randomCalls
       setRandomCalls] in E.
  fold n in E. fold draw in E. fold threshold in E.
  assert (H7 : (7 <= n -> (draw < threshold)%Q)
               /\ (0 < n ->
                   (inject_Z n * 0.15 - inject_Z n * (1 # 36028797018963968)
                    <= threshold
                    <= inject_Z n * 0.15
                       + inject_Z n * (1 # 36028797018963968))%Q)).
  { split; [|apply threshold_close].
    intros H. destruct Hd as [_ Hd].
    apply Qle_lt_trans with Double.lastBelowOne; [exact Hd|].
    apply Qlt_le_trans with 1%Q; [reflexivity|].
    apply threshold_sure. exact H. }
  destruct (0 <? List.length (openQuestionsOf st))%nat eqn:P.
  - apply lengthZ_pos in P. fold n in P.
    destruct (Qlt_bool draw threshold) eqn:D.
    + apply Qlt_bool_iff in D.
      assert (Hne : openQuestionsOf st <> []).
      { intros Z0. unfold n in P. rewrite Z0 in P. cbn in P. lia. }
      destruct (atIndex_pick (openQuestionsOf st) _ Hp Hne)
        as (blamed & Hat & Hin).
      fold n in Hat. rewrite Hat in E. rewrite E. cbn [fst snd].
      split; [split; reflexivity|]. split; [intros; lia|].
      split; [intros _ N; contradiction|]. split; [|exact H7].
      intros _ _. exists blamed. eexists. split; [exact Hin|].
      split; [reflexivity|].
      intros reply s. unfold producerResume, isFallback, startsWith,
        fallbackMarker.
      destruct (String.prefix "Fallback:" reply); cbn [negb].
      * cbn [fst snd].
        destruct (producerEnd_frame
                    (ProgressGain (progressFor n)) s) as (_ & Hb & Hrep & _).
        cbv zeta in Hb, Hrep.
        split; [reflexivity|]. split; [auto|discriminate].
      * cbn [generateId mathRandom fst snd].
        match goal with |- context [producerEnd ?l ?x] =>
          destruct (producerEnd_frame l x) as (_ & Hb & Hrep & _) end.
        cbv zeta in Hb, Hrep.
        split; [reflexivity|]. split; [discriminate|].
        intros _. rewrite Hb, Hrep. split; [reflexivity|].
        eexists. reflexivity.
    + assert (N : ~ (draw < threshold)%Q).
      { intros L. apply Qlt_bool_iff in L. congruence. }
      rewrite E. cbn [fst snd].
      match goal with |- context [producerEnd ?l ?x] =>
        destruct (producerEnd_frame l x) as (_ & Hb & Hrep & Hrc & _) end.
      cbv zeta in Hb, Hrep, Hrc. rewrite Hb, Hrep, Hrc.
      split; [split; reflexivity|]. split; [intros; lia|].
      split; [intros _ _; split; reflexivity|].
      split; [intros _ L; contradiction|exact H7].
  - assert (Z0 : n = 0).
    { apply Nat.ltb_ge in P. unfold n, lengthZ. lia. }
    rewrite E. cbn [fst snd].
    match goal with |- context [producerEnd ?l ?x] =>
      destruct (producerEnd_frame l x) as (_ & Hb & Hrep & Hrc & _) end.
    cbv zeta in Hb, Hrep, Hrc. rewrite Hb, Hrep, Hrc.
    split; [split; reflexivity|]. split; [intros _; split; reflexivity|].
    split; [intros; lia|]. split; [intros; lia|exact H7].
Qed.

End ProducerTurn.

Lemma C3_producer_progress_witness :
  (buildProgress (gameState (fst (producerTurn Examples.W0 Examples.studio)))
   == 5)%Q
  /\ snd (producerTurn Examples.W0 Examples.studio) = Resolved.
Proof.
  destruct (C3_producer_progress Examples.W0 Examples.studio)
    as (H1 & _ & _ & _ & H5).
  - discriminate.
  - reflexivity.
  - destruct (H5 eq_refl) as (_ & Hb & Hres & _).
    split; [rewrite Hb; reflexivity|exact Hres].
Defined.

Lemma C7_bug_draw_witness :
  exists blamed k,
    In blamed (openQuestionsOf Examples.crowded)
    /\ snd (producerTurn Examples.W0 Examples.crowded)
       = Await AGENT_PROMPTS.producer
           ("The unresolved question is: " ++ quote
              ++ text blamed ++ quote)%string k.
Proof.
  destruct (C7_bug_draw Examples.W0 Examples.crowded)
    as (_ & _ & _ & H & H7 & _).
  - discriminate.
  - reflexivity.
  - split; vm_compute; discriminate.
  - split; vm_compute; discriminate.
  - destruct (H eq_refl (H7 ltac:(vm_compute; discriminate)))
      as (blamed & k & Hin & Hk & _).
    exists blamed, k. split; assumption.
Defined.

(** ** Inquisitor *)

Section InquisitorTurn.

Variable W : World.

Lemma prefix_toLowerCase p : forall s,
  String.prefix p s = true ->
  String.prefix (toLowerCase p) (toLowerCase s) = true.
Proof.
  induction p as [|a p IH]; intros s; destruct s as [|b s];
    cbn [String.prefix toLowerCase]; try reflexivity; try discriminate.
  destruct (ascii_dec a b) as [<-|]; [|discriminate].
  intros H. destruct (ascii_dec (lowerChar a) (lowerChar a)); [|congruence].
  apply IH. exact H.
Qed.

Lemma answer_prefix_fromAnswer q :
  String.prefix "/answer" (declarationSource q) = true ->
  fromAnswer q = true.
Proof.
  intros H. unfold fromAnswer, startsWith.
  exact (prefix_toLowerCase "/answer" _ H).
Qed.

Lemma inquisitorLoop_settle todo : forall acc s answers,
  let asked := filter (fun q => negb (fromAnswer q)) todo in
  List.length answers = List.length asked ->
  Forall (fun r => keepsLedger (meanwhile r)) answers ->
  let r := settle answers (inquisitorLoop W todo acc s) in
  snd (fst r) = Resolved
  /\ snd r = map (fun q => (AGENT_PROMPTS.inquisitor, designFact q)) asked
  /\ exists s' more,
       fst (fst r) = inquisitorEnd (acc ++ more) s'
       /\ unansweredQuestions s' = unansweredQuestions s
       /\ map questionView more
          = map expectedView
              (filter accepted (combine asked (map reply answers))).
Proof.
  induction todo as [|q rest IH]; intros acc s answers asked Hlen Hk r.
  - subst r asked. cbn [inquisitorLoop filter].
    destruct answers; cbn [settle snd fst map];
      (split; [reflexivity|]; split; [reflexivity|];
       exists s, []; rewrite app_nil_r; auto).
  - subst r asked. cbn [inquisitorLoop filter] in *.
    destruct (fromAnswer q) eqn:F; cbn [negb] in *.
    + apply IH; assumption.
    + destruct answers as [|[rep f] answers]; [discriminate|].
      cbn [settle snd fst reply meanwhile]. injection Hlen as Hlen.
      inversion Hk as [|x l Hf Hk']; subst x l. cbn [meanwhile] in Hf.
      cbn [map combine filter reply]. unfold accepted at 1. cbn [snd fst].
      unfold acceptQuestion, isFallback, startsWith, fallbackMarker.
      destruct (negb (String.prefix "Fallback:" rep)
                && (10 <? String.length rep)%nat) eqn:A.
      * cbn [generateId mathRandom].
        match goal with |- context [settle answers (inquisitorLoop W rest ?a ?x)] =>
          destruct (IH a x answers Hlen Hk')
            as (H1 & H2 & s' & more & H3 & H4 & H5);
          destruct (settle answers (inquisitorLoop W rest a x)) as [a' log]
        end.
        cbn [fst snd] in *. split; [exact H1|].
        split; [cbn [map]; rewrite H2; reflexivity|].
        exists s', (mkQuestion (fst (generateId W "uq" (f s))) rep Open
                      (quantumId q) :: more).
        split; [rewrite H3, <- app_assoc; reflexivity|].
        split; [rewrite H4; apply Hf|]. cbn [map]. rewrite H5. reflexivity.
      * destruct (IH acc (f s) answers Hlen Hk')
          as (H1 & H2 & s' & more & H3 & H4 & H5).
        destruct (settle answers (inquisitorLoop W rest acc (f s)))
          as [a' log].
        cbn [fst snd] in *. split; [exact H1|].
        split; [cbn [map]; rewrite H2; reflexivity|].
        exists s', more. split; [exact H3|].
        split; [rewrite H4; apply Hf|exact H5].
Qed.

Lemma inquisitorEnd_ledger more s :
  unansweredQuestions (inquisitorEnd more s) = unansweredQuestions s ++ more.
Proof.
  unfold inquisitorEnd. destruct more as [|x more]; cbn.
  - rewrite app_nil_r. reflexivity.
  - reflexivity.
Qed.

(** C9.  The Inquisitor asks about exactly the quanta of the current
    week whose lower-cased source does not start with the answer prefix,
    in creation order; each of them was created in the current week and
    its source does not start with the answer prefix.  When every request
    has been answered, whatever the other agents did in between short of
    writing the question ledger, the ledger has grown by one Open question,
    carrying the answer as text and the id of its quantum, for exactly the
    answers that do not start with the fallback marker and are longer than
    10 characters. *)
Theorem C9_inquisitor_questions st answers :
  List.length answers = List.length (askedAbout st) ->
  Forall (fun r => keepsLedger (meanwhile r)) answers ->
  let r := settle answers (inquisitorTurn W st) in
  snd (fst r) = Resolved
  /\ snd r
     = map (fun q => (AGENT_PROMPTS.inquisitor, designFact q))
         (askedAbout st)
  /\ (forall q, In q (askedAbout st) ->
        In q (quantumCore st)
        /\ createdAt q = ("Week " ++ ofZ (currentWeek (gameState st)))%string
        /\ String.prefix "/answer" (declarationSource q) = false)
  /\ exists newQuestions,
       unansweredQuestions (fst (fst r))
       = unansweredQuestions st ++ newQuestions
       /\ map questionView newQuestions
          = map (fun qr => (snd qr, Open, quantumId (fst qr)))
              (filter
                 (fun qr =>
                    negb (String.prefix "Fallback:" (snd qr))
                    && (10 <? String.length (snd qr))%nat)
                 (combine (askedAbout st) (map reply answers))).
Proof.
  intros Hlen Hk r.
  assert (Hasked : forall q, In q (askedAbout st) ->
            In q (quantumCore st)
            /\ createdAt q = ("Week " ++ ofZ (currentWeek (gameState st)))%string
            /\ String.prefix "/answer" (declarationSource q) = false).
  { intros q Hin. unfold askedAbout in Hin.
    apply filter_In in Hin. destruct Hin as [Hin Hf].
    unfold recentQuantaOf in Hin. apply filter_In in Hin.
    destruct Hin as [Hin Hw]. apply String.eqb_eq in Hw.
    split; [exact Hin|]. split; [exact Hw|].
    destruct (String.prefix "/answer" (declarationSource q)) eqn:P;
      [|reflexivity].
    rewrite (answer_prefix_fromAnswer q P) in Hf. discriminate. }
  subst r. unfold inquisitorTurn.
  destruct (List.length (recentQuantaOf st) =? 0)%nat eqn:E.
  - apply Nat.eqb_eq in E. apply length_zero_iff_nil in E.
    unfold askedAbout in *. rewrite E in *. cbn [filter List.length] in Hlen.
    destruct answers; [|discriminate].
    cbn [settle snd fst filter map combine].
    split; [reflexivity|]. split; [reflexivity|].
    split; [intros q []|].
    exists []. rewrite app_nil_r. split; reflexivity.
  - destruct (inquisitorLoop_settle (recentQuantaOf st) []
                (setInquisitor (Analyzing (List.length (recentQuantaOf st))) st)
                answers Hlen Hk)
      as (H1 & H2 & s' & more & H3 & H4 & H5).
    split; [exact H1|]. split; [exact H2|]. split; [exact Hasked|].
    exists more. rewrite H3, inquisitorEnd_ledger, H4. cbn [app].
    split; [reflexivity|exact H5].
Qed.

End InquisitorTurn.

(** ** The agent phase of a turn *)

Section AgentPhase.

Variable W : World.

Lemma inquisitorLoop_shape todo : forall acc s,
  inquisitorLoop W todo acc s = (inquisitorEnd acc s, Resolved)
  \/ exists q rest,
       inquisitorLoop W todo acc s
       = (s, Await AGENT_PROMPTS.inquisitor (designFact q)
               (fun questionText st' =>
                  if acceptQuestion questionText then
                    let (qid, st'') := generateId W "uq" st' in
                    inquisitorLoop W rest
                      (acc ++ [mkQuestion qid questionText Open (quantumId q)])
                      st''
                  else inquisitorLoop W rest acc st')).
Proof.
  induction todo as [|q rest IH]; intros acc s; cbn [inquisitorLoop].
  - left. reflexivity.
  - destruct (fromAnswer q); [apply IH|]. right. exists q, rest. reflexivity.
Qed.

Lemma inquisitorLoop_state todo acc s :
  fst (inquisitorLoop W todo acc s) = s
  \/ fst (inquisitorLoop W todo acc s) = inquisitorEnd acc s.
Proof.
  destruct (inquisitorLoop_shape todo acc s) as [->|(q & rest & ->)];
    [right|left]; reflexivity.
Qed.

Lemma inquisitor_resumed ti p u k reply s :
  inquisitorRunning W ti -> ti = Await p u k ->
  exists b ti' s1,
    k reply s = (s1, ti') /\ inquisitorRunning W ti'
    /\ (s1 = tick b s \/ exists acc, s1 = inquisitorEnd acc (tick b s)).
Proof.
  intros (todo & acc & s0 & ->) E.
  destruct (inquisitorLoop_shape todo acc s0) as [H|(q & rest & H)];
    rewrite H in E; cbn [snd] in E; [discriminate|].
  injection E as _ _ <-.
  destruct (acceptQuestion reply).
  - cbn [generateId mathRandom].
    match goal with |- context [inquisitorLoop W rest ?a ?x] =>
      exists true, (snd (inquisitorLoop W rest a x)),
             (fst (inquisitorLoop W rest a x));
      split; [destruct (inquisitorLoop W rest a x); reflexivity|];
      split; [exists rest, a, x; reflexivity|];
      destruct (inquisitorLoop_state rest a x) as [->| ->];
        [left; reflexivity|right; exists a; reflexivity]
    end.
  - exists false, (snd (inquisitorLoop W rest acc s)),
           (fst (inquisitorLoop W rest acc s)).
    split; [destruct (inquisitorLoop W rest acc s); reflexivity|].
    split; [exists rest, acc, s; reflexivity|].
    destruct (inquisitorLoop_state rest acc s) as [->| ->];
      [left; reflexivity|right; exists acc; reflexivity].
Qed.

Lemma deliver_delivered t ev :
  agentsOK W t -> delivered W t (deliver t ev).
Proof.
  intros (Hi & Hp & Hm). destruct ev as [[| |] reply]; cbn [deliver].
  - destruct (inquisitorTask t) as [[| |p u k]|] eqn:E; try apply d_none.
    destruct (inquisitor_resumed _ p u k reply (sim t) Hi eq_refl)
      as (b & ti' & s1 & -> & Hr & Hs).
    apply (d_inquisitor W t b ti' s1 Hr Hs).
  - destruct Hp as [->|[->|[(p & u & q & log & ->) Hrel]]];
      try apply d_none.
    unfold producerResume. destruct (negb (isFallback reply)).
    + cbn [generateId mathRandom].
      eapply (d_producer W t); [exact Hrel|]. right. eexists. reflexivity.
    + apply (d_producer W t); [exact Hrel|]. left. reflexivity.
  - destruct Hm as [->|(p & u & E)]; [apply d_none|]. rewrite E.
    unfold marketingResume. apply d_marketing. rewrite E. discriminate.
Qed.

Lemma advances_refl s : advances s s.
Proof.
  unfold advances. repeat split; try reflexivity; try lia; auto.
  - apply Qle_refl.
  - exists []. rewrite app_nil_r. reflexivity.
Qed.

Lemma advances_trans a b c : advances a b -> advances b c -> advances a c.
Proof.
  intros (A1 & A2 & A3 & A4 & A5 & A6 & A7 & A8 & A9 & [m1 A10] & A11)
         (B1 & B2 & B3 & B4 & B5 & B6 & B7 & B8 & B9 & [m2 B10] & B11).
  unfold advances.
  split; [congruence|]. split; [congruence|]. split; [congruence|].
  split; [congruence|]. split; [congruence|]. split; [congruence|].
  split; [congruence|]. split; [lia|].
  split.
  { intros H. destruct (A9 H) as [H1 H2]. destruct (B9 H2) as [H3 H4].
    split; [eapply Qle_trans; eauto|exact H4]. }
  split.
  { exists (m1 ++ m2). rewrite B10, A10, app_assoc. reflexivity. }
  intros H. destruct (A11 H) as (R1 & R2 & R3 & R4).
  destruct (B11 R1) as (S1 & S2 & S3 & S4).
  repeat split; congruence.
Qed.

Lemma hype_grows (h : Q) (n : nat) :
  (h <= 100)%Q ->
  (h <= Qmin 100 (h + inject_Z (Z.of_nat n) / 2))%Q
  /\ (Qmin 100 (h + inject_Z (Z.of_nat n) / 2) <= 100)%Q.
Proof.
  intros H. split; [|apply Q.le_min_l].
  apply Q.min_glb; [exact H|].
  setoid_replace h with (h + 0)%Q at 1 by ring.
  apply Qplus_le_r. apply Qle_shift_div_l; [reflexivity|].
  setoid_replace (0 * 2)%Q with (inject_Z 0) by reflexivity.
  rewrite <- Zle_Qle. lia.
Qed.

Lemma progress_grows (b : Q) (n : Z) :
  (b <= 100)%Q ->
  (b <= Qmin 100 (b + progressFor n))%Q
  /\ (Qmin 100 (b + progressFor n) <= 100)%Q.
Proof.
  intros H. split; [|apply Q.le_min_l].
  apply Q.min_glb; [exact H|].
  setoid_replace b with (b + 0)%Q at 1 by ring.
  apply Qplus_le_r. unfold progressFor.
  eapply Qle_trans; [|apply Q.le_max_l]. discriminate.
Qed.

Ltac sim :=
  cbn [isWaitingForAgents agentStatusText gameState quantumCore
       unansweredQuestions bugReports randomCalls currentWeek projectName
       budget designCompleteness buildProgress bugs marketHype weeklySpend
       marketingActive gameReleased finalScore commandQueue
       lastAgentActivity updGame updActivity setTranslator setInquisitor
       setProducer setMarketing setCurrentWeek setBudget
       setDesignCompleteness setBuildProgress setBugs setMarketHype
       setWeeklySpend setMarketingActive setGameReleased setFinalScore
       setCommandQueue setQuantumCore setUnansweredQuestions setBugReports
       setRandomCalls setWaitingState sim inquisitorTask producerTask
       marketingTask fst snd].

Ltac same_hype :=
  let H := fresh in intros H; split; [apply Qle_refl|exact H].

Ltac no_more := exists []; rewrite app_nil_r; reflexivity.

Ltac conj := match goal with |- _ /\ _ => split end.

Lemma delivered_advances t t' :
  delivered W t t' -> advances (sim t) (sim t').
Proof.
  intros [|b ti' s1 _ Hs|log s1 Hrel Hs|a _].
  - apply advances_refl.
  - unfold advances.
    destruct Hs as [->|[acc ->]]; destruct b; unfold tick, inquisitorEnd;
      try destruct (0 <? List.length acc)%nat; sim;
      repeat (conj; [try reflexivity; try lia; try same_hype;
                     try no_more; try (eexists; reflexivity)|]);
      auto.
  - unfold advances, producerEnd, releaseGame.
    destruct Hs as [->|[r ->]]; unfold withBug; sim;
      destruct (Qle_bool 100 _); sim;
      repeat (conj; [try reflexivity; try lia; try same_hype;
                     try no_more|]);
      congruence.
  - unfold advances, marketingEnd. sim.
    repeat (conj; [try reflexivity; try lia; try no_more;
                   try apply hype_grows|]).
    auto.
Qed.

Lemma delivered_agentsOK t t' :
  agentsOK W t -> delivered W t t' -> agentsOK W t'.
Proof.
  intros (Hi & Hp & Hm) [|b ti' s1 Hr Hs|log s1 Hrel Hs|a _].
  - repeat split; assumption.
  - unfold agentsOK. sim. split; [exact Hr|]. split; [|exact Hm].
    destruct Hp as [->|[->|[Hp Hrel]]]; auto. right. right.
    split; [exact Hp|].
    destruct Hs as [->|[acc ->]]; destruct b; unfold tick, inquisitorEnd;
      try destruct (0 <? List.length acc)%nat; exact Hrel.
  - unfold agentsOK. sim. auto.
  - unfold agentsOK. sim. split; [exact Hi|]. split; [|auto].
    destruct Hp as [->|[->|[Hp Hrel]]]; auto.
Qed.

Lemma delivered_scored st0 t t' :
  agentsOK W t -> scoredFrom st0 t -> delivered W t t' -> scoredFrom st0 t'.
Proof.
  intros (Hi & Hp & Hm) (Hd & Hh & Hs) [|b ti' s1 _ Hs1|log s1 Hrel Hs1|a Hn].
  - repeat split; assumption.
  - unfold scoredFrom.
    destruct Hs1 as [->|[acc ->]]; destruct b; unfold tick, inquisitorEnd;
      try destruct (0 <? List.length acc)%nat; sim;
      (split; [exact Hd|]; split; [exact Hh|exact Hs]).
  - assert (Hmk : marketingTask t = Resolved
                  \/ marketHype (gameState (sim t))
                     = marketHype (gameState st0)).
    { destruct Hm as [E|(p & u & E)]; [left; exact E|right].
      apply Hh. rewrite E. discriminate. }
    unfold scoredFrom, producerEnd, releaseGame.
    destruct Hs1 as [->|[r ->]]; unfold withBug; sim;
      destruct (Qle_bool 100 _); sim;
      (split; [exact Hd|]; split; [exact Hh|]);
      try (rewrite Hrel; discriminate);
      intros _; rewrite Hd;
      (destruct Hmk as [E|E];
       [exists (marketHype (gameState (sim t))); split; [right; auto|reflexivity]
       |exists (marketHype (gameState st0)); split; [left; reflexivity|rewrite E; reflexivity]]).
  - unfold scoredFrom, marketingEnd. sim.
    split; [exact Hd|]. split; [congruence|].
    intros Hrel. destruct (Hs Hrel) as (hype & [E|[_ E]] & Hf);
      [|contradiction].
    exists hype. split; [left; exact E|exact Hf].
Qed.

Lemma delivered_due t t' :
  releasedWhenDue t -> delivered W t t' -> releasedWhenDue t'.
Proof.
  intros Hd [|b ti' s1 _ Hs1|log s1 Hrel Hs1|a Hn].
  - exact Hd.
  - unfold releasedWhenDue in *.
    destruct Hs1 as [->|[acc ->]]; destruct b; unfold tick, inquisitorEnd;
      try destruct (0 <? List.length acc)%nat; sim; exact Hd.
  - unfold releasedWhenDue, producerEnd, releaseGame.
    destruct Hs1 as [->|[r ->]]; unfold withBug; sim;
      destruct (Qle_bool 100 _) eqn:E; sim; intros _ H; try reflexivity;
      apply Qle_bool_iff in H; congruence.
  - unfold releasedWhenDue in *. unfold marketingEnd. sim. exact Hd.
Qed.

End AgentPhase.

(** ** The launch of a turn *)

Section LaunchPhase.

Variable W : World.

Ltac sim :=
  cbn [isWaitingForAgents agentStatusText gameState quantumCore
       unansweredQuestions bugReports randomCalls currentWeek projectName
       budget designCompleteness buildProgress bugs marketHype weeklySpend
       marketingActive gameReleased finalScore commandQueue
       lastAgentActivity updGame updActivity setTranslator setInquisitor
       setProducer setMarketing setCurrentWeek setBudget
       setDesignCompleteness setBuildProgress setBugs setMarketHype
       setWeeklySpend setMarketingActive setGameReleased setFinalScore
       setCommandQueue setQuantumCore setUnansweredQuestions setBugReports
       setRandomCalls setWaitingState sim inquisitorTask producerTask
       marketingTask fst snd].

Ltac conj := match goal with |- _ /\ _ => split end.

Lemma translatorTurn_metrics input st :
  metrics (snd (translatorTurn W input st)) = metrics st
  /\ bugReports (snd (translatorTurn W input st)) = bugReports st.
Proof.
  unfold translatorTurn, metrics.
  destruct (0 <? List.length (newQuantaOf input))%nat; sim.
  - destruct (pushQuanta_frame W input (newQuantaOf input)
                (setTranslator (Parsing (substring 0 30 input)) st))
      as (Hg & _ & Hb & _).
    rewrite Hg, Hb. sim. split; reflexivity.
  - split; reflexivity.
Qed.

Lemma resolveAnswer_metrics input st :
  metrics (snd (resolveAnswer W input st)) = metrics st
  /\ bugReports (snd (resolveAnswer W input st)) = bugReports st.
Proof.
  unfold resolveAnswer.
  destruct (matchAnswer input) as [qid|];
    [destruct (find (hasId qid) (unansweredQuestions st))|]; cbn [snd];
    try apply translatorTurn_metrics.
  destruct (translatorTurn_metrics input
              (setUnansweredQuestions
                 (answerFirst qid (unansweredQuestions st)) st)) as [Hm Hb].
  split; [exact Hm|exact Hb].
Qed.

Lemma commandStep_metrics st :
  metrics (snd (commandStep W st)) = metrics st
  /\ bugReports (snd (commandStep W st)) = bugReports st.
Proof.
  unfold commandStep.
  destruct (commandQueue (gameState st)) as [|input rest]; [auto|].
  destruct (negb (isEmpty input) && trimNonEmpty input); [|auto].
  destruct (startsWith input "/declare").
  - apply (translatorTurn_metrics input (setCommandQueue rest st)).
  - destruct (startsWith input "/answer"); [|auto].
    apply (resolveAnswer_metrics input (setCommandQueue rest st)).
Qed.

Lemma inquisitorTurn_prefix st :
  exists a, fst (inquisitorTurn W st) = setInquisitor a st.
Proof.
  unfold inquisitorTurn.
  destruct (List.length (recentQuantaOf st) =? 0)%nat;
    [eexists; reflexivity|].
  match goal with |- context [inquisitorLoop W ?l ?a ?x] =>
    destruct (inquisitorLoop_state W l a x) as [->| ->] end;
    eexists; reflexivity.
Qed.

Lemma inquisitorTurn_running st :
  inquisitorRunning W (snd (inquisitorTurn W st)).
Proof.
  unfold inquisitorTurn.
  destruct (List.length (recentQuantaOf st) =? 0)%nat.
  - exists [], [], st. reflexivity.
  - eexists _, _, _. reflexivity.
Qed.

(** The synchronous prefix of the Producer. *)
Lemma producerTurn_prefix s :
  gameReleased (gameState s) = false ->
  let s' := fst (producerTurn W s) in
  let tp := snd (producerTurn W s) in
  currentWeek (gameState s') = currentWeek (gameState s)
  /\ designCompleteness (gameState s') = designCompleteness (gameState s)
  /\ marketHype (gameState s') = marketHype (gameState s)
  /\ marketingActive (gameState s') = marketingActive (gameState s)
  /\ bugs (gameState s') = bugs (gameState s)
  /\ bugReports s' = bugReports s
  /\ quantumCore s' = quantumCore s
  /\ unansweredQuestions s' = unansweredQuestions s
  /\ isWaitingForAgents s' = isWaitingForAgents s
  /\ ((buildProgress (gameState s) <= 100)%Q ->
      (buildProgress (gameState s) <= buildProgress (gameState s'))%Q
      /\ (buildProgress (gameState s') <= 100)%Q)
  /\ (tp = Resolved \/ tp = Rejected
      \/ (producerPending W tp /\ gameReleased (gameState s') = false))
  /\ (gameReleased (gameState s') = true ->
      finalScore (gameState s')
      = scoreOf (designCompleteness (gameState s))
          (marketHype (gameState s)) (bugs (gameState s)))
  /\ (quantumCore s <> [] -> tp = Resolved ->
      (100 <= buildProgress (gameState s'))%Q ->
      gameReleased (gameState s') = true).
Proof.
  intros Hrel. unfold producerTurn. rewrite Hrel, orb_false_r.
  destruct (List.length (quantumCore s) =? 0)%nat eqn:E.
  - apply Nat.eqb_eq, length_zero_iff_nil in E. sim. cbv zeta.
    repeat (conj; [try reflexivity; auto|]).
    + intros H; split; [apply Qle_refl|exact H].
    + congruence.
    + congruence.
  - cbv zeta.
    change (openQuestionsOf (setBudget _ s)) with (openQuestionsOf s).
    set (n := lengthZ (openQuestionsOf s)).
    assert (G := progress_grows (buildProgress (gameState s)) n).
    destruct (0 <? List.length (openQuestionsOf s))%nat;
      [cbn [mathRandom]; destruct (Qlt_bool _ _);
       [destruct (atIndex _ _)|]|];
      unfold producerEnd, releaseGame; sim;
      try (destruct (Qle_bool 100 _) eqn:L); sim;
      repeat (conj; [try reflexivity; auto; try congruence|]);
      try congruence;
      try (right; right; split; [eexists _, _, _, _; reflexivity|exact Hrel]);
      try (intros _ _ H; apply Qle_bool_iff in H; congruence).
Qed.

(** The activation test and the synchronous prefix of Marketing. *)
Lemma marketingTurn_prefix s :
  let s' := fst (marketingTurn (activateMarketing s)) in
  let tm := snd (marketingTurn (activateMarketing s)) in
  metrics s' = metrics (setMarketHype (marketHype (gameState s'))
                          (setWeeklySpend (weeklySpend (gameState s'))
                             (setMarketingActive
                                (marketingActive (gameState s')) s)))
  /\ bugReports s' = bugReports s
  /\ quantumCore s' = quantumCore s
  /\ unansweredQuestions s' = unansweredQuestions s
  /\ isWaitingForAgents s' = isWaitingForAgents s
  /\ ((marketHype (gameState s) <= 100)%Q ->
      (marketHype (gameState s) <= marketHype (gameState s'))%Q
      /\ (marketHype (gameState s') <= 100)%Q)
  /\ (tm = Resolved \/ marketingPending tm)
  /\ (tm <> Resolved ->
      marketHype (gameState s') = marketHype (gameState s))
  /\ (gameReleased (gameState s) = true ->
      marketHype (gameState s') = marketHype (gameState s)).
Proof.
  assert (G := hype_grows (marketHype (gameState s))
                 (List.length (quantumCore s))).
  unfold marketingTurn, activateMarketing, metrics.
  destruct (5 <? currentWeek (gameState s)); sim;
    destruct (gameReleased (gameState s)) eqn:R;
    destruct (marketingActive (gameState s)) eqn:A;
    cbn [negb orb]; sim;
    try (destruct (find hypeable _)); unfold marketingEnd; sim;
    rewrite ?R, ?A;
    repeat (conj; [try reflexivity; auto; try congruence|]);
    try congruence; try reflexivity;
    try (intros H; split; [apply Qle_refl|exact H]);
    try (right; eexists _, _; reflexivity);
    try discriminate.
Qed.

Lemma metrics_fields a b :
  metrics a = metrics b ->
  currentWeek (gameState a) = currentWeek (gameState b)
  /\ designCompleteness (gameState a) = designCompleteness (gameState b)
  /\ buildProgress (gameState a) = buildProgress (gameState b)
  /\ bugs (gameState a) = bugs (gameState b)
  /\ marketHype (gameState a) = marketHype (gameState b)
  /\ gameReleased (gameState a) = gameReleased (gameState b)
  /\ finalScore (gameState a) = finalScore (gameState b).
Proof. unfold metrics. intros [= -> _ -> -> -> -> _ _ -> ->]. auto 10. Qed.

Lemma launchInquisitor_prefix processed s :
  let s' := fst (launchInquisitor W processed s) in
  metrics s' = metrics s
  /\ bugReports s' = bugReports s
  /\ quantumCore s' = quantumCore s
  /\ unansweredQuestions s' = unansweredQuestions s
  /\ isWaitingForAgents s' = isWaitingForAgents s
  /\ match snd (launchInquisitor W processed s) with
     | Some ti => inquisitorRunning W ti
     | None => True
     end.
Proof.
  unfold launchInquisitor. destruct processed; [|cbn; auto 10].
  destruct (inquisitorTurn_prefix s) as [a E].
  pose proof (inquisitorTurn_running s) as R.
  destruct (inquisitorTurn W s) as [s' ti]. cbn [fst snd] in *. subst s'.
  repeat (conj; [reflexivity|]). exact R.
Qed.

(** The state and the promises when all agents have been launched. *)
Lemma launch_facts st :
  gameReleased (gameState st) = false ->
  let t := launch W st in
  agentsOK W t /\ scoredFrom st t
  /\ (quantumCore (snd (commandStep W st)) <> [] -> releasedWhenDue t)
  /\ currentWeek (gameState (sim t)) = currentWeek (gameState st)
  /\ bugs (gameState (sim t)) = bugs (gameState st)
  /\ bugReports (sim t) = bugReports st
  /\ quantumCore (sim t) = quantumCore (snd (commandStep W st))
  /\ unansweredQuestions (sim t)
     = unansweredQuestions (snd (commandStep W st))
  /\ isWaitingForAgents (sim t) = true
  /\ (bounded st ->
      (buildProgress (gameState st)
       <= buildProgress (gameState (sim t)))%Q
      /\ (marketHype (gameState st) <= marketHype (gameState (sim t)))%Q
      /\ bounded (sim t)).
Proof.
  intros Hrel. unfold launch.
  destruct (commandStep_metrics st) as [Hm1 Hb1].
  destruct (commandStep W st) as [processed s1]. cbn [snd] in *.
  set (s2 := setWaitingState true "Agents are thinking..." s1).
  assert (Hb2 : bugReports s2 = bugReports s1) by reflexivity.
  assert (Hq2 : quantumCore s2 = quantumCore s1) by reflexivity.
  assert (Hu2 : unansweredQuestions s2 = unansweredQuestions s1)
    by reflexivity.
  destruct (launchInquisitor_prefix processed s2)
    as (Hm3 & Hb3 & Hq3 & Hu3 & Hw3 & Hi3).
  destruct (launchInquisitor W processed s2) as [s3 ti]. cbn [fst snd] in *.
  assert (Hm13 : metrics s3 = metrics st) by (rewrite Hm3; exact Hm1).
  destruct (metrics_fields _ _ Hm13) as (W3 & D3 & B3 & G3 & M3 & R3 & F3).
  assert (Hrel3 : gameReleased (gameState s3) = false) by congruence.
  destruct (producerTurn_prefix s3 Hrel3)
    as (W4 & D4 & M4 & A4 & G4 & Hb4 & Hq4 & Hu4 & Hw4 & B4 & T4 & S4 & Due4).
  destruct (producerTurn W s3) as [s4 tp]. cbn [fst snd] in *.
  destruct (marketingTurn_prefix s4)
    as (Hm6 & Hb6 & Hq6 & Hu6 & Hw6 & M6 & T6 & P6 & Rel6).
  destruct (marketingTurn (activateMarketing s4)) as [s6 tm].
  cbn [fst snd] in *.
  destruct (metrics_fields _ _ Hm6) as (W6 & D6 & B6 & G6 & _ & R6 & F6).
  cbn [gameState currentWeek designCompleteness buildProgress bugs
       gameReleased finalScore setMarketHype setWeeklySpend
       setMarketingActive updGame] in W6, D6, B6, G6, R6, F6.
  cbn [sim inquisitorTask producerTask marketingTask].
  split.
  { unfold agentsOK. cbn [sim inquisitorTask producerTask marketingTask].
    split; [exact Hi3|]. split; [|exact T6].
    destruct T4 as [->|[->|[Hp Hr]]]; auto. right. right.
    split; [exact Hp|congruence]. }
  split.
  { unfold scoredFrom. cbn [sim marketingTask].
    split; [congruence|]. split; [intros H; rewrite (P6 H); congruence|].
    intros H. exists (marketHype (gameState st)). split; [left; reflexivity|].
    rewrite F6, S4 by congruence. congruence. }
  split.
  { intros Hne. unfold releasedWhenDue.
    cbn [sim producerTask]. intros -> H. rewrite R6. apply Due4; auto.
    - rewrite Hq3. exact Hne.
    - rewrite <- B6. exact H. }
  split; [congruence|]. split; [congruence|]. split; [congruence|].
  split; [congruence|]. split; [congruence|].
  split; [rewrite Hw6, Hw4, Hw3; reflexivity|].
  intros [Hbp Hmh]. rewrite <- B3 in Hbp. rewrite <- M3, <- M4 in Hmh.
  destruct (B4 Hbp) as [Hle Hcap]. destruct (M6 Hmh) as [Hle' Hcap'].
  rewrite B6, <- B3. rewrite <- M3, <- M4.
  split; [exact Hle|]. split; [exact Hle'|].
  split; [rewrite B6; exact Hcap|exact Hcap'].
Qed.

End LaunchPhase.

(** ** Whole turns *)

Section Turns.

Variable W : World.

Lemma advanceWeek_completed schedule st st' :
  advanceWeek W schedule st = Completed st' ->
  gameReleased (gameState st) = false
  /\ isWaitingForAgents st = false
  /\ allResolved (runTurn W schedule st) = true
  /\ st' = finishTurn (sim (runTurn W schedule st)).
Proof.
  unfold advanceWeek.
  destruct (gameReleased (gameState st)); [discriminate|].
  destruct (isWaitingForAgents st); [discriminate|]. cbn [orb].
  destruct (allResolved (runTurn W schedule st)); [|discriminate].
  intros [= <-]. auto.
Qed.

Lemma advanceWeek_released schedule st :
  gameReleased (gameState st) = true ->
  advanceWeek W schedule st = Refused.
Proof. unfold advanceWeek. intros ->. reflexivity. Qed.

(** The agent phase of a turn, from the state before the turn. *)
Lemma runTurn_facts schedule st :
  gameReleased (gameState st) = false ->
  let t := runTurn W schedule st in
  agentsOK W t /\ scoredFrom st t
  /\ (quantumCore (snd (commandStep W st)) <> [] -> releasedWhenDue t)
  /\ currentWeek (gameState (sim t)) = currentWeek (gameState st)
  /\ bugs (gameState st) <= bugs (gameState (sim t))
  /\ (bounded st ->
      (buildProgress (gameState st)
       <= buildProgress (gameState (sim t)))%Q
      /\ (marketHype (gameState st) <= marketHype (gameState (sim t)))%Q
      /\ bounded (sim t)).
Proof.
  intros Hrel t. subst t. unfold runTurn.
  destruct (launch_facts W st Hrel)
    as (Ha & Hs & Hd & Hw & Hg & _ & _ & _ & _ & Hb).
  assert (Hd' : releasedWhenDue (launch W st)
                \/ quantumCore (snd (commandStep W st)) = []).
  { destruct (quantumCore (snd (commandStep W st))) eqn:E;
      [right; reflexivity|left; apply Hd; discriminate]. }
  assert (Hrun : forall t0, agentsOK W t0 -> scoredFrom st t0 ->
            let t' := fold_left deliver schedule t0 in
            agentsOK W t' /\ scoredFrom st t'
            /\ (releasedWhenDue t0 -> releasedWhenDue t')
            /\ advances (sim t0) (sim t')).
  { clear. induction schedule as [|ev schedule IH]; intros t0 Ha Hs;
      cbn [fold_left].
    - split; [exact Ha|]. split; [exact Hs|]. split; [auto|].
      apply advances_refl.
    - pose proof (deliver_delivered W t0 ev Ha) as D.
      destruct (IH (deliver t0 ev) (delivered_agentsOK W _ _ Ha D)
                  (delivered_scored W _ _ _ Ha Hs D))
        as (H1 & H2 & H3 & H4).
      split; [exact H1|]. split; [exact H2|].
      split; [intros H; apply H3; apply (delivered_due W _ _ H D)|].
      eapply advances_trans; [apply (delivered_advances W _ _ D)|exact H4]. }
  destruct (Hrun (launch W st) Ha Hs) as (H1 & H2 & H3 & H4).
  destruct H4 as (A1 & A2 & A3 & A4 & A5 & A6 & A7 & A8 & A9 & A10 & A11).
  split; [exact H1|]. split; [exact H2|].
  split; [intros Hne; apply H3; apply Hd; exact Hne|].
  split; [congruence|]. split; [lia|].
  intros Hbd. destruct (Hb Hbd) as (B1 & B2 & B3 & B4).
  destruct (A9 B4) as [C1 C2].
  split; [rewrite A3; exact B1|].
  split; [eapply Qle_trans; eauto|].
  split; [rewrite A3; exact B3|exact C2].
Qed.

Lemma reachable_bounded st : reachable W st -> bounded st.
Proof.
  induction 1 as [|st r _ IH].
  - split; discriminate.
  - destruct r as [schedule|running command]; cbn [serve].
    + unfold advanceWeek.
      destruct (gameReleased (gameState st)) eqn:Hrel; [exact IH|].
      destruct (isWaitingForAgents st); [exact IH|]. cbn [orb].
      destruct (runTurn_facts schedule st Hrel) as (_ & _ & _ & _ & _ & Hb).
      destruct (Hb IH) as (_ & _ & Hbd).
      destruct (allResolved (runTurn W schedule st)); exact Hbd.
    + unfold submitCommand.
      destruct (commandQueue (gameState st)); destruct running;
        cbn [negb]; try destruct (trimNonEmpty command); exact IH.
Qed.

(** C4.  Over every completed turn of a run, [buildProgress],
    [marketHype] and [bugs] do not decrease and [currentWeek] grows by
    exactly 1. *)
Theorem C4_monotone schedule st st' :
  reachable W st ->
  advanceWeek W schedule st = Completed st' ->
  (buildProgress (gameState st) <= buildProgress (gameState st'))%Q
  /\ (marketHype (gameState st) <= marketHype (gameState st'))%Q
  /\ bugs (gameState st) <= bugs (gameState st')
  /\ currentWeek (gameState st') = currentWeek (gameState st) + 1
  /\ currentWeek (gameState st) < currentWeek (gameState st').
Proof.
  intros Hr Hc.
  destruct (advanceWeek_completed _ _ _ Hc) as (Hrel & _ & _ & ->).
  destruct (runTurn_facts schedule st Hrel) as (_ & _ & _ & Hw & Hg & Hb).
  destruct (Hb (reachable_bounded st Hr)) as (B1 & B2 & _).
  cbn [finishTurn gameState buildProgress marketHype bugs currentWeek
       setDesignCompleteness setCurrentWeek setWaitingState updGame].
  split; [exact B1|]. split; [exact B2|]. split; [exact Hg|].
  rewrite Hw. split; lia.
Qed.

(** C8.  At the end of every completed turn [designCompleteness] is
    [quanta / (quanta + openQuestions) * 100] when the denominator is
    positive, else 100 if quanta exist, else 0, on the counts of the final
    state; with 3 quanta and 1 open question it is 75, with none of either
    it is 0. *)
Theorem C8_design_completeness schedule st st' :
  advanceWeek W schedule st = Completed st' ->
  let quanta := lengthZ (quantumCore st') in
  let openQuestions := lengthZ (filter isOpen (unansweredQuestions st')) in
  designCompleteness (gameState st')
  = designCompletenessOf quanta openQuestions
  /\ (0 < quanta + openQuestions ->
      designCompleteness (gameState st')
      = (inject_Z quanta / inject_Z (quanta + openQuestions) * 100)%Q)
  /\ (quanta + openQuestions <= 0 -> 0 < quanta ->
      designCompleteness (gameState st') = 100%Q)
  /\ (quanta + openQuestions <= 0 -> quanta <= 0 ->
      designCompleteness (gameState st') = 0%Q)
  /\ (quanta = 3 -> openQuestions = 1 ->
      (designCompleteness (gameState st') == 75)%Q)
  /\ (quanta = 0 -> openQuestions = 0 ->
      (designCompleteness (gameState st') == 0)%Q).
Proof.
  intros Hc quanta openQuestions.
  destruct (advanceWeek_completed _ _ _ Hc) as (_ & _ & _ & E).
  assert (Hd : designCompleteness (gameState st')
               = designCompletenessOf quanta openQuestions).
  { subst quanta openQuestions. rewrite E. reflexivity. }
  rewrite Hd. unfold designCompletenessOf.
  split; [reflexivity|].
  split; [intros H; apply Z.ltb_lt in H; rewrite H; reflexivity|].
  split; [intros H1 H2; apply Z.ltb_ge in H1; apply Z.ltb_lt in H2;
          rewrite H1, H2; reflexivity|].
  split; [intros H1 H2; apply Z.ltb_ge in H1, H2; rewrite H1, H2;
          reflexivity|].
  split; intros -> ->; reflexivity.
Qed.

Lemma serve_released st r :
  gameReleased (gameState st) = true ->
  setCommandQueue (commandQueue (gameState st)) (serve W st r) = st
  /\ gameReleased (gameState (serve W st r)) = true.
Proof.
  intros Hrel. destruct r as [schedule|running command]; cbn [serve].
  - rewrite (advanceWeek_released schedule st Hrel). cbn [stateAfter].
    split; [|exact Hrel]. destruct st as [w a [] q u b n]; reflexivity.
  - unfold submitCommand.
    destruct (commandQueue (gameState st)) eqn:Q; destruct running;
      cbn [negb]; try destruct (trimNonEmpty command);
      (split; [|exact Hrel]);
      try rewrite <- Q; destruct st as [w a [] q u b n]; reflexivity.
Qed.

Lemma serve_all_released requests : forall st,
  gameReleased (gameState st) = true ->
  let st' := fold_left (serve W) requests st in
  setCommandQueue (commandQueue (gameState st)) st' = st
  /\ finalScore (gameState st') = finalScore (gameState st)
  /\ gameReleased (gameState st') = true.
Proof.
  induction requests as [|r requests IH]; intros st Hrel; cbn [fold_left].
  - split; [destruct st as [w a [] q u b n]; reflexivity|]. auto.
  - destruct (serve_released st r Hrel) as [E Hrel'].
    destruct (IH (serve W st r) Hrel') as (E' & F & R).
    split; [|split; [|exact R]].
    + transitivity
        (setCommandQueue (commandQueue (gameState st))
           (setCommandQueue (commandQueue (gameState (serve W st r)))
              (fold_left (serve W) requests (serve W st r))));
        [reflexivity|]. rewrite E'. exact E.
    + rewrite F.
      exact (f_equal (fun s => finalScore (gameState s)) E).
Qed.

(** C2.  When the Producer runs in a completed turn and [buildProgress]
    reaches 100, the game is released in that turn.  The Producer ends by
    releasing whenever [buildProgress] is at 100, and [finalScore] is then
    [designCompleteness*0.4 + marketHype*0.3 + max(0, 100 - bugs*2)*0.3]
    on the state of that moment; in terms of the turn these values are the
    [designCompleteness] from before the turn, the bug count of the turn,
    and [marketHype] as it stood before or after Marketing's step.  From then on
    every turn-advance request is refused and leaves the state as it is,
    and whatever is asked of the core, [finalScore] stays and only the
    command queue can differ. *)
Theorem C2_release_and_score schedule st st' :
  advanceWeek W schedule st = Completed st' ->
  quantumCore (snd (commandStep W st)) <> [] ->
  (100 <= buildProgress (gameState st'))%Q ->
  gameReleased (gameState st') = true
  /\ (forall log s,
        (100 <= buildProgress (gameState s))%Q ->
        gameReleased (gameState (producerEnd log s)) = true
        /\ finalScore (gameState (producerEnd log s))
           = (designCompleteness (gameState s) * 0.4
              + marketHype (gameState s) * 0.3
              + Qmax 0 (100 - inject_Z (bugs (gameState s)) * 2) * 0.3)%Q)
  /\ (exists hype,
        (hype = marketHype (gameState st)
         \/ hype = marketHype (gameState st'))
        /\ finalScore (gameState st')
           = (designCompleteness (gameState st) * 0.4 + hype * 0.3
              + Qmax 0 (100 - inject_Z (bugs (gameState st')) * 2) * 0.3)%Q)
  /\ (forall schedule',
        advanceWeek W schedule' st' = Refused
        /\ stateAfter st' (advanceWeek W schedule' st') = st')
  /\ (forall requests,
        let st'' := fold_left (serve W) requests st' in
        finalScore (gameState st'') = finalScore (gameState st')
        /\ gameReleased (gameState st'') = true
        /\ setCommandQueue (commandQueue (gameState st')) st'' = st').
Proof.
  intros Hc Hne Hbp.
  destruct (advanceWeek_completed _ _ _ Hc) as (Hrel & _ & Hall & ->).
  destruct (runTurn_facts schedule st Hrel)
    as (Ha & (_ & _ & Hs) & Hd & _).
  set (t := runTurn W schedule st) in *.
  assert (Hp : producerTask t = Resolved).
  { unfold allResolved in Hall.
    destruct (producerTask t); try reflexivity;
      rewrite ?andb_false_r in Hall; cbn in Hall; try discriminate;
      destruct (inquisitorTask t) as [[]|]; discriminate. }
  assert (R : gameReleased (gameState (sim t)) = true)
    by (apply (Hd Hne Hp); exact Hbp).
  assert (R' : gameReleased (gameState (finishTurn (sim t))) = true)
    by exact R.
  split; [exact R'|]. split.
  { intros log s H. apply Qle_bool_iff in H. unfold producerEnd.
    cbn [setProducer updGame updActivity gameState buildProgress].
    rewrite H. split; reflexivity. }
  split.
  { destruct (Hs R) as (hype & Hh & Hf). exists hype.
    split; [destruct Hh as [E|[E _]]; [left|right]; exact E|exact Hf]. }
  split.
  { intros schedule'. rewrite (advanceWeek_released schedule' _ R').
    split; reflexivity. }
  intros requests st''.
  destruct (serve_all_released requests _ R') as (E & F & G).
  split; [exact F|]. split; [exact G|exact E].
Qed.

(** C10, as amended.  Take a turn and a moment of its agent phase at
    which release has fired.  If the turn completes, the engine has then
    still incremented [currentWeek] and recomputed [designCompleteness];
    the score was computed from the [designCompleteness] of before the
    turn; and from that moment to the end of the turn [finalScore],
    [gameReleased], [buildProgress], the bug count, the quantum core and
    the bug ledger do not change, while the question ledger can only grow
    at its end.  After the agents have all finished, only [currentWeek],
    [designCompleteness], the waiting flag and the status text change. *)
Theorem C10_remainder_of_release_turn before after st :
  gameReleased (gameState st) = false ->
  isWaitingForAgents st = false ->
  let atRelease := runTurn W before st in
  let atJoin := fold_left deliver after atRelease in
  gameReleased (gameState (sim atRelease)) = true ->
  allResolved atJoin = true ->
  let st' := finishTurn (sim atJoin) in
  advanceWeek W (before ++ after) st = Completed st'
  /\ currentWeek (gameState st') = currentWeek (gameState st) + 1
  /\ designCompleteness (gameState st')
     = designCompletenessOf (lengthZ (quantumCore st'))
         (lengthZ (openQuestionsOf st'))
  /\ (exists hype,
        (hype = marketHype (gameState st)
         \/ hype = marketHype (gameState st'))
        /\ finalScore (gameState (sim atRelease))
           = scoreOf (designCompleteness (gameState st)) hype
               (bugs (gameState (sim atRelease))))
  /\ (finalScore (gameState st') = finalScore (gameState (sim atRelease))
      /\ gameReleased (gameState st') = true
      /\ buildProgress (gameState st')
         = buildProgress (gameState (sim atRelease))
      /\ bugs (gameState st') = bugs (gameState (sim atRelease))
      /\ quantumCore st' = quantumCore (sim atRelease)
      /\ bugReports st' = bugReports (sim atRelease))
  /\ (exists more,
        unansweredQuestions st'
        = unansweredQuestions (sim atRelease) ++ more)
  /\ setDesignCompleteness (designCompleteness (gameState (sim atJoin)))
       (setCurrentWeek (currentWeek (gameState (sim atJoin)))
          (setWaitingState (isWaitingForAgents (sim atJoin))
             (agentStatusText (sim atJoin)) st'))
     = sim atJoin.
Proof.
  intros Hrel Hw atRelease atJoin R Hall st'.
  assert (E : runTurn W (before ++ after) st = atJoin).
  { unfold runTurn. rewrite fold_left_app. reflexivity. }
  destruct (runTurn_facts (before ++ after) st Hrel)
    as (_ & (_ & _ & Hs) & _ & Hwk & _).
  rewrite E in Hs, Hwk.
  destruct (runTurn_facts before st Hrel) as (Ha & Hsc & _).
  fold atRelease in Ha, Hsc.
  assert (Hadv : advances (sim atRelease) (sim atJoin)).
  { subst atJoin. clear -Ha. revert Ha. generalize atRelease.
    induction after as [|ev l IH]; intros t Ha; cbn [fold_left].
    - apply advances_refl.
    - pose proof (deliver_delivered W t ev Ha) as D.
      eapply advances_trans; [apply (delivered_advances W _ _ D)|].
      apply IH. apply (delivered_agentsOK W _ _ Ha D). }
  destruct Hadv as (A1 & A2 & A3 & A4 & A5 & A6 & A7 & A8 & A9 & A10 & A11).
  destruct (A11 R) as (R2 & F2 & G2 & B2).
  split.
  { unfold advanceWeek. rewrite Hrel, Hw, E, Hall. reflexivity. }
  split; [subst st'; cbn; rewrite Hwk; reflexivity|].
  split; [reflexivity|].
  split.
  { destruct (Hs R2) as (hype & Hh & Hf). exists hype.
    split; [destruct Hh as [H|[H _]]; [left|right]; exact H|].
    rewrite <- F2, <- G2. exact Hf. }
  split.
  { subst st'. cbn [finishTurn gameState finalScore gameReleased
                    buildProgress bugs quantumCore bugReports
                    setDesignCompleteness setCurrentWeek setWaitingState
                    updGame].
    repeat split; assumption. }
  split; [exact A10|].
  subst st'. destruct (sim atJoin) as [w a [] q u b n]. reflexivity.
Qed.

End Turns.

(** ** Turns can complete *)

Section Completion.

Variable W : World.
Hypothesis unit_draws : forall k, unitInterval (random W k).

Lemma producerTurn_not_rejected s :
  snd (producerTurn W s) <> Rejected.
Proof.
  unfold producerTurn.
  destruct ((List.length (quantumCore s) =? 0)%nat
            || gameReleased (gameState s)); [discriminate|].
  cbv zeta.
  change (openQuestionsOf (setBudget _ s)) with (openQuestionsOf s).
  destruct (0 <? List.length (openQuestionsOf s))%nat eqn:P;
    [|discriminate].
  cbn [mathRandom]. destruct (Qlt_bool _ _); [|discriminate].
  assert (Hne : openQuestionsOf s <> []).
  { intros E. rewrite E in P. discriminate. }
  destruct (atIndex_pick (openQuestionsOf s)
              (random W (S (randomCalls s))) (unit_draws _) Hne)
    as (q & Hq & _).
  cbn [randomCalls setRandomCalls setBuildProgress setBudget updGame].
  rewrite Hq. discriminate.
Qed.

Lemma launch_not_rejected st :
  producerTask (launch W st) <> Rejected.
Proof.
  unfold launch. destruct (commandStep W st) as [processed s1].
  destruct (launchInquisitor W processed _) as [s3 ti].
  pose proof (producerTurn_not_rejected s3) as H.
  destruct (producerTurn W s3) as [s4 tp].
  destruct (marketingTurn (activateMarketing s4)) as [s6 tm].
  exact H.
Qed.

(** Answers to the Inquisitor until its loop is over. *)
Lemma inquisitor_finishes todo : forall acc s t,
  inquisitorTask t = Some (snd (inquisitorLoop W todo acc s)) ->
  exists schedule,
    let t' := fold_left deliver schedule t in
    inquisitorTask t' = Some Resolved
    /\ producerTask t' = producerTask t
    /\ marketingTask t' = marketingTask t.
Proof.
  induction todo as [|q rest IH]; intros acc s t H.
  - exists []. cbn [fold_left]. auto.
  - cbn [inquisitorLoop] in H. destruct (fromAnswer q); [eauto|].
    cbn [snd] in H.
    assert (D : deliver t (Inquisitor, "")
                = mkTurn (fst (inquisitorLoop W rest acc (sim t)))
                    (Some (snd (inquisitorLoop W rest acc (sim t))))
                    (producerTask t) (marketingTask t)).
    { cbn [deliver]. rewrite H. cbn [acceptQuestion].
      destruct (inquisitorLoop W rest acc (sim t)); reflexivity. }
    destruct (IH acc (sim t) (deliver t (Inquisitor, "")))
      as (schedule & H1 & H2 & H3).
    { rewrite D. reflexivity. }
    exists ((Inquisitor, "") :: schedule). cbn [fold_left].
    rewrite D in *. auto.
Qed.

(** Under some schedule the turn runs to its end. *)
Lemma turn_can_complete st :
  gameReleased (gameState st) = false ->
  isWaitingForAgents st = false ->
  exists schedule st', advanceWeek W schedule st = Completed st'.
Proof.
  intros Hrel Hw.
  destruct (launch_facts W st Hrel) as ((Hi & _ & _) & _).
  assert (H1 : exists s1,
             let t1 := fold_left deliver s1 (launch W st) in
             allResolved (mkTurn (sim t1) (inquisitorTask t1) Resolved Resolved)
             = true
             /\ producerTask t1 = producerTask (launch W st)
             /\ marketingTask t1 = marketingTask (launch W st)).
  { destruct (inquisitorTask (launch W st)) as [ti|] eqn:E.
    - destruct Hi as (todo & acc & s & ->).
      destruct (inquisitor_finishes todo acc s _ E) as (s1 & A & B & C).
      exists s1. cbv zeta in *. unfold allResolved. cbn. rewrite A. auto.
    - exists []. cbn [fold_left]. unfold allResolved. cbn. rewrite E. auto. }
  destruct H1 as (s1 & Hall & Hp & Hm).
  set (t1 := fold_left deliver s1 (launch W st)) in *. cbv zeta in Hall.
  assert (Ha1 : agentsOK W t1).
  { subst t1. assert (Ha : agentsOK W (launch W st))
      by (apply launch_facts; exact Hrel).
    revert Ha. generalize (launch W st). clear.
    induction s1 as [|ev l IH]; intros t Ha; cbn [fold_left]; [exact Ha|].
    apply IH. apply (delivered_agentsOK W t); [exact Ha|].
    apply deliver_delivered. exact Ha. }
  exists (s1 ++ [(Producer, ""); (Marketing, "")]).
  eexists. unfold advanceWeek. rewrite Hrel, Hw. cbn [orb].
  unfold runTurn. rewrite fold_left_app. fold t1. cbn [fold_left].
  assert (R : allResolved
                (deliver (deliver t1 (Producer, "")) (Marketing, "")) = true).
  { destruct Ha1 as (_ & Hpt & Hmt).
    assert (Hnr : producerTask t1 <> Rejected)
      by (rewrite Hp; apply launch_not_rejected).
    unfold allResolved in *. cbn [inquisitorTask producerTask marketingTask]
      in Hall.
    destruct Hpt as [Ep|[Ep|[(p & u & q & log & Ep) _]]];
      [|contradiction|];
      destruct Hmt as [Em|(p' & u' & Em)];
      cbn [deliver]; rewrite ?Ep; cbn [deliver producerResume];
      unfold producerResume, marketingResume;
      cbn [isFallback negb fst snd inquisitorTask producerTask marketingTask];
      rewrite ?Em; cbn [inquisitorTask producerTask marketingTask isResolved];
      rewrite ?Ep; cbn [isResolved]; exact Hall. }
  rewrite R. reflexivity.
Qed.

End Completion.

(** ** Strings, keywords and the answer pattern *)

Section Strings.

Lemma prefix_append p : forall s, String.prefix p (p ++ s)%string = true.
Proof.
  induction p as [|c p IH]; intros s; cbn [String.append String.prefix].
  - destruct s; reflexivity.
  - destruct (ascii_dec c c); [apply IH|congruence].
Qed.

Lemma prefix_split p : forall s,
  String.prefix p s = true -> exists post, s = (p ++ post)%string.
Proof.
  induction p as [|c p IH]; intros s H.
  - exists s. reflexivity.
  - destruct s as [|d s]; cbn [String.prefix] in H; [discriminate|].
    destruct (ascii_dec c d) as [<-|]; [|discriminate].
    destruct (IH s H) as [post ->]. exists post. reflexivity.
Qed.

Lemma append_assoc (a b c : string) :
  ((a ++ b) ++ c = a ++ (b ++ c))%string.
Proof. induction a as [|x a IH]; cbn; [reflexivity|]. rewrite IH. reflexivity. Qed.

(** [includes] is the substring test. *)
Lemma includes_spec s p :
  includes s p = true <-> exists pre post, s = (pre ++ p ++ post)%string.
Proof.
  split.
  - induction s as [|c s IH]; cbn [includes]; intros H.
    + rewrite orb_false_r in H. destruct (prefix_split _ _ H) as [post E].
      exists EmptyString, post. exact E.
    + apply orb_true_iff in H. destruct H as [H|H].
      * destruct (prefix_split _ _ H) as [post E].
        exists EmptyString, post. exact E.
      * destruct (IH H) as (pre & post & ->).
        exists (String c pre), post. reflexivity.
  - intros (pre & post & ->). induction pre as [|c pre IH].
    + cbn [String.append].
      destruct (p ++ post)%string eqn:E; cbn [includes];
        rewrite <- E, prefix_append; reflexivity.
    + cbn [String.append includes]. rewrite IH. apply orb_true_r.
Qed.

Lemma takeWhile_dropWhile f s :
  s = (takeWhile f s ++ dropWhile f s)%string.
Proof.
  induction s as [|c s IH]; cbn [takeWhile dropWhile]; [reflexivity|].
  destruct (f c); cbn [String.append]; [rewrite <- IH|]; reflexivity.
Qed.

Lemma takeWhile_all f s : allChars f (takeWhile f s) = true.
Proof.
  induction s as [|c s IH]; cbn [takeWhile]; [reflexivity|].
  destruct (f c) eqn:E; cbn [allChars]; [rewrite E, IH|]; reflexivity.
Qed.

Lemma dropWhile_head f s : headIn f (dropWhile f s) = false.
Proof.
  induction s as [|c s IH]; cbn [dropWhile]; [reflexivity|].
  destruct (f c) eqn:E; [exact IH|cbn; exact E].
Qed.

Lemma dropWhile_append f a b :
  allChars f a = true -> headIn f b = false ->
  dropWhile f (a ++ b)%string = b.
Proof.
  intros Ha Hb. induction a as [|c a IH]; cbn [String.append].
  - destruct b as [|d b]; cbn [dropWhile]; [reflexivity|].
    cbn in Hb. rewrite Hb. reflexivity.
  - cbn [allChars] in Ha. apply andb_true_iff in Ha. destruct Ha as [Hc Ha].
    cbn [dropWhile]. rewrite Hc. apply IH. exact Ha.
Qed.

Lemma takeWhile_append f a b :
  allChars f a = true -> headIn f b = false ->
  takeWhile f (a ++ b)%string = a.
Proof.
  intros Ha Hb. induction a as [|c a IH]; cbn [String.append].
  - destruct b as [|d b]; cbn [takeWhile]; [reflexivity|].
    cbn in Hb. rewrite Hb. reflexivity.
  - cbn [allChars] in Ha. apply andb_true_iff in Ha. destruct Ha as [Hc Ha].
    cbn [takeWhile]. rewrite Hc, IH by exact Ha. reflexivity.
Qed.

Lemma length_append (a b : string) :
  String.length (a ++ b)%string = (String.length a + String.length b)%nat.
Proof. induction a as [|c a IH]; cbn; [reflexivity|]. rewrite IH. reflexivity. Qed.

Lemma allSpace_allChars s : allSpace s = allChars isSpace s.
Proof. induction s as [|c s IH]; cbn; [reflexivity|]. rewrite IH. reflexivity. Qed.

End Strings.

(** ** The Translator, keyword by keyword *)

Section TranslatorKeywords.

Variable W : World.

(** X1.  A quantum template is created exactly when its keyword occurs
    somewhere in the lower-cased command. *)
Theorem translator_template_iff input ty d :
  In (ty, d) (newQuantaOf input) <->
  exists kw pre post,
    In (kw, (ty, d)) keywords
    /\ toLowerCase input = (pre ++ kw ++ post)%string.
Proof.
  unfold newQuantaOf. rewrite in_map_iff. split.
  - intros ([kw x] & E & Hin). cbn [snd] in E. subst x.
    apply filter_In in Hin. destruct Hin as [Hin Hinc]. cbn [fst] in Hinc.
    apply includes_spec in Hinc. destruct Hinc as (pre & post & E).
    exists kw, pre, post. auto.
  - intros (kw & pre & post & Hin & E).
    exists (kw, (ty, d)). split; [reflexivity|].
    apply filter_In. split; [exact Hin|]. cbn [fst].
    apply includes_spec. exists pre, post. exact E.
Qed.

Lemma filter_sorted {A B} (R : B -> B -> Prop) (g : A -> B) (f : A -> bool)
  (l : list A) :
  StronglySorted R (map g l) -> StronglySorted R (map g (filter f l)).
Proof.
  induction l as [|x l IH]; cbn [map filter]; intros H; [constructor|].
  inversion H as [|y m Hs Hall]; subst.
  destruct (f x); cbn [map]; [|auto].
  constructor; [auto|].
  rewrite Forall_forall in *. intros b Hb. apply Hall.
  apply in_map_iff in Hb. destruct Hb as (a & <- & Ha).
  apply filter_In in Ha. apply in_map. apply Ha.
Qed.

(** X2.  One command creates at most one quantum per type, at most seven
    in all, in the order of the keyword tests, however often a keyword
    occurs. *)
Theorem translator_order input :
  StronglySorted (fun a b => (typeRank a < typeRank b)%nat)
    (map fst (newQuantaOf input))
  /\ NoDup (map fst (newQuantaOf input))
  /\ (List.length (newQuantaOf input) <= 7)%nat.
Proof.
  assert (S : StronglySorted (fun a b => (typeRank a < typeRank b)%nat)
                (map fst (newQuantaOf input))).
  { unfold newQuantaOf. rewrite map_map.
    apply filter_sorted. cbn. repeat constructor. }
  split; [exact S|]. split.
  - induction S as [|a l _ IH Hall]; constructor; [|exact IH].
    intros Hin. rewrite Forall_forall in Hall. apply Hall in Hin. lia.
  - unfold newQuantaOf. rewrite length_map.
    eapply Nat.le_trans; [apply filter_length_le|]. cbn. lia.
Qed.

Lemma pushQuanta_effect input l : forall st,
  exists added,
    quantumCore (pushQuanta W input l st) = quantumCore st ++ added
    /\ map (fun q => (quantumType q, data q)) added = l
    /\ Forall (fun q => version q = 1 /\ status q = "Active"
                        /\ createdAt q = weekString st
                        /\ declarationSource q = input) added
    /\ map quantumId added
       = map (fun i => ("q-" ++ substring 2 9 (base36 W (random W i)))%string)
           (seq (randomCalls st) (List.length l))
    /\ randomCalls (pushQuanta W input l st)
       = (randomCalls st + List.length l)%nat.
Proof.
  induction l as [|[ty d] l IH]; intros st; cbn [pushQuanta].
  - exists []. rewrite app_nil_r, Nat.add_0_r. cbn. auto.
  - cbn [generateId mathRandom].
    match goal with |- context [pushQuanta W input l ?s] =>
      destruct (IH s) as (added & Hc & Hm & Hf & Hi & Hr) end.
    eexists (_ :: added). rewrite Hc, Hr.
    cbn [quantumCore setQuantumCore setRandomCalls randomCalls].
    rewrite <- app_assoc. cbn [app]. split; [reflexivity|].
    split; [cbn [map quantumType data]; rewrite Hm; reflexivity|].
    split; [constructor; [cbn; auto|exact Hf]|].
    split; [cbn [map quantumId List.length seq]; rewrite Hi; reflexivity|].
    cbn [List.length]. lia.
Qed.

Lemma translatorTurn_queue input st :
  commandQueue (gameState (snd (translatorTurn W input st)))
  = commandQueue (gameState st).
Proof.
  unfold translatorTurn.
  destruct (0 <? List.length (newQuantaOf input))%nat; cbn [snd];
    [|reflexivity].
  cbn [setTranslator updGame updActivity gameState commandQueue].
  rewrite (proj1 (pushQuanta_frame W input (newQuantaOf input) _)).
  reflexivity.
Qed.

(** X3.  [translatorTurn] appends to the quantum core, after the quanta
    already there, one quantum per matched template, with version 1, status
    Active, the current week and the whole command as source, and ids made
    from consecutive random draws; it reports whether it appended any, and
    touches neither the metrics nor the ledgers nor the command queue. *)
Theorem translatorTurn_effect input st :
  let r := translatorTurn W input st in
  exists added,
    quantumCore (snd r) = quantumCore st ++ added
    /\ map (fun q => (quantumType q, data q)) added = newQuantaOf input
    /\ Forall (fun q => version q = 1 /\ status q = "Active"
                        /\ createdAt q
                           = ("Week " ++ ofZ (currentWeek (gameState st)))%string
                        /\ declarationSource q = input) added
    /\ map quantumId added
       = map (fun i => ("q-" ++ substring 2 9 (base36 W (random W i)))%string)
           (seq (randomCalls st) (List.length added))
    /\ randomCalls (snd r) = (randomCalls st + List.length added)%nat
    /\ fst r = (0 <? List.length added)%nat
    /\ metrics (snd r) = metrics st
    /\ commandQueue (gameState (snd r)) = commandQueue (gameState st)
    /\ unansweredQuestions (snd r) = unansweredQuestions st
    /\ bugReports (snd r) = bugReports st.
Proof.
  intros r.
  destruct (translatorTurn_metrics W input st) as [Hm Hb].
  pose proof (translatorTurn_questions W input st) as Hu.
  pose proof (translatorTurn_queue input st :
                commandQueue (gameState (snd r)) = commandQueue (gameState st))
    as Hq.
  subst r. unfold translatorTurn in *.
  destruct (0 <? List.length (newQuantaOf input))%nat eqn:E; cbn [fst snd] in *.
  - destruct (pushQuanta_effect input (newQuantaOf input)
                (setTranslator (Parsing (substring 0 30 input)) st))
      as (added & Hc & Hmap & Hf & Hi & Hr).
    exists added.
    assert (Hl : List.length added = List.length (newQuantaOf input))
      by (rewrite <- Hmap, length_map; reflexivity).
    rewrite Hl, E.
    cbn [setTranslator updGame quantumCore randomCalls] in *.
    repeat (split; [assumption || reflexivity|]). exact Hb.
  - apply Nat.ltb_ge in E.
    assert (N : newQuantaOf input = []).
    { destruct (newQuantaOf input); [reflexivity|cbn in E; lia]. }
    exists []. rewrite N, app_nil_r, Nat.add_0_r. cbn [map List.length seq].
    repeat (split; [assumption || reflexivity || constructor|]). exact Hb.
Qed.

End TranslatorKeywords.

(** ** The answer pattern *)

Section AnswerPattern.

Lemma matchAnswer_here s qid :
  matchAnswerAt s = Some qid -> matchAnswer s = Some qid.
Proof. intros H. destruct s; cbn [matchAnswer]; rewrite H; reflexivity. Qed.

(** The pattern matches at the start of an answer command. *)
Lemma matchAnswerAt_command ws body post :
  ws <> EmptyString -> allChars isSpace ws = true ->
  body <> EmptyString -> allChars isLowerAlnum body = true ->
  headIn isLowerAlnum post = false ->
  matchAnswerAt (answerCommand ws body post) = Some ("uq-" ++ body)%string.
Proof.
  intros Hws Hsp Hb Hal Hpost.
  unfold matchAnswerAt, answerCommand.
  rewrite prefix_append.
  change (drop 7 ("/answer" ++ ws ++ "uq-" ++ body ++ post)%string)
    with (ws ++ "uq-" ++ body ++ post)%string.
  rewrite (dropWhile_append isSpace ws _ Hsp) by reflexivity.
  rewrite prefix_append.
  assert (L : (String.length ("uq-" ++ body ++ post)
               <? String.length (ws ++ "uq-" ++ body ++ post))%nat = true).
  { apply Nat.ltb_lt. rewrite (length_append ws).
    destruct ws; [congruence|cbn [String.length]; lia]. }
  rewrite L. cbn [andb].
  change (drop 3 ("uq-" ++ body ++ post)%string) with (body ++ post)%string.
  rewrite (takeWhile_append isLowerAlnum body post Hal Hpost).
  destruct body; [congruence|reflexivity].
Qed.

(** X4.  A command made of [/answer], at least one white space character,
    [uq-] and a non-empty id body of characters [[a-z0-9]], followed by
    anything that does not continue the body, yields exactly that id. *)
Theorem matchAnswer_complete ws body post :
  ws <> EmptyString -> allChars isSpace ws = true ->
  body <> EmptyString -> allChars isLowerAlnum body = true ->
  headIn isLowerAlnum post = false ->
  matchAnswer (answerCommand ws body post) = Some ("uq-" ++ body)%string.
Proof.
  intros Hws Hsp Hb Hal Hpost. apply matchAnswer_here.
  apply matchAnswerAt_command; assumption.
Qed.

Lemma drop_prefix p : forall s,
  String.prefix p s = true ->
  s = (p ++ drop (String.length p) s)%string.
Proof.
  induction p as [|c p IH]; intros s H; cbn [String.length drop].
  - destruct s; reflexivity.
  - destruct s as [|d s]; cbn [String.prefix] in H; [discriminate|].
    destruct (ascii_dec c d) as [<-|]; [|discriminate].
    cbn [String.append]. rewrite <- (IH s H). reflexivity.
Qed.

Lemma matchAnswerAt_sound s qid :
  matchAnswerAt s = Some qid ->
  exists ws body post,
    s = answerCommand ws body post
    /\ ws <> EmptyString /\ allChars isSpace ws = true
    /\ body <> EmptyString /\ allChars isLowerAlnum body = true
    /\ headIn isLowerAlnum post = false
    /\ qid = ("uq-" ++ body)%string.
Proof.
  unfold matchAnswerAt.
  destruct (String.prefix "/answer" s) eqn:P; [|discriminate].
  pose proof (drop_prefix _ _ P) as Es. cbn [String.length] in Es.
  set (r := drop 7 s) in *.
  destruct ((String.length (dropWhile isSpace r) <? String.length r)%nat
            && String.prefix "uq-" (dropWhile isSpace r)) eqn:C;
    [|discriminate].
  apply andb_true_iff in C. destruct C as [L U]. apply Nat.ltb_lt in L.
  pose proof (drop_prefix _ _ U) as Er. cbn [String.length] in Er.
  set (x := drop 3 (dropWhile isSpace r)) in *.
  destruct (isEmpty (takeWhile isLowerAlnum x)) eqn:B; [discriminate|].
  intros [= <-].
  exists (takeWhile isSpace r), (takeWhile isLowerAlnum x),
         (dropWhile isLowerAlnum x).
  split.
  { unfold answerCommand. rewrite <- (takeWhile_dropWhile isLowerAlnum x).
    rewrite <- Er, <- (takeWhile_dropWhile isSpace r). exact Es. }
  split.
  { intros E. pose proof (takeWhile_dropWhile isSpace r) as T.
    rewrite E in T. cbn [String.append] in T. rewrite <- T in L. lia. }
  split; [apply takeWhile_all|].
  split; [intros E; rewrite E in B; discriminate|].
  split; [apply takeWhile_all|].
  split; [apply dropWhile_head|reflexivity].
Qed.

(** X5.  Whatever id [matchAnswer] extracts sits in the command behind
    [/answer] and white space, begins with [uq-], and its body is a
    non-empty maximal run of characters [[a-z0-9]]: ids with other
    characters are never extracted. *)
Theorem matchAnswer_sound s qid :
  matchAnswer s = Some qid ->
  exists pre ws body post,
    s = (pre ++ answerCommand ws body post)%string
    /\ ws <> EmptyString /\ allChars isSpace ws = true
    /\ body <> EmptyString /\ allChars isLowerAlnum body = true
    /\ headIn isLowerAlnum post = false
    /\ qid = ("uq-" ++ body)%string.
Proof.
  induction s as [|c s IH]; cbn [matchAnswer].
  - destruct (matchAnswerAt "") eqn:M; [|discriminate].
    intros [= <-]. destruct (matchAnswerAt_sound _ _ M) as (ws & b & p & H).
    exists EmptyString, ws, b, p. exact H.
  - destruct (matchAnswerAt (String c s)) eqn:M.
    + intros [= <-]. destruct (matchAnswerAt_sound _ _ M) as (ws & b & p & H).
      exists EmptyString, ws, b, p. exact H.
    + intros H. destruct (IH H) as (pre & ws & b & p & -> & R).
      exists (String c pre), ws, b, p. split; [reflexivity|exact R].
Qed.

End AnswerPattern.

(** ** Every request is a sequence of assignments *)

Section Steps.

Variable W : World.

Lemma steps_refl s : steps s s.
Proof. apply rt_refl. Qed.

Lemma steps_trans a b c : steps a b -> steps b c -> steps a c.
Proof. apply rt_trans. Qed.

Lemma steps_one a b : prim a b -> steps a b.
Proof. apply rt_step. Qed.

Lemma steps_then a b c : steps a b -> prim b c -> steps a c.
Proof. intros H P. eapply rt_trans; [exact H|apply rt_step; exact P]. Qed.

Lemma steps_activity a s : steps s (setProducer a s)
  /\ steps s (setTranslator a s) /\ steps s (setInquisitor a s)
  /\ steps s (setMarketing a s).
Proof. repeat split; apply steps_one; apply p_activity. Qed.

Lemma steps_tick b s : steps s (tick b s).
Proof. destruct b; [apply steps_one, p_random|apply steps_refl]. Qed.

Lemma steps_pushQuanta input l : forall st,
  steps st (pushQuanta W input l st).
Proof.
  induction l as [|[ty d] l IH]; intros st; cbn [pushQuanta];
    [apply steps_refl|].
  cbn [generateId mathRandom].
  eapply steps_trans; [|apply IH].
  eapply steps_then; [apply steps_one, p_random|]. apply p_quantum.
Qed.

Lemma steps_translatorTurn input st :
  steps st (snd (translatorTurn W input st)).
Proof.
  unfold translatorTurn.
  destruct (0 <? List.length (newQuantaOf input))%nat; cbn [snd].
  - eapply steps_then; [|apply p_activity].
    eapply steps_trans; [|apply steps_pushQuanta].
    apply steps_one, p_activity.
  - eapply steps_then; apply steps_one || apply p_activity.
    apply p_activity.
Qed.

Lemma steps_resolveAnswer input st :
  steps st (snd (resolveAnswer W input st)).
Proof.
  unfold resolveAnswer.
  destruct (matchAnswer input) as [qid|];
    [destruct (find (hasId qid) (unansweredQuestions st))|]; cbn [snd];
    try apply steps_translatorTurn.
  eapply steps_then; [|apply p_activity].
  eapply steps_trans; [|apply steps_translatorTurn].
  apply steps_one, p_answer.
Qed.

Lemma steps_commandStep st : steps st (snd (commandStep W st)).
Proof.
  unfold commandStep.
  destruct (commandQueue (gameState st)) as [|input rest];
    [apply steps_refl|].
  assert (Q : steps st (setCommandQueue rest st)) by apply steps_one, p_queue.
  destruct (negb (isEmpty input) && trimNonEmpty input); [|exact Q].
  destruct (startsWith input "/declare").
  - eapply steps_trans; [exact Q|apply steps_translatorTurn].
  - destruct (startsWith input "/answer"); [|exact Q].
    eapply steps_trans; [exact Q|apply steps_resolveAnswer].
Qed.

Lemma steps_producerEnd log s :
  gameReleased (gameState s) = false -> steps s (producerEnd log s).
Proof.
  intros Hrel. unfold producerEnd, releaseGame. cbv zeta.
  destruct (Qle_bool 100 _).
  - eapply steps_then; [|apply p_activity].
    eapply steps_then; [apply steps_one, p_activity|].
    apply (p_release (setProducer log s)). exact Hrel.
  - apply steps_one, p_activity.
Qed.

Lemma steps_producerTurn s : steps s (fst (producerTurn W s)).
Proof.
  unfold producerTurn.
  destruct (gameReleased (gameState s)) eqn:Hrel;
    [rewrite orb_true_r; apply steps_one, p_activity|].
  rewrite orb_false_r.
  destruct (List.length (quantumCore s) =? 0)%nat;
    [apply steps_one, p_activity|].
  cbv zeta.
  change (openQuestionsOf (setBudget _ s)) with (openQuestionsOf s).
  set (n := lengthZ (openQuestionsOf s)).
  assert (S2 : steps s
            (setBuildProgress
               (Qmin 100 (buildProgress (gameState s) + progressFor n))
               (setBudget (budget (gameState s) - weeklySpend (gameState s))
                  s))).
  { eapply steps_then; [apply steps_one, p_budget|].
    apply (p_progress (setBudget _ s) n). }
  destruct (0 <? List.length (openQuestionsOf s))%nat.
  - cbn [mathRandom]. destruct (Qlt_bool _ _).
    + pose proof (steps_then _ _ _ (steps_then _ _ _ S2 (p_random _))
                    (p_random _)) as S4.
      destruct (atIndex _ _); cbn [fst]; exact S4.
    + cbn [fst].
      exact (steps_trans _ _ _ (steps_then _ _ _ S2 (p_random _))
               (steps_producerEnd _
                  (setRandomCalls _ (setBuildProgress _ (setBudget _ s)))
                  Hrel)).
  - cbn [fst]. eapply steps_trans; [exact S2|].
    apply steps_producerEnd. exact Hrel.
Qed.

Lemma steps_marketingEnd s : steps s (marketingEnd s).
Proof. apply steps_one. apply p_hype. Qed.

Lemma steps_marketingTurn s :
  steps s (fst (marketingTurn (activateMarketing s))).
Proof.
  assert (A : steps s (activateMarketing s)).
  { unfold activateMarketing. destruct (5 <? _);
      [apply steps_one, p_activate|apply steps_refl]. }
  eapply steps_trans; [exact A|]. unfold marketingTurn.
  destruct (negb _ || _); [apply steps_one, p_activity|].
  destruct (find hypeable _); cbn [fst];
    [apply steps_refl|apply steps_marketingEnd].
Qed.

Lemma steps_launch st : steps st (sim (launch W st)).
Proof.
  unfold launch.
  pose proof (steps_commandStep st) as C.
  destruct (commandStep W st) as [processed s1]. cbn [snd] in C.
  set (s2 := setWaitingState true "Agents are thinking..." s1).
  assert (S2 : steps st s2)
    by (eapply steps_then; [exact C|apply p_waiting]).
  assert (S3 : steps st (fst (launchInquisitor W processed s2))).
  { unfold launchInquisitor. destruct processed; [|exact S2].
    destruct (inquisitorTurn_prefix W s2) as [a E].
    destruct (inquisitorTurn W s2) as [s' ti]. cbn [fst] in *. subst s'.
    eapply steps_then; [exact S2|apply p_activity]. }
  destruct (launchInquisitor W processed s2) as [s3 ti]. cbn [fst] in S3.
  pose proof (steps_producerTurn s3) as S4.
  destruct (producerTurn W s3) as [s4 tp]. cbn [fst] in S4.
  pose proof (steps_marketingTurn s4) as S6.
  destruct (marketingTurn (activateMarketing s4)) as [s6 tm].
  cbn [fst sim] in *.
  eapply steps_trans; [exact S3|]. eapply steps_trans; eassumption.
Qed.

Lemma steps_delivered t t' :
  delivered W t t' -> steps (sim t) (sim t').
Proof.
  intros [|b ti' s1 _ Hs|log s1 Hrel Hs|a _]; cbn [sim].
  - apply steps_refl.
  - destruct Hs as [->|[acc ->]]; [apply steps_tick|].
    eapply steps_trans; [apply steps_tick|].
    unfold inquisitorEnd. destruct (0 <? List.length acc)%nat.
    + eapply steps_then; [apply steps_one, p_ask|apply p_activity].
    + apply steps_one, p_activity.
  - destruct Hs as [->|[r ->]]; [apply steps_producerEnd; exact Hrel|].
    exact (steps_trans (sim t) (withBug r (sim t)) _
             (steps_then _ _ _ (steps_one _ _ (p_random (sim t)))
                (p_bug (setRandomCalls (S (randomCalls (sim t))) (sim t)) r))
             (steps_producerEnd log (withBug r (sim t)) Hrel)).
  - exact (steps_then _ _ _ (steps_one _ _ (p_activity (sim t) _))
             (p_hype (setMarketing a (sim t)))).
Qed.

Lemma steps_deliveries schedule : forall t,
  agentsOK W t -> steps (sim t) (sim (fold_left deliver schedule t)).
Proof.
  induction schedule as [|ev l IH]; intros t Ha; cbn [fold_left];
    [apply steps_refl|].
  pose proof (deliver_delivered W t ev Ha) as D.
  eapply steps_trans; [apply (steps_delivered _ _ D)|].
  apply IH. apply (delivered_agentsOK W _ _ Ha D).
Qed.

Lemma steps_finishTurn s : steps s (finishTurn s).
Proof.
  unfold finishTurn. cbv zeta.
  exact (steps_then _ _ _
           (steps_then _ _ _
              (steps_one _ _
                 (p_waiting s false
                    "Thinking complete. Proceeding to next week."))
              (p_week _))
           (p_design _)).
Qed.

Lemma steps_submitCommand running command st :
  steps st (submitCommand running command st).
Proof.
  unfold submitCommand.
  destruct (commandQueue (gameState st)); destruct running; cbn [negb];
    try destruct (trimNonEmpty command);
    apply steps_refl || apply steps_one, p_queue.
Qed.

(** Whatever is asked of the core, the state changes by a sequence of the
    assignments listed in [prim]. *)
Lemma serve_steps st r : steps st (serve W st r).
Proof.
  destruct r as [schedule|running command]; cbn [serve];
    [|apply steps_submitCommand].
  unfold advanceWeek.
  destruct (gameReleased (gameState st)) eqn:Hrel; [apply steps_refl|].
  destruct (isWaitingForAgents st); [apply steps_refl|]. cbn [orb].
  assert (R : steps st (sim (runTurn W schedule st))).
  { unfold runTurn. eapply steps_trans; [apply steps_launch|].
    apply steps_deliveries. apply launch_facts. exact Hrel. }
  destruct (allResolved (runTurn W schedule st)); cbn [stateAfter];
    [|exact R].
  eapply steps_trans; [exact R|apply steps_finishTurn].
Qed.

End Steps.

(** ** What no request undoes *)

Section Growth.

Variable W : World.

Lemma aged_refl q : aged q q.
Proof. unfold aged. auto. Qed.

Lemma aged_trans a b c : aged a b -> aged b c -> aged a c.
Proof.
  intros (A1 & A2 & A3 & A4) (B1 & B2 & B3 & B4). unfold aged.
  repeat split; try congruence. auto.
Qed.

Lemma Forall2_aged_refl l : Forall2 aged l l.
Proof. induction l; constructor; auto using aged_refl. Qed.

Lemma Forall2_aged_trans a : forall b c,
  Forall2 aged a b -> Forall2 aged b c -> Forall2 aged a c.
Proof.
  induction a as [|x a IH]; intros b c H1 H2; inversion H1; subst;
    inversion H2; subst; constructor; eauto using aged_trans.
Qed.

Lemma answerFirst_aged qid l : Forall2 aged l (answerFirst qid l).
Proof.
  induction l as [|q l IH]; cbn [answerFirst]; [constructor|].
  destruct (hasId qid q).
  - constructor; [|apply Forall2_aged_refl]. unfold aged. cbn. auto.
  - constructor; [apply aged_refl|exact IH].
Qed.

Lemma grows_refl s : grows s s.
Proof.
  unfold grows. split; [exists []; rewrite app_nil_r; reflexivity|].
  split; [exists []; rewrite app_nil_r; reflexivity|].
  split; [exists (unansweredQuestions s), []; rewrite app_nil_r;
          split; [reflexivity|apply Forall2_aged_refl]|].
  repeat split; auto; lia.
Qed.

Lemma grows_trans a b c : grows a b -> grows b c -> grows a c.
Proof.
  intros ([q1 A1] & [r1 A2] & (o1 & m1 & A3 & A3') & A4 & A5 & A6 & A7)
         ([q2 B1] & [r2 B2] & (o2 & m2 & B3 & B3') & B4 & B5 & B6 & B7).
  unfold grows.
  split; [exists (q1 ++ q2); rewrite B1, A1, app_assoc; reflexivity|].
  split; [exists (r1 ++ r2); rewrite B2, A2, app_assoc; reflexivity|].
  split.
  { rewrite A3 in B3'. apply Forall2_app_inv_l in B3'.
    destruct B3' as (x & y & Hx & Hy & ->).
    exists x, (y ++ m2). rewrite B3, app_assoc. split; [reflexivity|].
    eapply Forall2_aged_trans; eassumption. }
  split; [auto|]. split; [|lia].
  intros H. destruct (A5 H) as [R F]. destruct (B5 R) as [R' F'].
  split; [exact R'|congruence].
Qed.

Ltac sim :=
  cbn [isWaitingForAgents agentStatusText gameState quantumCore
       unansweredQuestions bugReports randomCalls currentWeek projectName
       budget designCompleteness buildProgress bugs marketHype weeklySpend
       marketingActive gameReleased finalScore commandQueue
       lastAgentActivity updGame updActivity setTranslator setInquisitor
       setProducer setMarketing setCurrentWeek setBudget
       setDesignCompleteness setBuildProgress setBugs setMarketHype
       setWeeklySpend setMarketingActive setGameReleased setFinalScore
       setCommandQueue setQuantumCore setUnansweredQuestions setBugReports
       setRandomCalls setWaitingState].

Lemma prim_grows s s' : prim s s' -> grows s s'.
Proof.
  assert (N : forall A (l : list A), exists m, l = l ++ m)
    by (intros A l; exists []; rewrite app_nil_r; reflexivity).
  assert (L : forall l, exists old more,
             l = old ++ more /\ Forall2 aged l old).
  { intros l. exists l, []. rewrite app_nil_r.
    split; [reflexivity|apply Forall2_aged_refl]. }
  intros []; unfold grows; sim;
    (split; [try apply N; eexists; reflexivity|]);
    (split; [try apply N; eexists; reflexivity|]);
    (split; [try apply L|]);
    try (repeat split; auto; try lia; congruence).
  - eexists _, []. rewrite app_nil_r.
    split; [reflexivity|apply answerFirst_aged].
  - eexists _, _. split; [reflexivity|apply Forall2_aged_refl].
Qed.

Lemma steps_grows s s' : steps s s' -> grows s s'.
Proof.
  induction 1 as [a b P| |a b c _ IH1 _ IH2].
  - apply prim_grows. exact P.
  - apply grows_refl.
  - eapply grows_trans; eassumption.
Qed.

Lemma run_steps requests : forall st,
  steps st (fold_left (serve W) requests st).
Proof.
  induction requests as [|r l IH]; intros st; cbn [fold_left].
  - apply rt_refl.
  - eapply rt_trans; [apply serve_steps|apply IH].
Qed.

(** X6.  The quantum core is append-only: whatever requests are served,
    the quanta already there stay, unchanged and in place, and new ones come
    after them. *)
Theorem quantum_core_append_only requests st :
  exists added,
    quantumCore (fold_left (serve W) requests st) = quantumCore st ++ added.
Proof. apply (steps_grows _ _ (run_steps requests st)). Qed.

(** X7.  The question ledger never loses or reorders a question: whatever
    requests are served, every question keeps its place, id, text and
    back-reference; an Answered question stays Answered; new questions come
    after the old ones. *)
Theorem question_ledger_ages requests st :
  exists old more,
    unansweredQuestions (fold_left (serve W) requests st) = old ++ more
    /\ Forall2
         (fun q q' =>
            id q' = id q /\ text q' = text q
            /\ sourceQuantumId q' = sourceQuantumId q
            /\ (qstatus q = Answered -> qstatus q' = Answered))
         (unansweredQuestions st) old.
Proof. apply (steps_grows _ _ (run_steps requests st)). Qed.

(** X8.  Nothing is switched back: whatever requests are served, bug
    reports are only appended, an active Marketing stays active, a released
    game stays released with the same final score, and neither the weekly
    spend nor the week number ever goes down. *)
Theorem one_way_state requests st :
  let st' := fold_left (serve W) requests st in
  (exists more, bugReports st' = bugReports st ++ more)
  /\ (marketingActive (gameState st) = true ->
      marketingActive (gameState st') = true)
  /\ (gameReleased (gameState st) = true ->
      gameReleased (gameState st') = true
      /\ finalScore (gameState st') = finalScore (gameState st))
  /\ weeklySpend (gameState st) <= weeklySpend (gameState st')
  /\ currentWeek (gameState st) <= currentWeek (gameState st').
Proof.
  intros st'.
  destruct (steps_grows _ _ (run_steps requests st))
    as (_ & H2 & _ & H4 & H5 & H6 & H7).
  auto.
Qed.

End Growth.

(** ** Ranges and bookkeeping *)

Section Sanity.

Variable W : World.

Lemma score_range (d h : Q) (b : Z) :
  (0 <= d <= 100)%Q -> (0 <= h <= 100)%Q -> 0 <= b ->
  (0 <= scoreOf d h b <= 100)%Q.
Proof.
  intros Hd Hh Hb. unfold scoreOf. cbv zeta.
  assert (Hq : (0 <= Qmax 0 (100 - inject_Z b * 2) <= 100)%Q).
  { split; [apply Q.le_max_l|]. apply Q.max_lub; [discriminate|].
    assert (0 <= inject_Z b)%Q
      by (change 0%Q with (inject_Z 0); rewrite <- Zle_Qle; exact Hb).
    lra. }
  set (q := Qmax 0 (100 - inject_Z b * 2)) in *. lra.
Qed.

Lemma design_range (q o : Z) :
  0 <= q -> 0 <= o -> (0 <= designCompletenessOf q o <= 100)%Q.
Proof.
  intros Hq Ho. unfold designCompletenessOf. cbv zeta.
  destruct (0 <? q + o) eqn:E.
  - apply Z.ltb_lt in E.
    assert (Hp : (0 < inject_Z (q + o))%Q)
      by (change 0%Q with (inject_Z 0); rewrite <- Zlt_Qlt; exact E).
    assert (H0 : (0 <= inject_Z q)%Q)
      by (change 0%Q with (inject_Z 0); rewrite <- Zle_Qle; exact Hq).
    assert (H1 : (inject_Z q <= inject_Z (q + o))%Q)
      by (rewrite <- Zle_Qle; lia).
    assert (Hd : (0 <= inject_Z q / inject_Z (q + o) <= 1)%Q).
    { split.
      - apply Qle_shift_div_l; [exact Hp|]. lra.
      - apply Qle_shift_div_r; [exact Hp|]. lra. }
    set (x := (inject_Z q / inject_Z (q + o))%Q) in *. lra.
  - destruct (0 <? q); split; discriminate.
Qed.

Lemma lengthZ_nonneg {A} (l : list A) : 0 <= lengthZ l.
Proof. unfold lengthZ. lia. Qed.

Lemma lengthZ_snoc {A} (l : list A) x : lengthZ (l ++ [x]) = lengthZ l + 1.
Proof. unfold lengthZ. rewrite length_app. cbn [List.length]. lia. Qed.

Ltac sim :=
  cbn [isWaitingForAgents agentStatusText gameState quantumCore
       unansweredQuestions bugReports randomCalls currentWeek projectName
       budget designCompleteness buildProgress bugs marketHype weeklySpend
       marketingActive gameReleased finalScore commandQueue
       lastAgentActivity updGame updActivity setTranslator setInquisitor
       setProducer setMarketing setCurrentWeek setBudget
       setDesignCompleteness setBuildProgress setBugs setMarketHype
       setWeeklySpend setMarketingActive setGameReleased setFinalScore
       setCommandQueue setQuantumCore setUnansweredQuestions setBugReports
       setRandomCalls setWaitingState].

Lemma prim_sane s s' : prim s s' -> sane s -> sane s'.
Proof.
  intros P (Hb & Hm & Hd & Hf & Hg & Hw & Hk).
  destruct P; unfold sane; sim;
    try (repeat split; tauto || lia).
  - (* progress *)
    assert (Hp : (0.5 <= progressFor n)%Q) by apply Q.le_max_l.
    repeat split; try tauto; try lia.
    + apply Q.min_glb; [discriminate|]. lra.
    + apply Q.le_min_l.
  - (* bug *)
    rewrite lengthZ_snoc. repeat split; try tauto; lia.
  - (* release *)
    pose proof (lengthZ_nonneg (bugReports s)).
    pose proof (score_range _ _ (bugs (gameState s)) Hd Hm
                  ltac:(lia)).
    repeat split; try tauto; lia.
  - (* hype *)
    assert (Hh : (0 <= inject_Z (lengthZ (quantumCore s)) / 2)%Q).
    { apply Qle_shift_div_l; [reflexivity|].
      change (0 * 2)%Q with (inject_Z 0). rewrite <- Zle_Qle.
      apply lengthZ_nonneg. }
    repeat split; try tauto; try lia.
    + apply Q.min_glb; [discriminate|]. lra.
    + apply Q.le_min_l.
  - (* design *)
    pose proof (design_range _ _ (lengthZ_nonneg (quantumCore s))
                  (lengthZ_nonneg (openQuestionsOf s))).
    repeat split; tauto.
Qed.

Lemma steps_sane s s' : steps s s' -> sane s -> sane s'.
Proof.
  induction 1 as [a b P| |a b c _ IH1 _ IH2]; intros H.
  - apply (prim_sane _ _ P H).
  - exact H.
  - auto.
Qed.

Lemma reachable_sane st : reachable W st -> sane st.
Proof.
  induction 1 as [|st r _ IH].
  - unfold sane. cbn. repeat split; discriminate || reflexivity.
  - apply (steps_sane _ _ (serve_steps W st r) IH).
Qed.

(** X9.  In every state of a run the bug counter equals the number of
    bug reports in the bug ledger. *)
Theorem bugs_match_reports st :
  reachable W st -> bugs (gameState st) = Z.of_nat (List.length (bugReports st)).
Proof. intros H. apply (reachable_sane st H). Qed.

(** X10.  In every state of a run [buildProgress], [marketHype],
    [designCompleteness] and [finalScore] lie between 0 and 100, the weekly
    spend is at least the initial 5000 and the week number at least 1. *)
Theorem metrics_in_range st :
  reachable W st ->
  (0 <= buildProgress (gameState st) <= 100)%Q
  /\ (0 <= marketHype (gameState st) <= 100)%Q
  /\ (0 <= designCompleteness (gameState st) <= 100)%Q
  /\ (0 <= finalScore (gameState st) <= 100)%Q
  /\ 5000 <= weeklySpend (gameState st)
  /\ 1 <= currentWeek (gameState st).
Proof.
  intros H.
  destruct (reachable_sane st H) as (A & B & C & D & _ & E & F). auto 10.
Qed.

End Sanity.

(** ** The exact effect of a turn *)

Section TurnEffect.

Variable W : World.

Ltac sim :=
  cbn [isWaitingForAgents agentStatusText gameState quantumCore
       unansweredQuestions bugReports randomCalls currentWeek projectName
       budget designCompleteness buildProgress bugs marketHype weeklySpend
       marketingActive gameReleased finalScore commandQueue
       lastAgentActivity updGame updActivity setTranslator setInquisitor
       setProducer setMarketing setCurrentWeek setBudget
       setDesignCompleteness setBuildProgress setBugs setMarketHype
       setWeeklySpend setMarketingActive setGameReleased setFinalScore
       setCommandQueue setQuantumCore setUnansweredQuestions setBugReports
       setRandomCalls setWaitingState sim inquisitorTask producerTask
       marketingTask fst snd].

Ltac conj := match goal with |- _ /\ _ => split end.

Lemma resolveAnswer_queue input st :
  commandQueue (gameState (snd (resolveAnswer W input st)))
  = commandQueue (gameState st).
Proof.
  assert (T : forall s, commandQueue (gameState (snd (translatorTurn W input s)))
                        = commandQueue (gameState s)).
  { intros s. apply translatorTurn_queue. }
  unfold resolveAnswer.
  destruct (matchAnswer input) as [qid|];
    [destruct (find (hasId qid) (unansweredQuestions st))|]; cbn [snd];
    try apply T.
  sim. rewrite T. reflexivity.
Qed.

(** The command step takes the first command off the queue, whatever the
    command is. *)
Lemma commandStep_queue st :
  commandQueue (gameState (snd (commandStep W st)))
  = tl (commandQueue (gameState st)).
Proof.
  unfold commandStep.
  destruct (commandQueue (gameState st)) as [|input rest] eqn:Q;
    [cbn [snd]; rewrite Q; reflexivity|].
  cbn [tl].
  destruct (negb (isEmpty input) && trimNonEmpty input); [|reflexivity].
  destruct (startsWith input "/declare").
  - apply translatorTurn_queue.
  - destruct (startsWith input "/answer"); [|reflexivity].
    apply (resolveAnswer_queue input (setCommandQueue rest st)).
Qed.

Lemma producerTurn_effect s :
  gameReleased (gameState s) = false ->
  let s' := fst (producerTurn W s) in
  commandQueue (gameState s') = commandQueue (gameState s)
  /\ weeklySpend (gameState s') = weeklySpend (gameState s)
  /\ budget (gameState s')
     = (if coreEmpty s then budget (gameState s)
        else budget (gameState s) - weeklySpend (gameState s))
  /\ buildProgress (gameState s')
     = (if coreEmpty s then buildProgress (gameState s)
        else Qmin 100 (buildProgress (gameState s)
                       + progressFor (lengthZ (openQuestionsOf s))))
  /\ (coreEmpty s = true -> gameReleased (gameState s') = false).
Proof.
  intros Hrel. unfold producerTurn, coreEmpty. rewrite Hrel, orb_false_r.
  destruct (List.length (quantumCore s) =? 0)%nat; sim; cbv zeta.
  - auto.
  - change (openQuestionsOf (setBudget _ s)) with (openQuestionsOf s).
    destruct (0 <? List.length (openQuestionsOf s))%nat;
      [cbn [mathRandom]; destruct (Qlt_bool _ _);
       [destruct (atIndex _ _)|]|];
      unfold producerEnd, releaseGame; sim;
      try (destruct (Qle_bool 100 _)); sim;
      repeat (conj; [reflexivity|]); discriminate.
Qed.

Lemma marketingTurn_effect s :
  let s' := fst (marketingTurn (activateMarketing s)) in
  let tm := snd (marketingTurn (activateMarketing s)) in
  commandQueue (gameState s') = commandQueue (gameState s)
  /\ budget (gameState s') = budget (gameState s)
  /\ marketingActive (gameState s')
     = marketingActive (gameState s) || (5 <? currentWeek (gameState s))
  /\ (if marketingActive (gameState s') && negb (gameReleased (gameState s))
      then
        (tm = Resolved
         /\ marketHype (gameState s')
            = Qmin 100 (marketHype (gameState s)
                        + inject_Z (lengthZ (quantumCore s')) / 2)
         /\ weeklySpend (gameState s') = weeklySpend (gameState s) + 2000)
        \/ (tm <> Resolved
            /\ marketHype (gameState s') = marketHype (gameState s)
            /\ weeklySpend (gameState s') = weeklySpend (gameState s))
      else
        tm = Resolved
        /\ marketHype (gameState s') = marketHype (gameState s)
        /\ weeklySpend (gameState s') = weeklySpend (gameState s)).
Proof.
  unfold marketingTurn, activateMarketing.
  destruct (5 <? currentWeek (gameState s)); sim;
    destruct (gameReleased (gameState s)) eqn:R;
    destruct (marketingActive (gameState s)) eqn:A;
    cbn [negb orb andb]; sim;
    try (destruct (find hypeable _)); unfold marketingEnd; sim;
    rewrite ?R, ?A; cbn [negb orb andb];
    repeat (conj; [reflexivity|]);
    try (left; repeat split; reflexivity);
    try (right; repeat split; try reflexivity; discriminate);
    repeat split; reflexivity.
Qed.

Lemma delivered_steady t t' :
  delivered W t t' -> steady (sim t) (sim t').
Proof.
  intros [|b ti' s1 _ Hs|log s1 Hrel Hs|a _]; unfold steady.
  - auto.
  - destruct Hs as [->|[acc ->]]; destruct b; unfold tick, inquisitorEnd;
      try destruct (0 <? List.length acc)%nat; sim; auto.
  - unfold producerEnd, releaseGame.
    destruct Hs as [->|[r ->]]; unfold withBug; sim;
      destruct (Qle_bool 100 _); sim; auto.
  - unfold marketingEnd. sim. auto.
Qed.

Lemma delivered_marketed ran st0 t t' :
  marketed ran st0 t -> delivered W t t' -> marketed ran st0 t'.
Proof.
  intros M D. pose proof (delivered_advances W _ _ D) as (_ & _ & _ & Hq & _).
  destruct D as [|b ti' s1 _ Hs|log s1 Hrel Hs|a Hn].
  - exact M.
  - assert (E : marketHype (gameState s1) = marketHype (gameState (sim t))
                /\ weeklySpend (gameState s1)
                   = weeklySpend (gameState (sim t))).
    { destruct Hs as [->|[acc ->]]; destruct b; unfold tick, inquisitorEnd;
        try destruct (0 <? List.length acc)%nat; sim; auto. }
    destruct E as [E1 E2]. cbn [sim] in Hq.
    destruct ran; unfold marketed, hyped, passive in *; sim;
      rewrite ?Hq, E1, E2; exact M.
  - assert (E : marketHype (gameState (producerEnd log s1))
                = marketHype (gameState (sim t))
                /\ weeklySpend (gameState (producerEnd log s1))
                   = weeklySpend (gameState (sim t))).
    { unfold producerEnd, releaseGame.
      destruct Hs as [->|[r ->]]; unfold withBug; sim;
        destruct (Qle_bool 100 _); sim; auto. }
    destruct E as [E1 E2]. cbn [sim] in Hq.
    destruct ran; unfold marketed, hyped, passive in *; sim;
      rewrite ?Hq, E1, E2; exact M.
  - destruct ran; unfold marketed, hyped, passive in *.
    + destruct M as [[E _]|(_ & Hm & Hw)]; [contradiction|].
      left. unfold marketingEnd. sim. rewrite Hm, Hw. auto.
    + destruct M as [E _]. contradiction.
Qed.

(** Once the Producer has finished, no answer changes the bug count or
    the release flag. *)
Lemma deliver_after_producer t ev :
  agentsOK W t -> producerTask t = Resolved ->
  producerTask (deliver t ev) = Resolved
  /\ bugs (gameState (sim (deliver t ev))) = bugs (gameState (sim t))
  /\ gameReleased (gameState (sim (deliver t ev)))
     = gameReleased (gameState (sim t)).
Proof.
  intros (Hi & _ & Hm) Hp. destruct ev as [[| |] reply]; cbn [deliver].
  - destruct (inquisitorTask t) as [[| |p u k]|] eqn:E; auto.
    destruct (inquisitor_resumed W _ p u k reply (sim t) Hi eq_refl)
      as (b & ti' & s1 & -> & _ & Hs).
    sim. split; [exact Hp|].
    destruct Hs as [->|[acc ->]]; destruct b; unfold tick, inquisitorEnd;
      try destruct (0 <? List.length acc)%nat; sim; auto.
  - rewrite Hp. auto.
  - destruct Hm as [->|(p & u & ->)]; [auto|].
    unfold marketingResume, marketingEnd. sim. auto.
Qed.

(** The numeric and queue effects of the agent phase, from the state
    before the turn. *)
Lemma runTurn_effects schedule st :
  gameReleased (gameState st) = false ->
  let s1 := snd (commandStep W st) in
  let t := runTurn W schedule st in
  commandQueue (gameState (sim t)) = tl (commandQueue (gameState st))
  /\ quantumCore (sim t) = quantumCore s1
  /\ isWaitingForAgents (sim t) = true
  /\ marketingActive (gameState (sim t))
     = marketingActive (gameState st) || (5 <? currentWeek (gameState st))
  /\ budget (gameState (sim t))
     = (if coreEmpty s1 then budget (gameState st)
        else budget (gameState st) - weeklySpend (gameState st))
  /\ buildProgress (gameState (sim t))
     = (if coreEmpty s1 then buildProgress (gameState st)
        else Qmin 100 (buildProgress (gameState st)
                       + progressFor (lengthZ (openQuestionsOf s1))))
  /\ (coreEmpty s1 = true ->
      gameReleased (gameState (sim t)) = false
      /\ bugs (gameState (sim t)) = bugs (gameState st))
  /\ (exists ran,
        marketed ran st t
        /\ (marketingActive (gameState (sim t)) = false -> ran = false)
        /\ (marketingActive (gameState (sim t)) = true ->
            gameReleased (gameState (sim t)) = false -> ran = true)).
Proof.
  intros Hrel s1 t.
  (* the launch *)
  assert (L : let t0 := launch W st in
    commandQueue (gameState (sim t0)) = tl (commandQueue (gameState st))
    /\ marketingActive (gameState (sim t0))
       = marketingActive (gameState st) || (5 <? currentWeek (gameState st))
    /\ budget (gameState (sim t0))
       = (if coreEmpty s1 then budget (gameState st)
          else budget (gameState st) - weeklySpend (gameState st))
    /\ buildProgress (gameState (sim t0))
       = (if coreEmpty s1 then buildProgress (gameState st)
          else Qmin 100 (buildProgress (gameState st)
                         + progressFor (lengthZ (openQuestionsOf s1))))
    /\ (coreEmpty s1 = true ->
        gameReleased (gameState (sim t0)) = false
        /\ producerTask t0 = Resolved)
    /\ marketed (marketingActive (gameState (sim t0))
                 && negb (gameReleased (gameState (sim t0)))) st t0).
  { subst s1. unfold launch.
    pose proof (commandStep_queue st) as Hq1.
    destruct (commandStep_metrics W st) as [Hm1 _].
    destruct (commandStep W st) as [processed s1]. cbn [snd] in *.
    set (s2 := setWaitingState true "Agents are thinking..." s1).
    assert (Hq3 : commandQueue (gameState
                    (fst (launchInquisitor W processed s2)))
                  = commandQueue (gameState s1)).
    { unfold launchInquisitor. destruct processed; [|reflexivity].
      destruct (inquisitorTurn_prefix W s2) as [a E].
      destruct (inquisitorTurn W s2) as [s' ti]. cbn [fst] in *. subst s'.
      reflexivity. }
    destruct (launchInquisitor_prefix W processed s2)
      as (Hm3 & _ & Hc3 & Hu3 & _ & _).
    destruct (launchInquisitor W processed s2) as [s3 ti]. cbn [fst snd] in *.
    assert (Hm13 : metrics s3 = metrics st) by (rewrite Hm3; exact Hm1).
    assert (Hrel3 : gameReleased (gameState s3) = false).
    { destruct (metrics_fields _ _ Hm13) as (_ & _ & _ & _ & _ & R & _).
      congruence. }
    assert (E3 : coreEmpty s3 = coreEmpty s1)
      by (unfold coreEmpty; rewrite Hc3; reflexivity).
    assert (O3 : openQuestionsOf s3 = openQuestionsOf s1)
      by (unfold openQuestionsOf; rewrite Hu3; reflexivity).
    destruct (producerTurn_effect s3 Hrel3) as (Q4 & W4 & B4 & P4 & R4).
    destruct (producerTurn_prefix W s3 Hrel3)
      as (Wk4 & _ & M4 & A4 & _ & _ & Hc4 & _ & _ & _ & T4 & _).
    assert (I4 : coreEmpty s3 = true -> snd (producerTurn W s3) = Resolved).
    { unfold producerTurn, coreEmpty. intros ->. reflexivity. }
    destruct (producerTurn W s3) as [s4 tp]. cbn [fst snd] in *.
    destruct (marketingTurn_effect s4) as (Q6 & B6 & A6 & H6).
    destruct (marketingTurn_prefix s4)
      as (Hm6 & _ & Hc6 & _ & _ & _ & _ & _ & _).
    destruct (marketingTurn (activateMarketing s4)) as [s6 tm].
    cbn [fst snd] in *.
    destruct (metrics_fields _ _ Hm6) as (W6 & _ & P6 & _ & _ & R6 & _).
    cbn [gameState currentWeek buildProgress gameReleased setMarketHype
         setWeeklySpend setMarketingActive updGame] in W6, P6, R6.
    unfold metrics in Hm13.
    injection Hm13 as K1 K2 _ K4 _ K6 K7 K8 _ _.
    sim. rewrite E3, O3 in *.
    split; [congruence|].
    split.
    { rewrite A6, A4, K8, Wk4, K1. reflexivity. }
    split; [rewrite B6, B4, K2, K7; reflexivity|].
    split; [rewrite P6, P4, K4; reflexivity|].
    split; [intros E; split; [rewrite R6; auto|auto]|].
    rewrite R6.
    destruct (marketingActive (gameState s6)
              && negb (gameReleased (gameState s4)));
      unfold marketed, hyped, passive; sim.
    - rewrite <- K6, <- M4, <- K7, <- W4. exact H6.
    - rewrite <- K6, <- M4, <- K7, <- W4. exact H6. }
  cbv zeta in L. destruct L as (L1 & L2 & L3 & L4 & L5 & L6).
  destruct (launch_facts W st Hrel)
    as (Ha & _ & _ & _ & Hg & _ & Hc & _ & Hw & _).
  (* the deliveries *)
  assert (D : forall ran t0, agentsOK W t0 -> marketed ran st t0 ->
            let t' := fold_left deliver schedule t0 in
            advances (sim t0) (sim t') /\ steady (sim t0) (sim t')
            /\ marketed ran st t'
            /\ (producerTask t0 = Resolved ->
                bugs (gameState (sim t')) = bugs (gameState (sim t0))
                /\ gameReleased (gameState (sim t'))
                   = gameReleased (gameState (sim t0)))).
  { clear. induction schedule as [|ev l IH]; intros ran t0 Ha Hm;
      cbn [fold_left].
    - split; [apply advances_refl|]. split; [split; reflexivity|].
      split; [exact Hm|auto].
    - pose proof (deliver_delivered W t0 ev Ha) as Dl.
      destruct (IH ran (deliver t0 ev) (delivered_agentsOK W _ _ Ha Dl)
                  (delivered_marketed _ _ _ _ Hm Dl))
        as (H1 & [H2 H2'] & H3 & H4).
      destruct (delivered_steady _ _ Dl) as [S1 S2].
      split; [eapply advances_trans;
              [apply (delivered_advances W _ _ Dl)|exact H1]|].
      split; [split; congruence|]. split; [exact H3|].
      intros Hp.
      pose proof (deliver_after_producer t0 ev Ha Hp) as K.
      destruct K as (K1 & K2 & K3). destruct (H4 K1) as [H5 H6].
      split; congruence. }
  subst t s1. unfold runTurn.
  destruct (D _ (launch W st) Ha L6)
    as ((A1 & A2 & A3 & A4 & A5 & A6 & A7 & A8 & A9 & A10 & A11)
        & [S1 S2] & M & P).
  split; [congruence|]. split; [congruence|]. split; [congruence|].
  split; [congruence|]. split; [congruence|]. split; [congruence|].
  split.
  { intros E. destruct (L5 E) as [R T]. destruct (P T) as [P1 P2].
    split; congruence. }
  eexists. split; [exact M|]. rewrite S2. split.
  - intros E. rewrite E. reflexivity.
  - intros E R. rewrite E. cbn [andb].
    destruct (gameReleased (gameState (sim (launch W st)))) eqn:R0;
      [|reflexivity].
    exfalso. destruct (A11 eq_refl) as [R1 _]. congruence.
Qed.

End TurnEffect.

(** ** Completed and unfinished turns *)

Section TurnTheorems.

Variable W : World.

(** X11.  A completed turn takes exactly the first command off the queue
    (none if the queue is empty), clears the waiting flag, and leaves in the
    quantum core what the command step put there; a command that starts with
    neither [/declare] nor [/answer] is dropped without a trace in the
    quantum core or the question ledger and without launching the
    Inquisitor. *)
Theorem turn_consumes_one_command schedule st st' :
  advanceWeek W schedule st = Completed st' ->
  commandQueue (gameState st') = tl (commandQueue (gameState st))
  /\ isWaitingForAgents st' = false
  /\ quantumCore st' = quantumCore (snd (commandStep W st))
  /\ (forall input rest,
        commandQueue (gameState st) = input :: rest ->
        startsWith input "/declare" = false ->
        startsWith input "/answer" = false ->
        commandStep W st = (false, setCommandQueue rest st)
        /\ quantumCore st' = quantumCore st
        /\ inquisitorLaunched W st = false).
Proof.
  intros Hc.
  destruct (advanceWeek_completed W _ _ _ Hc) as (Hrel & _ & _ & ->).
  destruct (runTurn_effects W schedule st Hrel) as (Hq & Hcore & _).
  split; [exact Hq|]. split; [reflexivity|]. split; [exact Hcore|].
  intros input rest Q D A.
  assert (E : commandStep W st = (false, setCommandQueue rest st)).
  { unfold commandStep. rewrite Q, D, A.
    destruct (negb (isEmpty input) && trimNonEmpty input); reflexivity. }
  split; [exact E|]. split.
  - change (quantumCore (finishTurn (sim (runTurn W schedule st))))
      with (quantumCore (sim (runTurn W schedule st))).
    rewrite Hcore, E. reflexivity.
  - rewrite inquisitorLaunched_processed, E. reflexivity.
Qed.

(** X12.  Marketing is activated by the engine, never by a command: after
    a completed turn it is active exactly if it was active before or the
    turn started in a week after the fifth. *)
Theorem marketing_activation schedule st st' :
  advanceWeek W schedule st = Completed st' ->
  marketingActive (gameState st')
  = marketingActive (gameState st) || (5 <? currentWeek (gameState st)).
Proof.
  intros Hc.
  destruct (advanceWeek_completed W _ _ _ Hc) as (Hrel & _ & _ & ->).
  destruct (runTurn_effects W schedule st Hrel) as (_ & _ & _ & Ha & _).
  exact Ha.
Qed.

(** X13.  Over a completed turn the Producer spends and builds exactly
    once, and only when the quantum core is not empty after the command
    step: then the budget goes down by the weekly spend of before the turn
    (whatever its sign becomes) and [buildProgress] becomes
    [min(100, old + max(0.5, 5 - n * 0.5))] for the [n] questions open after
    the command step; with an empty core budget, progress and bug count stay
    and the game is not released. *)
Theorem producer_turn_effect schedule st st' :
  advanceWeek W schedule st = Completed st' ->
  let s1 := snd (commandStep W st) in
  let n := lengthZ (filter isOpen (unansweredQuestions s1)) in
  (quantumCore s1 <> [] ->
   budget (gameState st')
   = budget (gameState st) - weeklySpend (gameState st)
   /\ buildProgress (gameState st')
      = Qmin 100 (buildProgress (gameState st)
                  + Qmax 0.5 (5 - inject_Z n * 0.5)))
  /\ (quantumCore s1 = [] ->
      budget (gameState st') = budget (gameState st)
      /\ buildProgress (gameState st') = buildProgress (gameState st)
      /\ bugs (gameState st') = bugs (gameState st)
      /\ gameReleased (gameState st') = false).
Proof.
  intros Hc s1 n.
  destruct (advanceWeek_completed W _ _ _ Hc) as (Hrel & _ & _ & ->).
  destruct (runTurn_effects W schedule st Hrel)
    as (_ & _ & _ & _ & Hb & Hp & He & _).
  fold s1 in Hb, Hp, He.
  change (budget (gameState (finishTurn (sim (runTurn W schedule st)))))
    with (budget (gameState (sim (runTurn W schedule st)))).
  change (buildProgress (gameState (finishTurn (sim (runTurn W schedule st)))))
    with (buildProgress (gameState (sim (runTurn W schedule st)))).
  change (bugs (gameState (finishTurn (sim (runTurn W schedule st)))))
    with (bugs (gameState (sim (runTurn W schedule st)))).
  change (gameReleased (gameState (finishTurn (sim (runTurn W schedule st)))))
    with (gameReleased (gameState (sim (runTurn W schedule st)))).
  unfold coreEmpty in *. split.
  - intros Hne.
    destruct (quantumCore s1) eqn:E; [congruence|].
    cbn [List.length Nat.eqb] in *. split; [exact Hb|exact Hp].
  - intros E. rewrite E in *. cbn [List.length Nat.eqb] in *.
    destruct (He eq_refl) as [R G]. auto.
Qed.

(** X14.  Over a completed turn Marketing updates at most once.  If
    Marketing is not active at the end of the turn, [marketHype] and the
    weekly spend are unchanged; if it is active and the game is not released
    at the end of the turn, [marketHype] is
    [min(100, old + quanta / 2)] on the final quantum core and the weekly
    spend is 2000 higher, whether or not a promotional text was generated;
    in a turn that releases the game either of the two holds. *)
Theorem marketing_turn_effect schedule st st' :
  advanceWeek W schedule st = Completed st' ->
  let same :=
    marketHype (gameState st') = marketHype (gameState st)
    /\ weeklySpend (gameState st') = weeklySpend (gameState st) in
  let updated :=
    marketHype (gameState st')
    = Qmin 100 (marketHype (gameState st)
                + inject_Z (Z.of_nat (List.length (quantumCore st'))) / 2)
    /\ weeklySpend (gameState st') = weeklySpend (gameState st) + 2000 in
  (marketingActive (gameState st') = false -> same)
  /\ (marketingActive (gameState st') = true ->
      gameReleased (gameState st') = false -> updated)
  /\ (same \/ updated).
Proof.
  intros Hc same updated.
  destruct (advanceWeek_completed W _ _ _ Hc) as (Hrel & _ & Hall & E).
  destruct (runTurn_effects W schedule st Hrel)
    as (_ & _ & _ & _ & _ & _ & _ & ran & M & Hf & Ht).
  set (t := runTurn W schedule st) in *.
  assert (Hm : marketingTask t = Resolved).
  { unfold allResolved in Hall. destruct (marketingTask t);
      rewrite ?andb_false_r in Hall; try discriminate; reflexivity. }
  assert (K : if ran then updated else same).
  { subst same updated. rewrite E.
    change (marketHype (gameState (finishTurn (sim t))))
      with (marketHype (gameState (sim t))).
    change (weeklySpend (gameState (finishTurn (sim t))))
      with (weeklySpend (gameState (sim t))).
    change (quantumCore (finishTurn (sim t))) with (quantumCore (sim t)).
    destruct ran; unfold marketed, hyped, passive in M.
    - destruct M as [(_ & A & B)|(N & _)]; [auto|contradiction].
    - destruct M as (_ & A & B). auto. }
  assert (Ha : marketingActive (gameState st')
               = marketingActive (gameState (sim t)))
    by (rewrite E; reflexivity).
  assert (Hr : gameReleased (gameState st')
               = gameReleased (gameState (sim t)))
    by (rewrite E; reflexivity).
  split; [intros A; rewrite Ha in A; rewrite (Hf A) in K; exact K|].
  split.
  - intros A R. rewrite Ha in A. rewrite Hr in R.
    rewrite (Ht A R) in K. exact K.
  - destruct ran; [right|left]; exact K.
Qed.

Lemma serve_waiting st r :
  isWaitingForAgents st = true ->
  setCommandQueue (commandQueue (gameState st)) (serve W st r) = st
  /\ isWaitingForAgents (serve W st r) = true.
Proof.
  intros Hw. destruct r as [schedule|running command]; cbn [serve].
  - unfold advanceWeek. rewrite Hw, orb_true_r. cbn [stateAfter].
    split; [|exact Hw]. destruct st as [w a [] q u b n]; reflexivity.
  - unfold submitCommand.
    destruct (commandQueue (gameState st)) eqn:Q; destruct running;
      cbn [negb]; try destruct (trimNonEmpty command);
      (split; [|exact Hw]);
      try rewrite <- Q; destruct st as [w a [] q u b n]; reflexivity.
Qed.

Lemma serve_all_waiting requests : forall st,
  isWaitingForAgents st = true ->
  let st' := fold_left (serve W) requests st in
  setCommandQueue (commandQueue (gameState st)) st' = st
  /\ isWaitingForAgents st' = true.
Proof.
  induction requests as [|r requests IH]; intros st Hw; cbn [fold_left].
  - split; [destruct st as [w a [] q u b n]; reflexivity|exact Hw].
  - destruct (serve_waiting st r Hw) as [E Hw'].
    destruct (IH (serve W st r) Hw') as (E' & R).
    split; [|exact R].
    transitivity
      (setCommandQueue (commandQueue (gameState st))
         (setCommandQueue (commandQueue (gameState (serve W st r)))
            (fold_left (serve W) requests (serve W st r))));
      [reflexivity|]. rewrite E'. exact E.
Qed.

(** X15.  A turn in which some request is never answered never ends: the
    waiting flag stays set, every later turn-advance request is refused, and
    whatever is asked of the core afterwards the week number stays that of
    the unfinished turn and only the command queue can change. *)
Theorem unfinished_turn_blocks schedule st :
  gameReleased (gameState st) = false ->
  isWaitingForAgents st = false ->
  allResolved (runTurn W schedule st) = false ->
  let stuck := stateAfter st (advanceWeek W schedule st) in
  isWaitingForAgents stuck = true
  /\ currentWeek (gameState stuck) = currentWeek (gameState st)
  /\ (forall schedule', advanceWeek W schedule' stuck = Refused)
  /\ (forall requests,
        let later := fold_left (serve W) requests stuck in
        setCommandQueue (commandQueue (gameState stuck)) later = stuck
        /\ isWaitingForAgents later = true
        /\ currentWeek (gameState later) = currentWeek (gameState st)).
Proof.
  intros Hrel Hw Hall stuck.
  assert (E : stuck = sim (runTurn W schedule st)).
  { subst stuck. unfold advanceWeek. rewrite Hrel, Hw, Hall. reflexivity. }
  destruct (runTurn_effects W schedule st Hrel) as (_ & _ & Hwait & _).
  destruct (runTurn_facts W schedule st Hrel) as (_ & _ & _ & Hweek & _).
  rewrite <- E in Hwait, Hweek.
  split; [exact Hwait|]. split; [exact Hweek|]. split.
  - intros schedule'. unfold advanceWeek. rewrite Hwait, orb_true_r.
    reflexivity.
  - intros requests later.
    destruct (serve_all_waiting requests stuck Hwait) as [A B].
    fold later in A, B. split; [exact A|]. split; [exact B|].
    rewrite <- Hweek.
    exact (f_equal (fun s => currentWeek (gameState s)) A).
Qed.

End TurnTheorems.

(** ** Commands from the input field *)

Section Commands.

Variable W : World.

(** X16.  Answering by id works: for a command [/answer], white space, an
    id [uq-] plus characters [[a-z0-9]], then anything that does not
    continue the id, the command step reports success and sets the first
    question carrying that id to Answered, leaving the other questions as
    they are; if that question was Open there is one open question less. *)
Theorem answer_by_id_resolves ws body post rest l1 q l2 st :
  commandQueue (gameState st) = answerCommand ws body post :: rest ->
  ws <> EmptyString -> allChars isSpace ws = true ->
  body <> EmptyString -> allChars isLowerAlnum body = true ->
  headIn isLowerAlnum post = false ->
  unansweredQuestions st = l1 ++ q :: l2 ->
  id q = ("uq-" ++ body)%string ->
  (forall q', In q' l1 -> id q' <> ("uq-" ++ body)%string) ->
  fst (commandStep W st) = true
  /\ unansweredQuestions (snd (commandStep W st))
     = l1 ++ mkQuestion (id q) (text q) Answered (sourceQuantumId q) :: l2
  /\ (qstatus q = Open ->
      S (List.length (openQuestionsOf (snd (commandStep W st))))
      = List.length (openQuestionsOf st)).
Proof.
  intros Q Hws Hsp Hb Hal Hpost L Hid Hn.
  pose proof (matchAnswer_here _ _
                (matchAnswerAt_command ws body post Hws Hsp Hb Hal Hpost))
    as M.
  set (input := answerCommand ws body post) in *.
  assert (A : startsWith input "/answer" = true)
    by (apply prefix_append).
  assert (D : startsWith input "/declare" = false) by reflexivity.
  assert (E : commandStep W st
              = resolveAnswer W input (setCommandQueue rest st)).
  { unfold commandStep. rewrite Q, D, A.
    rewrite (slash_command_not_blank input _ A). reflexivity. }
  assert (F : find (hasId ("uq-" ++ body)%string) (l1 ++ q :: l2) = Some q)
    by (apply find_hasId_first; assumption).
  assert (Hl : unansweredQuestions (snd (commandStep W st))
               = l1 ++ mkQuestion (id q) (text q) Answered (sourceQuantumId q)
                      :: l2).
  { rewrite E, resolveAnswer_ledger, M.
    cbn [unansweredQuestions setCommandQueue updGame]. rewrite L.
    destruct (find_hasId_split _ _ _ F) as (a & b & Hab & _ & Ha & Hf).
    rewrite Hf. clear Hf.
    assert (a = l1 /\ b = l2) as [-> ->]; [|reflexivity].
    clear -Hab Ha Hn Hid. revert a Hab Ha.
    induction l1 as [|x l1 IH]; intros a Hab Ha.
    - destruct a as [|y a]; cbn [app] in Hab.
      + injection Hab as ->. auto.
      + injection Hab as <- _. exfalso. apply (Ha q); [left; reflexivity|].
        exact Hid.
    - destruct a as [|y a]; cbn [app] in Hab.
      + injection Hab as -> _. exfalso.
        apply (Hn q); [left; reflexivity|exact Hid].
      + injection Hab as <- Hab.
        destruct (IH (fun q' H => Hn q' (or_intror H)) a Hab
                    (fun q' H => Ha q' (or_intror H))) as [-> ->].
        auto. }
  split.
  { rewrite E. apply resolveAnswer_reports.
    exists ("uq-" ++ body)%string, q. split; [exact M|].
    cbn [unansweredQuestions setCommandQueue updGame]. rewrite L.
    split; [apply in_elt|exact Hid]. }
  split; [exact Hl|].
  intros Ho. unfold openQuestionsOf. rewrite Hl, L, !filter_app.
  cbn [filter].
  assert (O : isOpen q = true) by (unfold isOpen; rewrite Ho; reflexivity).
  rewrite O. cbn [isOpen qstatus].
  rewrite !length_app. cbn [List.length]. lia.
Qed.

(** X17.  With the simulation stopped, a submission overwrites the command
    at the head of the queue, blank or not, and the turn started at once
    processes the submission: the overwritten command is never processed.
    With the simulation running, a submission is appended to the queue if it
    is not blank and dropped if it is, and nothing else changes. *)
Theorem submission_handling command schedule st :
  (forall old rest,
      commandQueue (gameState st) = old :: rest ->
      gameReleased (gameState st) = false ->
      isWaitingForAgents st = false ->
      let st1 := setCommandQueue (command :: rest) st in
      allResolved (runTurn W schedule st1) = true ->
      let st' := onSubmit W false command schedule st in
      submitCommand false command st = st1
      /\ commandQueue (gameState st') = rest
      /\ quantumCore st' = quantumCore (snd (commandStep W st1))
      /\ (startsWith command "/declare" = false ->
          startsWith command "/answer" = false ->
          quantumCore st' = quantumCore st))
  /\ (trimNonEmpty command = true ->
      onSubmit W true command schedule st
      = setCommandQueue (commandQueue (gameState st) ++ [command]) st)
  /\ (trimNonEmpty command = false ->
      onSubmit W true command schedule st = st).
Proof.
  split; [|split].
  - intros old rest Q Hrel Hw st1 Hall st'.
    assert (E : submitCommand false command st = st1).
    { unfold submitCommand. rewrite Q. reflexivity. }
    assert (E' : st' = finishTurn (sim (runTurn W schedule st1))).
    { subst st'. unfold onSubmit. rewrite E. cbn [negb].
      unfold advanceWeek.
      change (gameReleased (gameState st1)) with (gameReleased (gameState st)).
      change (isWaitingForAgents st1) with (isWaitingForAgents st).
      rewrite Hrel, Hw, Hall. reflexivity. }
    destruct (runTurn_effects W schedule st1 Hrel) as (Hq & Hc & _).
    split; [exact E|]. rewrite E'.
    split; [exact Hq|]. split; [exact Hc|].
    intros D A.
    change (quantumCore (finishTurn (sim (runTurn W schedule st1))))
      with (quantumCore (sim (runTurn W schedule st1))).
    rewrite Hc. subst st1. unfold commandStep.
    cbn [commandQueue gameState setCommandQueue updGame]. rewrite D, A.
    destruct (negb (isEmpty command) && trimNonEmpty command); reflexivity.
  - intros T. unfold onSubmit, submitCommand. cbn [negb]. rewrite T.
    destruct (commandQueue (gameState st)) eqn:Q; [reflexivity|].
    rewrite <- Q. reflexivity.
  - intros T. unfold onSubmit, submitCommand. cbn [negb]. rewrite T.
    destruct (commandQueue (gameState st)); reflexivity.
Qed.

End Commands.

(** ** Week stamps and the quanta of the current week *)

Section WeekStamps.

Variable W : World.

Lemma norm_not_nil d :
  Decimal.norm d <> Decimal.Pos Decimal.Nil
  /\ Decimal.norm d <> Decimal.Neg Decimal.Nil.
Proof.
  destruct d as [u|u]; cbn [Decimal.norm].
  - split; [|discriminate]. intros [= H].
    exact (DecimalFacts.unorm_nonnil u H).
  - destruct (Decimal.nzhead u); split; discriminate.
Qed.

Lemma to_int_normal z : Z.to_int z = Decimal.norm (Z.to_int z).
Proof. rewrite <- (DecimalZ.to_of (Z.to_int z)), DecimalZ.of_to. reflexivity. Qed.

(** The decimal rendering of a number determines the number. *)
Lemma ofZ_inj a b : ofZ a = ofZ b -> a = b.
Proof.
  unfold ofZ. intros H. apply DecimalZ.to_int_inj.
  assert (I : forall z, NilZero.int_of_string
                          (NilZero.string_of_int (Z.to_int z))
                        = Some (Z.to_int z)).
  { intros z. apply NilZero.isi; rewrite to_int_normal;
      apply norm_not_nil. }
  pose proof (I a) as Ia. rewrite H, I in Ia. congruence.
Qed.

Lemma weekString_differs s q k :
  createdAt q = ("Week " ++ ofZ k)%string ->
  k < currentWeek (gameState s) ->
  String.eqb (createdAt q) (weekString s) = false.
Proof.
  intros E Hk. apply String.eqb_neq. unfold weekString. rewrite E.
  intros [= H]. apply ofZ_inj in H. lia.
Qed.

Lemma translatorTurn_added input st :
  exists added,
    quantumCore (snd (translatorTurn W input st)) = quantumCore st ++ added
    /\ Forall (fun q => declarationSource q = input
                        /\ createdAt q = weekString st) added.
Proof.
  destruct (translatorTurn_grows W input st) as (added & H & _ & F).
  exists added. auto.
Qed.

(** What the command step adds to the quantum core carries the command
    as source and the current week as date. *)
Lemma commandStep_added st :
  exists added,
    quantumCore (snd (commandStep W st)) = quantumCore st ++ added
    /\ Forall (fun q =>
                 createdAt q = weekString st
                 /\ exists rest,
                      commandQueue (gameState st)
                      = declarationSource q :: rest) added.
Proof.
  unfold commandStep.
  destruct (commandQueue (gameState st)) as [|input rest] eqn:Q.
  { exists []. rewrite app_nil_r. split; [reflexivity|constructor]. }
  assert (T : forall s,
             quantumCore s = quantumCore st -> weekString s = weekString st ->
             exists added,
               quantumCore (snd (translatorTurn W input s))
               = quantumCore st ++ added
               /\ Forall (fun q =>
                            createdAt q = weekString st
                            /\ exists rest0,
                                 input :: rest = declarationSource q :: rest0)
                    added).
  { intros s Hc Hw. destruct (translatorTurn_added input s) as (added & H & F).
    exists added. rewrite H, Hc. split; [reflexivity|].
    eapply Forall_impl; [|exact F]. cbn beta. intros q [-> ->].
    split; [exact Hw|]. exists rest. reflexivity. }
  assert (N : exists added : list Quantum,
             quantumCore (setCommandQueue rest st) = quantumCore st ++ added
             /\ Forall (fun q =>
                          createdAt q = weekString st
                          /\ exists rest0,
                               input :: rest = declarationSource q :: rest0)
                  added).
  { exists []. rewrite app_nil_r. split; [reflexivity|constructor]. }
  destruct (negb (isEmpty input) && trimNonEmpty input); [|exact N].
  destruct (startsWith input "/declare");
    [apply T; reflexivity|].
  destruct (startsWith input "/answer"); [|exact N].
  unfold resolveAnswer.
  destruct (matchAnswer input) as [qid|];
    [destruct (find (hasId qid) _)|]; cbn [snd];
    apply T; reflexivity.
Qed.

Lemma filter_none {A} (f : A -> bool) l :
  Forall (fun x => f x = false) l -> filter f l = [].
Proof.
  induction 1 as [|x l H _ IH]; cbn [filter]; [reflexivity|].
  rewrite H. exact IH.
Qed.

Lemma filter_all {A} (f : A -> bool) l :
  Forall (fun x => f x = true) l -> filter f l = l.
Proof.
  induction 1 as [|x l H _ IH]; cbn [filter]; [reflexivity|].
  rewrite H, IH. reflexivity.
Qed.

Lemma dated_not_recent s :
  dated s -> recentQuantaOf s = [].
Proof.
  intros D. unfold recentQuantaOf. apply filter_none.
  eapply Forall_impl; [|exact D]. cbn beta.
  intros q (k & E & Hk). apply (weekString_differs s q k E Hk).
Qed.

(** Between two turns of a run every quantum is dated before the current
    week. *)
Lemma reachable_dated st :
  reachable W st -> isWaitingForAgents st = true \/ dated st.
Proof.
  induction 1 as [|st r _ IH].
  - right. constructor.
  - destruct r as [schedule|running command]; cbn [serve].
    + unfold advanceWeek.
      destruct (gameReleased (gameState st)) eqn:Hrel; [exact IH|].
      destruct (isWaitingForAgents st) eqn:Hw; [left; exact Hw|].
      cbn [orb]. destruct IH as [IH|IH]; [discriminate|].
      destruct (runTurn_effects W schedule st Hrel) as (_ & Hc & Hwait & _).
      destruct (runTurn_facts W schedule st Hrel) as (_ & _ & _ & Hwk & _).
      destruct (allResolved (runTurn W schedule st)); cbn [stateAfter];
        [|left; exact Hwait].
      right. unfold dated.
      change (quantumCore (finishTurn (sim (runTurn W schedule st))))
        with (quantumCore (sim (runTurn W schedule st))).
      change (currentWeek (gameState
                (finishTurn (sim (runTurn W schedule st)))))
        with (currentWeek (gameState (sim (runTurn W schedule st))) + 1).
      rewrite Hc, Hwk.
      destruct (commandStep_added st) as (added & -> & F).
      apply Forall_app. split.
      * eapply Forall_impl; [|exact IH]. cbn beta.
        intros q (k & E & Hk). exists k. split; [exact E|lia].
      * eapply Forall_impl; [|exact F]. cbn beta.
        intros q [E _]. exists (currentWeek (gameState st)).
        split; [exact E|lia].
    + assert (E : forall q, isWaitingForAgents (setCommandQueue q st) = true
                            \/ dated (setCommandQueue q st)) by (intros; exact IH).
      unfold submitCommand.
      destruct (commandQueue (gameState st)); destruct running;
        cbn [negb]; try destruct (trimNonEmpty command);
        exact IH || apply E.
Qed.

(** X18.  In a run, when a turn starts no quantum of the core is of the
    current week, so after the command step the quanta of the current week,
    about which the Inquisitor asks and among which Marketing looks for a
    feature, are exactly the quanta this turn's command created. *)
Theorem recent_quanta_are_this_turns st :
  reachable W st -> isWaitingForAgents st = false ->
  recentQuantaOf st = []
  /\ exists added,
       quantumCore (snd (commandStep W st)) = quantumCore st ++ added
       /\ recentQuantaOf (snd (commandStep W st)) = added.
Proof.
  intros Hr Hw. destruct (reachable_dated st Hr) as [E|D]; [congruence|].
  split; [apply dated_not_recent; exact D|].
  destruct (commandStep_added st) as (added & Hc & F).
  exists added. split; [exact Hc|].
  unfold recentQuantaOf. rewrite Hc, filter_app.
  assert (Hwk : weekString (snd (commandStep W st)) = weekString st).
  { unfold weekString.
    destruct (metrics_fields _ _ (proj1 (commandStep_metrics W st)))
      as (-> & _). reflexivity. }
  rewrite Hwk.
  rewrite (filter_none _ (quantumCore st)), (filter_all _ added);
    [reflexivity| |].
  - eapply Forall_impl; [|exact F]. cbn beta. intros q [-> _].
    apply String.eqb_refl.
  - eapply Forall_impl; [|exact D]. cbn beta.
    intros q (k & E & Hk). apply (weekString_differs st q k E Hk).
Qed.

Lemma inquisitorLoop_all_answers todo : forall acc s,
  Forall (fun q => fromAnswer q = true) todo ->
  inquisitorLoop W todo acc s = (inquisitorEnd acc s, Resolved).
Proof.
  induction todo as [|q rest IH]; intros acc s F; cbn [inquisitorLoop];
    [reflexivity|].
  inversion F as [|x l Hq Hrest]; subst. rewrite Hq. apply IH. exact Hrest.
Qed.

Lemma deliver_after_inquisitor t ev :
  agentsOK W t -> inquisitorDone t ->
  inquisitorDone (deliver t ev)
  /\ unansweredQuestions (sim (deliver t ev)) = unansweredQuestions (sim t).
Proof.
  intros (_ & Hp & Hm) Hd. destruct ev as [[| |] reply]; cbn [deliver].
  - destruct Hd as [E|E]; rewrite E; split; auto; [left|right]; exact E.
  - destruct Hp as [->|[->|[(p & u & q & log & ->) _]]]; auto.
    unfold producerResume. destruct (negb (isFallback reply));
      cbn [generateId mathRandom]; unfold producerEnd, releaseGame;
      cbn [setProducer setBugs setBugReports setRandomCalls updGame
           updActivity gameState buildProgress];
      destruct (Qle_bool 100 _); split; auto.
  - destruct Hm as [->|(p & u & ->)]; auto.
Qed.

(** X19.  In a run, a completed turn whose command is an answer command
    adds no question to the ledger, whatever quanta the command created and
    whatever the text generation service would reply: the Inquisitor makes
    no request in that turn. *)
Theorem answers_raise_no_questions schedule st st' input rest :
  reachable W st ->
  advanceWeek W schedule st = Completed st' ->
  commandQueue (gameState st) = input :: rest ->
  startsWith input "/answer" = true ->
  inquisitorDone (launch W st)
  /\ unansweredQuestions st' = unansweredQuestions (snd (commandStep W st)).
Proof.
  intros Hr Hc Q A.
  destruct (advanceWeek_completed W _ _ _ Hc) as (Hrel & Hw & _ & ->).
  destruct (reachable_dated st Hr) as [E|D]; [congruence|].
  destruct (launch_facts W st Hrel)
    as (Ha & _ & _ & _ & _ & _ & _ & Hu & _).
  assert (Hd : inquisitorDone (launch W st)).
  { unfold inquisitorDone. rewrite launch_inquisitorTask.
    unfold launchInquisitor.
    destruct (fst (commandStep W st)); [|left; reflexivity]. right.
    set (s2 := setWaitingState true "Agents are thinking..."
                 (snd (commandStep W st))).
    assert (F : Forall (fun q => fromAnswer q = true) (recentQuantaOf s2)).
    { unfold recentQuantaOf.
      change (quantumCore s2) with (quantumCore (snd (commandStep W st))).
      assert (Hwk : weekString s2 = weekString st).
      { unfold weekString, s2.
        cbn [setWaitingState gameState].
        destruct (metrics_fields _ _ (proj1 (commandStep_metrics W st)))
          as (-> & _). reflexivity. }
      rewrite Hwk.
      destruct (commandStep_added st) as (added & -> & Fa).
      rewrite filter_app, (filter_none _ (quantumCore st)).
      - cbn [app]. apply Forall_forall. intros q Hin.
        apply filter_In in Hin. destruct Hin as [Hin _].
        rewrite Forall_forall in Fa. destruct (Fa q Hin) as (_ & r & Hs).
        rewrite Q in Hs. injection Hs as Hs _.
        apply answer_prefix_fromAnswer. rewrite <- Hs. exact A.
      - eapply Forall_impl; [|exact D]. cbn beta.
        intros q (k & E & Hk). apply (weekString_differs st q k E Hk). }
    unfold inquisitorTurn.
    destruct (List.length (recentQuantaOf s2) =? 0)%nat; [reflexivity|].
    rewrite (inquisitorLoop_all_answers _ _ _ F). reflexivity. }
  split; [exact Hd|].
  change (unansweredQuestions (finishTurn (sim (runTurn W schedule st))))
    with (unansweredQuestions (sim (runTurn W schedule st))).
  rewrite <- Hu. unfold runTurn.
  revert Ha Hd. generalize (launch W st). clear.
  induction schedule as [|ev l IH]; intros t Ha Hd; cbn [fold_left];
    [reflexivity|].
  destruct (deliver_after_inquisitor t ev Ha Hd) as [Hd' E].
  rewrite <- E. apply IH; [|exact Hd'].
  apply (delivered_agentsOK W t); [exact Ha|].
  apply deliver_delivered. exact Ha.
Qed.

End WeekStamps.

(** ** Turns that run to their end *)

Section Liveness.

Variable W : World.
Hypothesis unit_draws : forall k, unitInterval (random W k).

(** X20.  When [Math.random] returns doubles of the unit interval, the
    question the Producer picks to flag always exists, so the Producer's
    turn never fails, and every turn that starts can run to its end: under
    some schedule of replies the week counter goes up by one and the engine
    waits no more. *)
Theorem turn_never_stuck st :
  gameReleased (gameState st) = false ->
  isWaitingForAgents st = false ->
  producerTask (launch W st) <> Rejected
  /\ exists schedule st',
       advanceWeek W schedule st = Completed st'
       /\ currentWeek (gameState st') = currentWeek (gameState st) + 1.
Proof.
  intros Hrel Hw. split; [apply launch_not_rejected; exact unit_draws|].
  destruct (turn_can_complete W unit_draws st Hrel Hw) as (schedule & st' & H).
  exists schedule, st'. split; [exact H|].
  destruct (advanceWeek_completed W _ _ _ H) as (_ & _ & _ & ->).
  destruct (runTurn_facts W schedule st Hrel) as (_ & _ & _ & Hwk & _).
  change (currentWeek (gameState (finishTurn (sim (runTurn W schedule st)))))
    with (currentWeek (gameState (sim (runTurn W schedule st))) + 1).
  rewrite Hwk. reflexivity.
Qed.

End Liveness.


(** ** Question ids and the answer pattern *)

Section QuestionIds.

Variable W : World.

(** X21.  The ids [generateId('uq')] makes for the Inquisitor's questions
    fit the pattern of [resolveAnswer]: when the base-36 rendering of the
    draw has at least one character behind its first two and the nine it
    keeps are of [[a-z0-9]], the command [/answer], white space, the id,
    and anything that does not continue the id yields exactly that id. *)
Theorem generated_id_answerable st ws post :
  let digits := substring 2 9 (base36 W (random W (randomCalls st))) in
  let qid := fst (generateId W "uq" st) in
  digits <> EmptyString -> allChars isLowerAlnum digits = true ->
  ws <> EmptyString -> allChars isSpace ws = true ->
  headIn isLowerAlnum post = false ->
  qid = ("uq-" ++ digits)%string
  /\ matchAnswer ("/answer" ++ ws ++ qid ++ post)%string = Some qid.
Proof.
  intros digits qid Hd Hal Hws Hsp Hpost.
  assert (E : qid = ("uq-" ++ digits)%string) by reflexivity.
  split; [exact E|]. rewrite E. apply matchAnswer_here.
  apply (matchAnswerAt_command ws digits post); assumption.
Qed.

End QuestionIds.


(** ** The properties on concrete runs *)

(** The expression finds the leftmost id, and ids stop at the first
    character outside [[a-z0-9]]. *)
Example matchAnswer_leftmost :
  matchAnswer "please /answer   uq-ab12_x then /answer uq-zz" = Some "uq-ab12".
Proof. reflexivity. Qed.

Example matchAnswer_needs_id : matchAnswer "/answer uq- nothing" = None.
Proof. reflexivity. Qed.

(** The first week of the pre-seeded command: three quanta, three
    requests of the Inquisitor, and with the service off line no question. *)
Example first_turn_quanta :
  map quantumType (quantumCore Examples.firstTurn)
  = [Genre; MechanicPillar; Setting]
  /\ map designFact (askedAbout (snd (commandStep Examples.W0 initialState)))
     = ["[Genre] Action RPG"; "[MechanicPillar] Stealth";
        "[Setting] Cyberpunk Fantasy"]
  /\ unansweredQuestions Examples.firstTurn = []
  /\ currentWeek (gameState Examples.firstTurn) = 2
  /\ (buildProgress (gameState Examples.firstTurn) == 5)%Q.
Proof. vm_compute. repeat split; reflexivity. Qed.

(** Week 20 of that run, and the score of the release that follows. *)
Example week20_metrics :
  currentWeek (gameState Examples.week20) = 20
  /\ (buildProgress (gameState Examples.week20) == 95)%Q
  /\ (designCompleteness (gameState Examples.week20) == 100)%Q
  /\ (marketHype (gameState Examples.week20) == 21)%Q
  /\ (finalScore
        (gameState (serve Examples.W0 Examples.week20
                      (Advance Examples.lateQuestion))) == 76.3)%Q
  /\ (designCompleteness
        (gameState (serve Examples.W0 Examples.week20
                      (Advance Examples.lateQuestion))) == 80)%Q.
Proof. vm_compute. repeat split; reflexivity. Qed.

(** With three open questions the threshold of the bug draw is the double
    0.44999999999999996: a draw of that value is below 0.45 and still
    draws no bug. *)
Example bug_draw_at_the_threshold :
  (random Examples.atThreshold 0 < 3 * 0.15)%Q
  /\ snd (producerTurn Examples.atThreshold Examples.threeOpen) = Resolved
  /\ randomCalls (fst (producerTurn Examples.atThreshold Examples.threeOpen))
     = 1%nat
  /\ bugReports (fst (producerTurn Examples.atThreshold Examples.threeOpen))
     = [].
Proof. vm_compute. repeat split; reflexivity. Qed.

(** With seven open questions and the pick 0.5714285714285714 the product
    is the double 4 although the exact product is below 4: the fifth
    question is blamed. *)
Example blame_follows_the_double_product :
  Qfloor ((2573485501354569 # 4503599627370496) * 7) = 3
  /\ match snd (producerTurn Examples.fourSevenths Examples.crowded) with
     | Await _ _ k =>
         map sourceQuestionId
           (bugReports
              (fst (k "The guard walks through walls." Examples.crowded)))
         = ["uq-a5"]
     | _ => False
     end.
Proof. vm_compute. split; reflexivity. Qed.

Lemma C9_inquisitor_questions_witness :
  snd (settle Examples.stealthReply
         (inquisitorTurn Examples.W0 Examples.twoFacts))
  = [(AGENT_PROMPTS.inquisitor, "[MechanicPillar] Stealth")]
  /\ map questionView
       (unansweredQuestions
          (fst (fst (settle Examples.stealthReply
                       (inquisitorTurn Examples.W0 Examples.twoFacts)))))
     = [("What tools does stealth use?", Open, "q-7k3x9a0b1")].
Proof.
  destruct (C9_inquisitor_questions Examples.W0 Examples.twoFacts
              Examples.stealthReply)
    as (_ & Hlog & _ & newQuestions & Hl & Hv).
  - reflexivity.
  - repeat constructor.
  - split; [exact Hlog|]. rewrite Hl. exact Hv.
Defined.

Lemma C4_monotone_witness :
  (buildProgress (gameState initialState)
   <= buildProgress (gameState Examples.firstTurn))%Q
  /\ (marketHype (gameState initialState)
      <= marketHype (gameState Examples.firstTurn))%Q
  /\ bugs (gameState initialState) <= bugs (gameState Examples.firstTurn)
  /\ currentWeek (gameState Examples.firstTurn)
     = currentWeek (gameState initialState) + 1
  /\ currentWeek (gameState initialState)
     < currentWeek (gameState Examples.firstTurn).
Proof.
  apply (C4_monotone Examples.W0 Examples.offline initialState
           Examples.firstTurn).
  - apply reach_init.
  - vm_compute. reflexivity.
Defined.

Lemma C8_design_completeness_witness :
  designCompleteness (gameState Examples.firstTurn)
  = designCompletenessOf 3 0.
Proof.
  destruct (C8_design_completeness Examples.W0 Examples.offline initialState
              Examples.firstTurn) as [H _].
  - vm_compute. reflexivity.
  - exact H.
Defined.

Lemma idleTurns_reachable n : forall st,
  reachable Examples.W0 st -> reachable Examples.W0 (Examples.idleTurns n st).
Proof.
  induction n as [|n IH]; intros st H; cbn [Examples.idleTurns].
  - exact H.
  - apply IH. apply reach_serve. exact H.
Qed.

(** The state of week 20 used below is a state of a run. *)
Lemma week20_reachable : reachable Examples.W0 Examples.week20.
Proof.
  unfold Examples.week20. apply reach_serve. apply idleTurns_reachable.
  unfold Examples.firstTurn. apply reach_serve. apply reach_init.
Qed.

Lemma C2_release_and_score_witness :
  gameReleased
    (gameState (serve Examples.W0 Examples.week20
                  (Advance Examples.lateQuestion))) = true.
Proof.
  destruct (C2_release_and_score Examples.W0 Examples.lateQuestion
              Examples.week20
              (serve Examples.W0 Examples.week20
                 (Advance Examples.lateQuestion))) as [H _].
  - vm_compute. reflexivity.
  - vm_compute. discriminate.
  - vm_compute. discriminate.
  - exact H.
Defined.

Lemma C10_remainder_of_release_turn_witness :
  advanceWeek Examples.W0 ([] ++ Examples.lateQuestion) Examples.week20
  = Completed
      (finishTurn
         (sim (fold_left deliver Examples.lateQuestion
                 (runTurn Examples.W0 [] Examples.week20)))).
Proof.
  destruct (C10_remainder_of_release_turn Examples.W0 []
              Examples.lateQuestion Examples.week20) as [H _].
  - vm_compute. reflexivity.
  - vm_compute. reflexivity.
  - vm_compute. reflexivity.
  - vm_compute. reflexivity.
  - exact H.
Defined.

(** C10 as stated fails for the ledgers.  In week 20 the build stands at
    95 and a declaration is queued: the Producer releases the game before
    the Inquisitor's request is answered, and the question that arrives
    afterwards is still appended to the question ledger in the remainder of
    the turn. *)
Lemma C10_counterexample :
  gameReleased (gameState (sim (launch Examples.W0 Examples.week20))) = true
  /\ unansweredQuestions (sim (launch Examples.W0 Examples.week20)) = []
  /\ advanceWeek Examples.W0 Examples.lateQuestion Examples.week20
     = Completed
         (serve Examples.W0 Examples.week20 (Advance Examples.lateQuestion))
  /\ map questionView
       (unansweredQuestions
          (serve Examples.W0 Examples.week20
             (Advance Examples.lateQuestion)))
     = [("What powers the ghostwire ability?", Open, "q-5k3x9a0b1")].
Proof. vm_compute. auto. Qed.


(** ** The further properties on concrete runs *)

Lemma matchAnswer_complete_witness :
  matchAnswer (answerCommand " " "abc" " yes") = Some "uq-abc"%string.
Proof.
  apply (matchAnswer_complete " " "abc" " yes").
  - discriminate.
  - reflexivity.
  - discriminate.
  - reflexivity.
  - reflexivity.
Defined.

Lemma matchAnswer_sound_witness :
  exists pre ws body post,
    "say /answer  uq-a1: yes"%string
    = (pre ++ answerCommand ws body post)%string
    /\ ws <> EmptyString /\ allChars isSpace ws = true
    /\ body <> EmptyString /\ allChars isLowerAlnum body = true
    /\ headIn isLowerAlnum post = false
    /\ "uq-a1"%string = ("uq-" ++ body)%string.
Proof.
  apply (matchAnswer_sound "say /answer  uq-a1: yes" "uq-a1").
  vm_compute. reflexivity.
Defined.

Lemma released_reachable : reachable Examples.W0 Examples.released.
Proof. apply reach_serve. apply week20_reachable. Qed.

Lemma bugs_match_reports_witness :
  bugs (gameState Examples.released)
  = Z.of_nat (List.length (bugReports Examples.released)).
Proof.
  apply (bugs_match_reports Examples.W0 Examples.released).
  apply released_reachable.
Defined.

Lemma metrics_in_range_witness :
  (0 <= buildProgress (gameState Examples.released) <= 100)%Q
  /\ (0 <= marketHype (gameState Examples.released) <= 100)%Q
  /\ (0 <= designCompleteness (gameState Examples.released) <= 100)%Q
  /\ (0 <= finalScore (gameState Examples.released) <= 100)%Q
  /\ 5000 <= weeklySpend (gameState Examples.released)
  /\ 1 <= currentWeek (gameState Examples.released).
Proof.
  apply (metrics_in_range Examples.W0 Examples.released).
  apply released_reachable.
Defined.

Lemma turn_consumes_one_command_witness :
  commandQueue (gameState Examples.firstTurn)
  = tl (commandQueue (gameState initialState))
  /\ isWaitingForAgents Examples.firstTurn = false.
Proof.
  destruct (turn_consumes_one_command Examples.W0 Examples.offline
              initialState Examples.firstTurn) as (H1 & H2 & _).
  - vm_compute. reflexivity.
  - split; [exact H1|exact H2].
Defined.

Lemma marketing_activation_witness :
  marketingActive (gameState (Examples.idleTurns 5 Examples.firstTurn))
  = marketingActive (gameState (Examples.idleTurns 4 Examples.firstTurn))
    || (5 <? currentWeek (gameState (Examples.idleTurns 4 Examples.firstTurn))).
Proof.
  apply (marketing_activation Examples.W0 []
           (Examples.idleTurns 4 Examples.firstTurn)
           (Examples.idleTurns 5 Examples.firstTurn)).
  vm_compute. reflexivity.
Defined.

Lemma producer_turn_effect_witness :
  budget (gameState Examples.firstTurn)
  = budget (gameState initialState) - weeklySpend (gameState initialState)
  /\ buildProgress (gameState Examples.firstTurn)
     = Qmin 100
         (buildProgress (gameState initialState)
          + Qmax 0.5
              (5 - inject_Z
                     (lengthZ
                        (filter isOpen
                           (unansweredQuestions
                              (snd (commandStep Examples.W0 initialState)))))
                   * 0.5)).
Proof.
  destruct (producer_turn_effect Examples.W0 Examples.offline initialState
              Examples.firstTurn) as [H _].
  - vm_compute. reflexivity.
  - apply H. vm_compute. discriminate.
Defined.

Lemma marketing_turn_effect_witness :
  marketHype (gameState (Examples.idleTurns 6 Examples.firstTurn))
  = Qmin 100
      (marketHype (gameState (Examples.idleTurns 5 Examples.firstTurn))
       + inject_Z
           (Z.of_nat
              (List.length
                 (quantumCore (Examples.idleTurns 6 Examples.firstTurn)))) / 2)
  /\ weeklySpend (gameState (Examples.idleTurns 6 Examples.firstTurn))
     = weeklySpend (gameState (Examples.idleTurns 5 Examples.firstTurn)) + 2000.
Proof.
  destruct (marketing_turn_effect Examples.W0 []
              (Examples.idleTurns 5 Examples.firstTurn)
              (Examples.idleTurns 6 Examples.firstTurn)) as (_ & H & _).
  - vm_compute. reflexivity.
  - apply H; vm_compute; reflexivity.
Defined.

Lemma unfinished_turn_blocks_witness :
  isWaitingForAgents (serve Examples.W0 initialState (Advance [])) = true
  /\ currentWeek (gameState (serve Examples.W0 initialState (Advance [])))
     = currentWeek (gameState initialState)
  /\ forall schedule',
       advanceWeek Examples.W0 schedule'
         (serve Examples.W0 initialState (Advance [])) = Refused.
Proof.
  destruct (unfinished_turn_blocks Examples.W0 [] initialState)
    as (H1 & H2 & H3 & _).
  - reflexivity.
  - reflexivity.
  - vm_compute. reflexivity.
  - split; [exact H1|]. split; [exact H2|exact H3].
Defined.

Lemma answer_by_id_resolves_witness :
  fst (commandStep Examples.W0 Examples.plainAnswer) = true
  /\ unansweredQuestions (snd (commandStep Examples.W0 Examples.plainAnswer))
     = [Examples.aQuestion "uq-abc" Answered].
Proof.
  destruct (answer_by_id_resolves Examples.W0 " " "abc" " yes" [] []
              (Examples.aQuestion "uq-abc" Open) [] Examples.plainAnswer)
    as (H1 & H2 & _).
  - reflexivity.
  - discriminate.
  - reflexivity.
  - discriminate.
  - reflexivity.
  - reflexivity.
  - reflexivity.
  - reflexivity.
  - intros q' [].
  - split; [exact H1|exact H2].
Defined.

Lemma submission_handling_witness :
  commandQueue
    (gameState (onSubmit Examples.W0 false "/declare stealth"
                  Examples.offline initialState)) = []
  /\ onSubmit Examples.W0 true "   " Examples.offline initialState
     = initialState.
Proof.
  destruct (submission_handling Examples.W0 "/declare stealth"
              Examples.offline initialState) as (H & _).
  destruct (submission_handling Examples.W0 "   "
              Examples.offline initialState) as (_ & _ & H').
  split.
  - apply (H (hd EmptyString (commandQueue (gameState initialState))) []).
    + reflexivity.
    + reflexivity.
    + reflexivity.
    + vm_compute. reflexivity.
  - apply H'. reflexivity.
Defined.

Lemma recent_quanta_are_this_turns_witness :
  recentQuantaOf Examples.week20 = []
  /\ exists added,
       quantumCore (snd (commandStep Examples.W0 Examples.week20))
       = quantumCore Examples.week20 ++ added
       /\ recentQuantaOf (snd (commandStep Examples.W0 Examples.week20))
          = added.
Proof.
  apply (recent_quanta_are_this_turns Examples.W0 Examples.week20).
  - apply week20_reachable.
  - vm_compute. reflexivity.
Defined.

Lemma answering_reachable : reachable Examples.W0 Examples.answering.
Proof. do 2 apply reach_serve. apply reach_init. Qed.

Lemma answers_raise_no_questions_witness :
  inquisitorDone (launch Examples.W0 Examples.answering)
  /\ unansweredQuestions (serve Examples.W0 Examples.answering (Advance []))
     = unansweredQuestions (snd (commandStep Examples.W0 Examples.answering)).
Proof.
  apply (answers_raise_no_questions Examples.W0 [] Examples.answering
           (serve Examples.W0 Examples.answering (Advance []))
           "/answer uq-abc the hero relies on stealth" []).
  - apply answering_reachable.
  - vm_compute. reflexivity.
  - vm_compute. reflexivity.
  - vm_compute. reflexivity.
Defined.

Lemma W0_unit_draws k : unitInterval (random Examples.W0 k).
Proof.
  unfold unitInterval, Examples.W0. cbn [random].
  replace (k + 2)%nat with (S (S k)) by lia.
  rewrite Nat2Pos.inj_succ by discriminate.
  unfold Qle, Double.lastBelowOne. cbn [Qnum Qden].
  rewrite Pos2Z.inj_succ. lia.
Qed.

Lemma turn_never_stuck_witness :
  producerTask (launch Examples.W0 Examples.crowded) <> Rejected
  /\ exists schedule st',
       advanceWeek Examples.W0 schedule Examples.crowded = Completed st'
       /\ currentWeek (gameState st')
          = currentWeek (gameState Examples.crowded) + 1.
Proof.
  apply (turn_never_stuck Examples.W0 W0_unit_draws Examples.crowded).
  - reflexivity.
  - reflexivity.
Defined.


Lemma generated_id_answerable_witness :
  fst (generateId Examples.W0 "uq" initialState) = "uq-2k3x9a0b1"%string
  /\ matchAnswer
       ("/answer" ++ " " ++ fst (generateId Examples.W0 "uq" initialState)
        ++ ": yes")%string
     = Some (fst (generateId Examples.W0 "uq" initialState)).
Proof.
  apply (generated_id_answerable Examples.W0 initialState " " ": yes").
  - vm_compute. discriminate.
  - vm_compute. reflexivity.
  - discriminate.
  - reflexivity.
  - reflexivity.
Defined.
